(** * Trident ONTAP REST client: pagination, job polling and the by-name
      volume operations

    A shallow embedding of the hand-written [RestClient] orchestration layer
    (package [api]): [HasNextLink], the pagination helpers, [IsJobFinished],
    [PollJobStatus], the [...ByNameAndStyle] volume operations,
    [createVolumeByStyle] and the existence waits.

    Conventions.
    - A Go pointer [*T] is [option T]; [None] is the nil pointer.  A
      dereference of nil panics.
    - A Go slice is [option (list T)]; [None] is the nil slice, which Go tells
      apart from the empty one in [s != nil].
    - A Go [error] value is [option error]; [None] is nil.
    - [int64] is [Z] with the wrap-around written out ([wrap64]).
    - [time.Duration] and clock readings are [Z], in nanoseconds.
    - The storage controller behind the generated go-swagger client is an
      oracle ([API]) answering each call from the history of calls.  Every
      call is recorded in the [log] of the [World]. *)

From Stdlib Require Import ZArith List String Ascii Bool Lia.
From Stdlib Require Import QArith Qround Lqa.
Import ListNotations.
Local Open Scope string_scope.
Local Open Scope list_scope.
Local Open Scope Z_scope.

Set Implicit Arguments.
Set Warnings "-register-all".

(* ------------------------------------------------------------------ *)
(** * Outcomes of a Go call *)

(** A call returns, panics, or (in the model only) exhausts the iteration
    budget handed to its loops. *)
Inductive Outcome (A : Type) : Type :=
| Ret (a : A)
| Panic (reason : string)
| OutOfFuel.
Arguments Panic {A} reason.
Arguments OutOfFuel {A}.

Definition obind {A B} (o : Outcome A) (k : A -> Outcome B) : Outcome B :=
  match o with
  | Ret a => k a
  | Panic r => Panic r
  | OutOfFuel => OutOfFuel
  end.

Definition nilDeref : string := "invalid memory address or nil pointer dereference".

(* ------------------------------------------------------------------ *)
(** * Package reflect, as far as [HasNextLink] uses it *)

Module reflect.

Inductive Kind := KInvalid | KPtr | KStruct | KString | KInterface | KOther.

Definition Kind_eqb (a b : Kind) : bool :=
  match a, b with
  | KInvalid, KInvalid | KPtr, KPtr | KStruct, KStruct
  | KString, KString | KInterface, KInterface | KOther, KOther => true
  | _, _ => false
  end.

(** A typed Go value as reflection sees it.  [ty] is the type's printed
    name.  [VOther] stands for every kind [HasNextLink] treats alike
    (integers, booleans, slices, maps, functions, ...).  [VIface] is a
    struct field or pointer target of interface type holding [dyn].
    Embedded (promoted) fields are not modelled: a struct is its list of
    directly declared fields. *)
Inductive Value :=
| VString (s : string)
| VOther (ty : string)
| VPtr (ty : string) (elem : option Value)
| VStruct (ty : string) (fields : list (string * Value))
| VIface (ty : string) (dyn : option Value).

(** [interface{}]: nil, or a dynamic value. *)
Definition iface := option Value.

(** [reflect.Value]: the zero Value, or a handle on a value. *)
Inductive rvalue := Zero | Val (v : Value).

Definition kindOf (v : Value) : Kind :=
  match v with
  | VString _ => KString
  | VOther _ => KOther
  | VPtr _ _ => KPtr
  | VStruct _ _ => KStruct
  | VIface _ _ => KInterface
  end.

Definition typeString (v : Value) : string :=
  match v with
  | VString _ => "string"
  | VOther ty | VPtr ty _ | VStruct ty _ | VIface ty _ => ty
  end.

Definition ValueOf (i : iface) : rvalue :=
  match i with
  | None => Zero
  | Some v => Val v
  end.

(** [reflect.TypeOf(i).Kind()]: [TypeOf(nil)] is the nil [Type], and the
    method call on it panics. *)
Definition TypeOf_Kind (i : iface) : Outcome Kind :=
  match i with
  | None => Panic nilDeref
  | Some v => Ret (kindOf v)
  end.

(** [reflect.Indirect]: the pointee of a pointer (the zero Value for a nil
    pointer), any other value unchanged. *)
Definition Indirect (v : rvalue) : rvalue :=
  match v with
  | Val (VPtr _ (Some e)) => Val e
  | Val (VPtr _ None) => Zero
  | _ => v
  end.

Fixpoint lookupField (name : string) (fs : list (string * Value)) : option Value :=
  match fs with
  | [] => None
  | (n, v) :: rest => if String.eqb n name then Some v else lookupField name rest
  end.

(** [Value.FieldByName]: panics unless the kind is Struct; the zero Value
    when the struct has no such field. *)
Definition FieldByName (v : rvalue) (name : string) : Outcome rvalue :=
  match v with
  | Val (VStruct _ fs) =>
      Ret (match lookupField name fs with
           | Some f => Val f
           | None => Zero
           end)
  | _ => Panic "reflect: call of reflect.Value.FieldByName on non-struct Value"
  end.

Definition IsValid (v : rvalue) : bool :=
  match v with
  | Zero => false
  | Val _ => true
  end.

(** [Value.Interface]: the value as an [interface{}]; for a Value of
    interface kind, the value it holds.  (It also panics on a field reached
    through an unexported name; [Links], [Next] and [Href] are exported.) *)
Definition Interface (v : rvalue) : Outcome iface :=
  match v with
  | Zero => Panic "reflect: call of reflect.Value.Interface on zero Value"
  | Val (VIface _ d) => Ret d
  | Val x => Ret (Some x)
  end.

(** [Value.String]: the string itself for kind String; for every other
    kind it does not panic and prints the type between angle brackets. *)
Definition String_ (v : rvalue) : string :=
  match v with
  | Zero => "<invalid Value>"
  | Val (VString s) => s
  | Val x => ("<" ++ typeString x ++ " Value>")%string
  end.

End reflect.

(* ------------------------------------------------------------------ *)
(** * HasNextLink *)

Notation "x <-- o ;; k" := (obind o (fun x => k))
  (at level 61, o at next level, right associativity).

(** The body of [HasNextLink], before the deferred [recover]. *)
Definition HasNextLink_body (restResult : reflect.iface) : Outcome bool :=
  match restResult with
  | None => Ret false
  | Some _ =>
      let val := reflect.ValueOf restResult in
      k <-- reflect.TypeOf_Kind restResult ;;
      let val := if reflect.Kind_eqb k reflect.KPtr then reflect.Indirect val else val in
      testLinks <-- reflect.FieldByName val "Links" ;;
      if reflect.IsValid testLinks then
        restResult <-- reflect.Interface testLinks ;;
        let val := reflect.ValueOf restResult in
        k <-- reflect.TypeOf_Kind restResult ;;
        let val := if reflect.Kind_eqb k reflect.KPtr then reflect.Indirect val else val in
        testNext <-- reflect.FieldByName val "Next" ;;
        if reflect.IsValid testNext then
          restResult <-- reflect.Interface testNext ;;
          let val := reflect.ValueOf restResult in
          k <-- reflect.TypeOf_Kind restResult ;;
          let val := if reflect.Kind_eqb k reflect.KPtr then reflect.Indirect val else val in
          testHref <-- reflect.FieldByName val "Href" ;;
          if reflect.IsValid testHref then
            hrefField <-- reflect.FieldByName val "Href" ;;
            let href := reflect.String_ hrefField in
            Ret (negb (String.eqb href ""))
          else Ret false
        else Ret false
      else Ret false
  end.

(** [defer func() { if r := recover(); r != nil { result = false } }()] *)
Definition HasNextLink (restResult : reflect.iface) : bool :=
  match HasNextLink_body restResult with
  | Ret b => b
  | Panic _ => false
  | OutOfFuel => false
  end.

(* ------------------------------------------------------------------ *)
(** * Package models: the generated data-transfer structs the client uses *)

(** Modelled from the spec: the struct and constant declarations of the
    generated [models] package (schema transliterations) are not among the
    sources; only the fields the client reads or writes are kept.  Every
    field is a pointer, as the client's own nil checks and [utils.Ptr] calls
    show, and the enumeration constants are the schema's literals. *)

Module models.

Definition JobStateQueued : string := "queued".
Definition JobStateRunning : string := "running".
Definition JobStatePaused : string := "paused".
Definition JobStateSuccess : string := "success".
Definition JobStateFailure : string := "failure".

Definition VolumeStyleFlexvol : string := "flexvol".
Definition VolumeStyleFlexgroup : string := "flexgroup".

Definition VolumeStateOnline : string := "online".
Definition VolumeStateOffline : string := "offline".
Definition VolumeStateMixed : string := "mixed".
Definition VolumeStateError : string := "error".

(** [Href.Href] is a [*string]: [ParamWrapper.WriteToRequest] tests
    [o.next.Href == nil || *o.next.Href == ""]. *)
Record Href := { Href_Href : option string }.

(** The [_links] object of a collection response
    ([VolumeResponseInlineLinks], [AggregateResponseInlineLinks], ...). *)
Record Links := { Links_Next : option Href; Links_Self : option Href }.

(** The inline structs that carry a name only (snapshot policy, export
    policy, QoS policy, aggregate item, clone parent). *)
Record NameRef := { Ref_Name : option string }.

Record VolumeInlineNas := {
  Nas_Path : option string;
  Nas_SecurityStyle : option string;
  Nas_UnixPermissions : option Z;
  Nas_ExportPolicy : option NameRef
}.

Record VolumeInlineClone := {
  Clone_SplitInitiated : option bool;
  Clone_IsFlexclone : option bool;
  Clone_ParentVolume : option NameRef;
  Clone_ParentSnapshot : option NameRef
}.

Record VolumeInlineGuarantee := { Guarantee_Type : option string }.
Record VolumeInlineSpaceInlineSnapshot := { Snapshot_ReservePercent : option Z }.
Record VolumeInlineSpace := { Space_Snapshot : option VolumeInlineSpaceInlineSnapshot }.
Record VolumeInlineSvm := { Svm_UUID : option string }.
Record VolumeInlineEncryption := { Encryption_Enabled : option bool }.
Record VolumeInlineQos := { Qos_Policy : option NameRef }.
Record VolumeInlineTiering := { Tiering_Policy : option string }.
Record VolumeInlineQuota := { Quota_Enabled : option bool }.

Record Volume := mkVolume {
  Volume_UUID : option string;
  Volume_Name : option string;
  Volume_Size : option Z;
  Volume_Comment : option string;
  Volume_State : option string;
  Volume_Style : option string;
  Volume_Type : option string;
  Volume_Nas : option VolumeInlineNas;
  Volume_Clone : option VolumeInlineClone;
  Volume_Guarantee : option VolumeInlineGuarantee;
  Volume_SnapshotPolicy : option NameRef;
  Volume_Aggregates : option (list (option NameRef));
  Volume_Space : option VolumeInlineSpace;
  Volume_Svm : option VolumeInlineSvm;
  Volume_Encryption : option VolumeInlineEncryption;
  Volume_Qos : option VolumeInlineQos;
  Volume_Tiering : option VolumeInlineTiering;
  Volume_SnapshotDirectoryAccessEnabled : option bool;
  Volume_Quota : option VolumeInlineQuota
}.

(** [&models.Volume{}] *)
Definition emptyVolume : Volume :=
  mkVolume None None None None None None None None None None None None None
           None None None None None None.

Definition emptyNas : VolumeInlineNas :=
  {| Nas_Path := None; Nas_SecurityStyle := None;
     Nas_UnixPermissions := None; Nas_ExportPolicy := None |}.

(** Field assignments [v.F = x]. *)
Definition set_Name x (v : Volume) :=
  let 'mkVolume a _ c d e f g h i j k l m n o p q r s := v in
  mkVolume a x c d e f g h i j k l m n o p q r s.
Definition set_Size x (v : Volume) :=
  let 'mkVolume a b _ d e f g h i j k l m n o p q r s := v in
  mkVolume a b x d e f g h i j k l m n o p q r s.
Definition set_Comment x (v : Volume) :=
  let 'mkVolume a b c _ e f g h i j k l m n o p q r s := v in
  mkVolume a b c x e f g h i j k l m n o p q r s.
Definition set_State x (v : Volume) :=
  let 'mkVolume a b c d _ f g h i j k l m n o p q r s := v in
  mkVolume a b c d x f g h i j k l m n o p q r s.
Definition set_Style x (v : Volume) :=
  let 'mkVolume a b c d e _ g h i j k l m n o p q r s := v in
  mkVolume a b c d e x g h i j k l m n o p q r s.
Definition set_Type x (v : Volume) :=
  let 'mkVolume a b c d e f _ h i j k l m n o p q r s := v in
  mkVolume a b c d e f x h i j k l m n o p q r s.
Definition set_Nas x (v : Volume) :=
  let 'mkVolume a b c d e f g _ i j k l m n o p q r s := v in
  mkVolume a b c d e f g x i j k l m n o p q r s.
Definition set_Clone x (v : Volume) :=
  let 'mkVolume a b c d e f g h _ j k l m n o p q r s := v in
  mkVolume a b c d e f g h x j k l m n o p q r s.
Definition set_Guarantee x (v : Volume) :=
  let 'mkVolume a b c d e f g h i _ k l m n o p q r s := v in
  mkVolume a b c d e f g h i x k l m n o p q r s.
Definition set_SnapshotPolicy x (v : Volume) :=
  let 'mkVolume a b c d e f g h i j _ l m n o p q r s := v in
  mkVolume a b c d e f g h i j x l m n o p q r s.
Definition set_Aggregates x (v : Volume) :=
  let 'mkVolume a b c d e f g h i j k _ m n o p q r s := v in
  mkVolume a b c d e f g h i j k x m n o p q r s.
Definition set_Space x (v : Volume) :=
  let 'mkVolume a b c d e f g h i j k l _ n o p q r s := v in
  mkVolume a b c d e f g h i j k l x n o p q r s.
Definition set_Svm x (v : Volume) :=
  let 'mkVolume a b c d e f g h i j k l m _ o p q r s := v in
  mkVolume a b c d e f g h i j k l m x o p q r s.
Definition set_Encryption x (v : Volume) :=
  let 'mkVolume a b c d e f g h i j k l m n _ p q r s := v in
  mkVolume a b c d e f g h i j k l m n x p q r s.
Definition set_Qos x (v : Volume) :=
  let 'mkVolume a b c d e f g h i j k l m n o _ q r s := v in
  mkVolume a b c d e f g h i j k l m n o x q r s.
Definition set_Tiering x (v : Volume) :=
  let 'mkVolume a b c d e f g h i j k l m n o p _ r s := v in
  mkVolume a b c d e f g h i j k l m n o p x r s.
Definition set_SnapshotDirectoryAccessEnabled x (v : Volume) :=
  let 'mkVolume a b c d e f g h i j k l m n o p q _ s := v in
  mkVolume a b c d e f g h i j k l m n o p q x s.
Definition set_Quota x (v : Volume) :=
  let 'mkVolume a b c d e f g h i j k l m n o p q r _ := v in
  mkVolume a b c d e f g h i j k l m n o p q r x.

Definition set_Nas_Path x (n : VolumeInlineNas) :=
  {| Nas_Path := x; Nas_SecurityStyle := Nas_SecurityStyle n;
     Nas_UnixPermissions := Nas_UnixPermissions n;
     Nas_ExportPolicy := Nas_ExportPolicy n |}.
Definition set_Nas_SecurityStyle x (n : VolumeInlineNas) :=
  {| Nas_Path := Nas_Path n; Nas_SecurityStyle := x;
     Nas_UnixPermissions := Nas_UnixPermissions n;
     Nas_ExportPolicy := Nas_ExportPolicy n |}.
Definition set_Nas_UnixPermissions x (n : VolumeInlineNas) :=
  {| Nas_Path := Nas_Path n; Nas_SecurityStyle := Nas_SecurityStyle n;
     Nas_UnixPermissions := x; Nas_ExportPolicy := Nas_ExportPolicy n |}.
Definition set_Nas_ExportPolicy x (n : VolumeInlineNas) :=
  {| Nas_Path := Nas_Path n; Nas_SecurityStyle := Nas_SecurityStyle n;
     Nas_UnixPermissions := Nas_UnixPermissions n; Nas_ExportPolicy := x |}.

(** A collection response: [VolumeResponse], [AggregateResponse].  [R] is
    the record type; the record slice holds pointers. *)
Record CollectionResponse (R : Type) := {
  Links_ : option Links;
  NumRecords : option Z;
  InlineRecords : option (list (option R))
}.

Record Aggregate := { Aggregate_Name : option string; Aggregate_UUID : option string }.

Definition VolumeResponse := CollectionResponse Volume.
Definition AggregateResponse := CollectionResponse Aggregate.

Record JobLink := { JobLink_UUID : option string }.
Record JobLinkResponse := { Job_ : option JobLink }.

Record Job := {
  Job_UUID : option string;
  Job_Description : option string;
  Job_State : option string;
  Job_Message : option string;
  Job_Code : option Z
}.

End models.

(* ------------------------------------------------------------------ *)
(** * Errors *)

(** The two failures of [strconv]'s parsers. *)
Inductive NumErrorKind := ErrSyntax | ErrRange.

(** The error values the client handles: [fmt.Errorf] messages (a [%v] of a
    pointer prints an address, rendered here as [ptrText]), errors handed
    back by the generated client, [strconv]'s [*NumError], and the error of
    a failed job. *)
Inductive error :=
| Errorf (msg : string)
| ClientError (status : Z) (msg : string)
| NumError (func num : string) (kind : NumErrorKind)
| RestError (payload : option models.Job).

(** Modelled from the spec: [NewRestErrorFromPayload] is declared in a file
    of package [api] that is not among the sources; it builds the error of
    a failed job from the job payload. *)
Definition NewRestErrorFromPayload (payload : option models.Job) : error :=
  RestError payload.

Definition ptrText : string := "0xc000000000".

(** [int64] wrap-around. *)
Definition wrap64 (z : Z) : Z := (z + 2 ^ 63) mod 2 ^ 64 - 2 ^ 63.

(** [append(s, t...)] on slices. *)
Definition append {A} (s t : option (list A)) : option (list A) :=
  match s, t with
  | None, None => None
  | None, Some [] => None
  | None, Some l => Some l
  | Some a, None => Some a
  | Some a, Some l => Some (a ++ l)
  end.

(** The elements of a slice. *)
Definition elems {A} (s : option (list A)) : list A :=
  match s with
  | None => []
  | Some l => l
  end.

(* ------------------------------------------------------------------ *)
(** * The generated client: parameters, responses and the call log *)

Module client.

Record VolumeCollectionGetParams := {
  VCG_SvmUUID : option string;
  VCG_Name : option string;
  VCG_State : option string;
  VCG_Style : option string;
  VCG_Fields : list string
}.

Record VolumeModifyParams := {
  VM_UUID : string;
  VM_Info : option models.Volume;
  VM_RestoreToSnapshotName : option string
}.

Record VolumeDeleteParams := { VD_UUID : string }.

Record VolumeCreateParams := { VC_Info : option models.Volume }.

Record AggregateCollectionGetParams := {
  ACG_Name : option string;
  ACG_Fields : list string
}.

Record JobGetParams := { JG_UUID : string; JG_Fields : list string }.

(** A response object ([...OK], [...Accepted]) with its payload pointer. *)
Record Response (P : Type) := { Payload : option P }.

Definition VolumeCollectionGetOK := Response models.VolumeResponse.
Definition AggregateCollectionGetOK := Response models.AggregateResponse.
Definition VolumeModifyAccepted := Response models.JobLinkResponse.
Definition VolumeDeleteAccepted := Response models.JobLinkResponse.
Definition VolumeCreateAccepted := Response models.JobLinkResponse.
Definition JobGetOK := Response models.Job.

(** One REST call, as issued.  [next] is the link handed to [WithNextLink]. *)
Inductive Call :=
| VolumeCollectionGet (params : VolumeCollectionGetParams) (next : option models.Href)
| AggregateCollectionGet (params : AggregateCollectionGetParams) (next : option models.Href)
| VolumeModify (params : VolumeModifyParams)
| VolumeDelete (params : VolumeDeleteParams)
| VolumeCreate (params : VolumeCreateParams)
| JobGet (params : JobGetParams).

(** The storage controller: what each call returns, given the calls issued
    before it, and how long the [n]-th call takes (in nanoseconds). *)
Record API := {
  Storage_VolumeCollectionGet :
    list Call -> VolumeCollectionGetParams -> option models.Href ->
    option VolumeCollectionGetOK * option error;
  Storage_AggregateCollectionGet :
    list Call -> AggregateCollectionGetParams -> option models.Href ->
    option AggregateCollectionGetOK * option error;
  Storage_VolumeModify :
    list Call -> VolumeModifyParams -> option VolumeModifyAccepted * option error;
  Storage_VolumeDelete :
    list Call -> VolumeDeleteParams -> option VolumeDeleteAccepted * option error;
  Storage_VolumeCreate :
    list Call -> VolumeCreateParams -> option VolumeCreateAccepted * option error;
  Cluster_JobGet :
    list Call -> JobGetParams -> option JobGetOK * option error;
  latency : list Call -> N
}.

End client.

Import client.

(** A call that changes the controller's state. *)
Definition mutating (c : Call) : bool :=
  match c with
  | VolumeModify _ | VolumeDelete _ | VolumeCreate _ => true
  | _ => false
  end.

Definition isVolumeCollectionGet (c : Call) : bool :=
  match c with
  | VolumeCollectionGet _ _ => true
  | _ => false
  end.

Definition isJobGet (c : Call) : bool :=
  match c with
  | JobGet _ => true
  | _ => false
  end.

(* ------------------------------------------------------------------ *)
(** * The world and the monad of client code *)

(** The wall clock, the calls issued so far (oldest first), and the number
    of random draws taken from [math/rand]. *)
Record World := mkWorld { now : Z; log : list Call; draws : nat }.

(** The process around the client: the [k]-th draw of [rand.Float64] is
    [(Float64 k mod 2^53) / 2^53], and the [k]-th timer fires [timerSlack k]
    nanoseconds late. *)
Record Runtime := { Float64 : nat -> N; timerSlack : nat -> N }.

Definition M (A : Type) : Type := World -> Outcome A * World.

Definition ret {A} (a : A) : M A := fun w => (Ret a, w).

Definition bind {A B} (m : M A) (k : A -> M B) : M B :=
  fun w =>
    match m w with
    | (Ret a, w') => k a w'
    | (Panic r, w') => (Panic r, w')
    | (OutOfFuel, w') => (OutOfFuel, w')
    end.

Definition panic {A} (reason : string) : M A := fun w => (Panic reason, w).

Definition outOfFuel {A} : M A := fun w => (OutOfFuel, w).

(** [*p] *)
Definition deref {A} (p : option A) : M A :=
  match p with
  | Some a => ret a
  | None => panic nilDeref
  end.

(** [s[0]] *)
Definition index0 {A} (s : option (list A)) : M A :=
  match elems s with
  | a :: _ => ret a
  | [] => panic "index out of range [0] with length 0"
  end.

Notation "x <- m ;; k" := (bind m (fun x => k))
  (at level 61, m at next level, right associativity).
Notation "' pat <- m ;; k" := (bind m (fun x => match x with pat => k end))
  (at level 61, pat pattern, m at next level, right associativity).

(** Issue [call]: record it, let the clock advance by its latency, and
    return the controller's answer. *)
Definition issue {R} (a : API) (call : Call) (answer : list Call -> R) : M R :=
  fun w =>
    (Ret (answer (log w)),
     {| now := now w + Z.of_N (latency a (log w ++ [call]));
        log := log w ++ [call];
        draws := draws w |}).

(* ------------------------------------------------------------------ *)
(** * Package backoff: exponential backoff and the retry loop *)

Module backoff.

(** Modelled from the spec: the retry package (cenkalti/backoff, version 4)
    is a dependency and not among the sources.  The spec names the pattern:
    fetch repeatedly until the condition holds or a timeout elapses, with
    exponential backoff.  The definitions below follow the package's
    algorithm: the randomized interval is drawn from
    [currentInterval * [1 - RandomizationFactor, 1 + RandomizationFactor]],
    the current interval is multiplied by [Multiplier] up to [MaxInterval],
    and the policy stops once the elapsed time plus the next interval
    exceeds [MaxElapsedTime].  Its [float64] arithmetic is taken as exact
    rational arithmetic. *)
Record ExponentialBackOff := {
  InitialInterval : Z;
  RandomizationFactor : Q;
  Multiplier : Q;
  MaxInterval : Z;
  MaxElapsedTime : Z;
  currentInterval : Z;
  startTime : Z
}.

Definition Millisecond : Z := 1000000.
Definition Second : Z := 1000 * Millisecond.
Definition Minute : Z := 60 * Second.

(** The value [NextBackOff] returns to end the retries. *)
Definition Stop : Z := -1.

Definition set_InitialInterval x b :=
  {| InitialInterval := x; RandomizationFactor := RandomizationFactor b;
     Multiplier := Multiplier b; MaxInterval := MaxInterval b;
     MaxElapsedTime := MaxElapsedTime b;
     currentInterval := currentInterval b; startTime := startTime b |}.
Definition set_RandomizationFactor x b :=
  {| InitialInterval := InitialInterval b; RandomizationFactor := x;
     Multiplier := Multiplier b; MaxInterval := MaxInterval b;
     MaxElapsedTime := MaxElapsedTime b;
     currentInterval := currentInterval b; startTime := startTime b |}.
Definition set_Multiplier x b :=
  {| InitialInterval := InitialInterval b;
     RandomizationFactor := RandomizationFactor b;
     Multiplier := x; MaxInterval := MaxInterval b;
     MaxElapsedTime := MaxElapsedTime b;
     currentInterval := currentInterval b; startTime := startTime b |}.
Definition set_MaxElapsedTime x b :=
  {| InitialInterval := InitialInterval b;
     RandomizationFactor := RandomizationFactor b;
     Multiplier := Multiplier b; MaxInterval := MaxInterval b;
     MaxElapsedTime := x;
     currentInterval := currentInterval b; startTime := startTime b |}.
Definition set_currentInterval x b :=
  {| InitialInterval := InitialInterval b;
     RandomizationFactor := RandomizationFactor b;
     Multiplier := Multiplier b; MaxInterval := MaxInterval b;
     MaxElapsedTime := MaxElapsedTime b;
     currentInterval := x; startTime := startTime b |}.

(** [b.Reset()]: back to the initial interval, and the clock is read. *)
Definition Reset (b : ExponentialBackOff) : M ExponentialBackOff :=
  fun w =>
    (Ret {| InitialInterval := InitialInterval b;
            RandomizationFactor := RandomizationFactor b;
            Multiplier := Multiplier b; MaxInterval := MaxInterval b;
            MaxElapsedTime := MaxElapsedTime b;
            currentInterval := InitialInterval b; startTime := now w |}, w).

(** [NewExponentialBackOff()]: the package defaults, then [Reset]. *)
Definition NewExponentialBackOff : M ExponentialBackOff :=
  Reset {| InitialInterval := 500 * Millisecond;
           RandomizationFactor := 5 # 10;
           Multiplier := 15 # 10;
           MaxInterval := 60 * Second;
           MaxElapsedTime := 15 * Minute;
           currentInterval := 0; startTime := 0 |}.

Definition GetElapsedTime (b : ExponentialBackOff) : M Z :=
  fun w => (Ret (now w - startTime b), w).

(** [time.Duration(f)]: truncation toward zero. *)
Definition toDuration (q : Q) : Z :=
  if Qle_bool 0 q then Qfloor q else Qceiling q.

(** [rand.Float64()]: a multiple of [2^-53] in [[0, 1)]. *)
Definition randFloat64 (rt : Runtime) : M Q :=
  fun w =>
    (Ret (inject_Z (Z.of_N (Float64 rt (draws w)) mod 2 ^ 53) / inject_Z (2 ^ 53))%Q,
     {| now := now w; log := log w; draws := S (draws w) |}).

Definition getRandomValueFromInterval
    (randomizationFactor random : Q) (currentInterval : Z) : Z :=
  if Qeq_bool randomizationFactor 0 then currentInterval
  else
    let delta := (randomizationFactor * inject_Z currentInterval)%Q in
    let minInterval := (inject_Z currentInterval - delta)%Q in
    let maxInterval := (inject_Z currentInterval + delta)%Q in
    toDuration (minInterval + random * (maxInterval - minInterval + 1))%Q.

Definition incrementCurrentInterval (b : ExponentialBackOff) : ExponentialBackOff :=
  if Qle_bool (inject_Z (MaxInterval b) / Multiplier b) (inject_Z (currentInterval b))
  then set_currentInterval (MaxInterval b) b
  else set_currentInterval
         (toDuration (inject_Z (currentInterval b) * Multiplier b)%Q) b.

Definition NextBackOff (rt : Runtime) (b : ExponentialBackOff)
  : M (Z * ExponentialBackOff) :=
  elapsed <- GetElapsedTime b ;;
  random <- randFloat64 rt ;;
  let next := getRandomValueFromInterval (RandomizationFactor b) random
                                         (currentInterval b) in
  let b := incrementCurrentInterval b in
  if negb (MaxElapsedTime b =? 0) && (MaxElapsedTime b <? elapsed + next)
  then ret (Stop, b)
  else ret (next, b).

(** The timer of the retry loop: it fires [d] nanoseconds later, or later
    still by the slack of the runtime. *)
Definition wait (rt : Runtime) (d : Z) : M unit :=
  fun w =>
    (Ret tt,
     {| now := now w + Z.max 0 d + Z.of_N (timerSlack rt (draws w));
        log := log w; draws := draws w |}).

(** The loop of [RetryNotify].  No operation of the client returns a
    [PermanentError], and the policy carries no context to cancel; [notify]
    only writes a log line. *)
Fixpoint retryLoop (rt : Runtime) (n : nat) (operation : M (option error))
    (b : ExponentialBackOff) : M (option error) :=
  match n with
  | O => outOfFuel
  | S n' =>
      err <- operation ;;
      match err with
      | None => ret None
      | Some e =>
          '(next, b) <- NextBackOff rt b ;;
          if next =? Stop then ret (Some e)
          else
            _ <- wait rt next ;;
            retryLoop rt n' operation b
      end
  end.

(** [backoff.RetryNotify(operation, b, notify)], with at most [fuel]
    attempts. *)
Definition RetryNotify (rt : Runtime) (fuel : nat)
    (operation : M (option error)) (b : ExponentialBackOff) : M (option error) :=
  b <- Reset b ;;
  retryLoop rt fuel operation b.

End backoff.

(* ------------------------------------------------------------------ *)
(** * Package strconv and the permission converter *)

Module strconv.

Definition isDigit (ch : ascii) : bool :=
  (48 <=? nat_of_ascii ch)%nat && (nat_of_ascii ch <=? 57)%nat.

Definition digitVal (ch : ascii) : Z := Z.of_nat (nat_of_ascii ch) - 48.

(** The digit loop of [ParseUint] in base 10: the first character that is
    not a digit is a syntax error with value 0, the first digit that takes
    the value beyond [maxVal] a range error with value [maxVal]. *)
Fixpoint parseDigits (s : string) (n maxVal : Z) : Z * option NumErrorKind :=
  match s with
  | EmptyString => (n, None)
  | String ch rest =>
      if isDigit ch then
        let n1 := n * 10 + digitVal ch in
        if maxVal <? n1 then (maxVal, Some ErrRange)
        else parseDigits rest n1 maxVal
      else (0, Some ErrSyntax)
  end.

(** [strconv.ParseUint(s, 10, 64)] *)
Definition ParseUint (s : string) : Z * option error :=
  match s with
  | EmptyString => (0, Some (NumError "ParseUint" s ErrSyntax))
  | _ =>
      match parseDigits s 0 (2 ^ 64 - 1) with
      | (n, None) => (n, None)
      | (n, Some k) => (n, Some (NumError "ParseUint" s k))
      end
  end.

(** [strconv.ParseInt(s, 10, 64)] *)
Definition ParseInt (s0 : string) : Z * option error :=
  match s0 with
  | EmptyString => (0, Some (NumError "ParseInt" s0 ErrSyntax))
  | String ch rest =>
      let neg := Ascii.eqb ch "-" in
      let s := if Ascii.eqb ch "+" || neg then rest else s0 in
      let '(un, err) := ParseUint s in
      match err with
      | Some (NumError _ _ ErrSyntax) => (0, Some (NumError "ParseInt" s0 ErrSyntax))
      | _ =>
          let cutoff := 2 ^ 63 in
          if negb neg && (cutoff <=? un) then
            (cutoff - 1, Some (NumError "ParseInt" s0 ErrRange))
          else if neg && (cutoff <? un) then
            (- cutoff, Some (NumError "ParseInt" s0 ErrRange))
          else (if neg then - un else un, None)
      end
  end.

End strconv.

(** [strings.TrimPrefix] *)
Definition TrimPrefix (s prefix : string) : string :=
  if String.prefix prefix s
  then substring (String.length prefix) (String.length s - String.length prefix) s
  else s.

(** [s[i]], on a string long enough; the zero byte stands in otherwise. *)
Definition byteAt (s : string) (i : nat) : ascii :=
  match String.get i s with
  | Some ch => ch
  | None => zero
  end.

Definition permissionValue (ch : ascii) : Z :=
  if Ascii.eqb ch "r" then 4
  else if Ascii.eqb ch "w" then 2
  else if Ascii.eqb ch "x" then 1
  else 0.

(** [fmt.Sprint(i)] for the sum of one permission triple, [0 <= i <= 7]. *)
Definition sprintDigit (i : Z) : string :=
  String (ascii_of_nat (48 + Z.to_nat i)) EmptyString.

Definition properTriple (s : string) (i : nat) : bool :=
  (Ascii.eqb (byteAt s i) "r" || Ascii.eqb (byteAt s i) "-")
  && (Ascii.eqb (byteAt s (i + 1)) "w" || Ascii.eqb (byteAt s (i + 1)) "-")
  && (Ascii.eqb (byteAt s (i + 2)) "x" || Ascii.eqb (byteAt s (i + 2)) "-").

Definition tripleValue (s : string) (i : nat) : Z :=
  permissionValue (byteAt s i) + permissionValue (byteAt s (i + 1))
  + permissionValue (byteAt s (i + 2)).

(** [convertUnixPermissions] turns ["rwxr-xr-x"] into ["755"] if possible,
    otherwise returns the string. *)
Definition convertUnixPermissions (s : string) : string :=
  let s := TrimPrefix s "---" in
  if negb (String.length s =? 9)%nat then s
  else if negb (properTriple s 0 && properTriple s 3 && properTriple s 6) then s
  else (sprintDigit (tripleValue s 0) ++ sprintDigit (tripleValue s 3)
        ++ sprintDigit (tripleValue s 6))%string.

(** Modelled from the spec: [QosPolicyGroup], its kinds and
    [NumericalValueNotSet] are declared in files of package [api] that are
    not among the sources. *)
Inductive QosPolicyGroupKindType :=
| InvalidQosPolicyGroupKind
| QosPolicyGroupKind
| QosAdaptivePolicyGroupKind.

Record QosPolicyGroup := { Qos_Name : string; Qos_Kind : QosPolicyGroupKindType }.

Definition isInvalidKind (k : QosPolicyGroupKindType) : bool :=
  match k with
  | InvalidQosPolicyGroupKind => true
  | _ => false
  end.

Definition NumericalValueNotSet : Z := -1.

(* ------------------------------------------------------------------ *)
(** * The typed payloads as reflection sees them *)

Definition Href_Value (h : models.Href) : reflect.Value :=
  reflect.VStruct "models.Href"
    [("Href", reflect.VPtr "*string" (option_map reflect.VString (models.Href_Href h)))].

Definition Links_Value (ty : string) (l : models.Links) : reflect.Value :=
  reflect.VStruct ty
    [("Next", reflect.VPtr "*models.Href" (option_map Href_Value (models.Links_Next l)));
     ("Self", reflect.VPtr "*models.Href" (option_map Href_Value (models.Links_Self l)))].

(** A pointer to a collection response, passed as [interface{}]: a nil
    pointer is still a non-nil interface value. *)
Definition Response_iface {R} (ty linksTy recordsField recordsTy : string)
    (p : option (models.CollectionResponse R)) : reflect.iface :=
  Some (reflect.VPtr ("*" ++ ty)
    (option_map
       (fun r =>
          reflect.VStruct ty
            [("Links", reflect.VPtr ("*" ++ linksTy)
                         (option_map (Links_Value linksTy) (models.Links_ r)));
             ("NumRecords", reflect.VPtr "*int64"
                              (option_map (fun _ => reflect.VOther "int64")
                                          (models.NumRecords r)));
             (recordsField, reflect.VOther recordsTy)])
       p)).

Definition VolumeResponse_iface : option models.VolumeResponse -> reflect.iface :=
  Response_iface "models.VolumeResponse" "models.VolumeResponseInlineLinks"
                 "VolumeResponseInlineRecords" "[]*models.Volume".

Definition AggregateResponse_iface : option models.AggregateResponse -> reflect.iface :=
  Response_iface "models.AggregateResponse" "models.AggregateResponseInlineLinks"
                 "AggregateResponseInlineRecords" "[]*models.Aggregate".

(** The in-place merge of one further page into the accumulated payload:
    [NumRecords] nil counts as 0, the counts are added in [int64], the
    records appended. *)
Definition mergePage {R} (payload : models.CollectionResponse R)
    (nextNum : Z) (nextRecords : option (list (option R)))
  : models.CollectionResponse R :=
  let num := match models.NumRecords payload with
             | None => 0
             | Some n => n
             end in
  {| models.Links_ := models.Links_ payload;
     models.NumRecords := Some (wrap64 (num + nextNum));
     models.InlineRecords := append (models.InlineRecords payload) nextRecords |}.

(* ------------------------------------------------------------------ *)
(** * RestClient *)

Record RestClient := { api : API; svmUUID : string }.

Section RestClient.

(** Modelled from the spec: [utils.ConvertSizeToBytes] is declared in a
    package that is not among the sources; it is a parameter. *)
Variable ConvertSizeToBytes : string -> string * option error.

Variable rt : Runtime.

(** The number of iterations each loop may take. *)
Variable fuel : nat.

Variable c : RestClient.

Definition api_VolumeCollectionGet (params : VolumeCollectionGetParams)
    (next : option models.Href) : M (option VolumeCollectionGetOK * option error) :=
  issue (api c) (VolumeCollectionGet params next)
        (fun h => Storage_VolumeCollectionGet (api c) h params next).

Definition api_AggregateCollectionGet (params : AggregateCollectionGetParams)
    (next : option models.Href) : M (option AggregateCollectionGetOK * option error) :=
  issue (api c) (AggregateCollectionGet params next)
        (fun h => Storage_AggregateCollectionGet (api c) h params next).

Definition api_VolumeModify (params : VolumeModifyParams)
  : M (option VolumeModifyAccepted * option error) :=
  issue (api c) (VolumeModify params)
        (fun h => Storage_VolumeModify (api c) h params).

Definition api_VolumeDelete (params : VolumeDeleteParams)
  : M (option VolumeDeleteAccepted * option error) :=
  issue (api c) (VolumeDelete params)
        (fun h => Storage_VolumeDelete (api c) h params).

Definition api_VolumeCreate (params : VolumeCreateParams)
  : M (option VolumeCreateAccepted * option error) :=
  issue (api c) (VolumeCreate params)
        (fun h => Storage_VolumeCreate (api c) h params).

Definition api_JobGet (params : JobGetParams)
  : M (option JobGetOK * option error) :=
  issue (api c) (JobGet params)
        (fun h => Cluster_JobGet (api c) h params).

(** The [for] loop of [getAllVolumePayloadRecords]. *)
Fixpoint getAllVolumePayloadRecords_loop (n : nat)
    (payload : models.VolumeResponse) (params : VolumeCollectionGetParams)
    (nextLink : option models.Href)
  : M (option models.VolumeResponse * option error) :=
  match n with
  | O => outOfFuel
  | S n' =>
      '(resultNext, errNext) <- api_VolumeCollectionGet params nextLink ;;
      match errNext with
      | Some e => ret (None, Some e)
      | None =>
          match resultNext with
          | Some {| Payload := Some nextPayload |} =>
              match models.NumRecords nextPayload with
              | Some nextNum =>
                  let payload :=
                    mergePage payload nextNum (models.InlineRecords nextPayload) in
                  if negb (HasNextLink (VolumeResponse_iface (Some nextPayload)))
                  then ret (Some payload, None)
                  else
                    links <- deref (models.Links_ nextPayload) ;;
                    getAllVolumePayloadRecords_loop n' payload params
                                                    (models.Links_Next links)
              | None => ret (Some payload, None)
              end
          | _ => ret (Some payload, None)
          end
      end
  end.

Definition getAllVolumePayloadRecords (payload : option models.VolumeResponse)
    (params : VolumeCollectionGetParams)
  : M (option models.VolumeResponse * option error) :=
  if HasNextLink (VolumeResponse_iface payload) then
    p <- deref payload ;;
    links <- deref (models.Links_ p) ;;
    getAllVolumePayloadRecords_loop fuel p params (models.Links_Next links)
  else ret (payload, None).

Definition validStates : list string :=
  [models.VolumeStateOnline; models.VolumeStateOffline;
   models.VolumeStateMixed; models.VolumeStateError; ""].

Definition getAllVolumesByPatternStyleAndState (pattern style state : string)
  : M (option VolumeCollectionGetOK * option error) :=
  if negb (String.eqb style models.VolumeStyleFlexvol)
     && negb (String.eqb style models.VolumeStyleFlexgroup)
  then ret (None, Some (Errorf ("unknown volume style " ++ style)))
  else if negb (existsb (String.eqb state) validStates)
  then ret (None, Some (Errorf ("unknown volume state " ++ state)))
  else
    let params :=
      {| VCG_SvmUUID := Some (svmUUID c);
         VCG_Name := Some pattern;
         VCG_State := if String.eqb state "" then None else Some state;
         VCG_Style := Some style;
         VCG_Fields := ["**"%string] |} in
    '(result, err) <- api_VolumeCollectionGet params None ;;
    match err with
    | Some e => ret (None, Some e)
    | None =>
        match result with
        | None => ret (None, None)
        | Some result =>
            '(payload, err) <- getAllVolumePayloadRecords (Payload result) params ;;
            ret (Some {| Payload := payload |}, err)
        end
    end.

(** The common tail of [getVolumeByNameAndStyle] and
    [getVolumeInAnyStateByNameAndStyle], from the nil checks on. *)
Definition uniqueVolume (volumeName : string) (result : option VolumeCollectionGetOK)
  : M (option models.Volume * option error) :=
  match result with
  | Some {| Payload := Some payload |} =>
      match models.NumRecords payload with
      | None => ret (None, None)
      | Some num =>
          if num =? 0 then ret (None, None)
          else if (num =? 1)
                  && match models.InlineRecords payload with
                     | Some _ => true
                     | None => false
                     end
          then
            volume <- index0 (models.InlineRecords payload) ;;
            ret (volume, None)
          else
            ret (None,
                 Some (Errorf ("could not find unique volume with name '"
                               ++ volumeName ++ "'; found " ++ ptrText
                               ++ " matching volumes")))
      end
  | _ => ret (None, None)
  end.

Definition getVolumeByNameAndStyle (volumeName style : string)
  : M (option models.Volume * option error) :=
  '(result, err) <-
     getAllVolumesByPatternStyleAndState volumeName style models.VolumeStateOnline ;;
  match err with
  | Some e => ret (None, Some e)
  | None => uniqueVolume volumeName result
  end.

Definition getVolumeInAnyStateByNameAndStyle (volumeName style : string)
  : M (option models.Volume * option error) :=
  '(result, err) <- getAllVolumesByPatternStyleAndState volumeName style "" ;;
  match err with
  | Some e => ret (None, Some e)
  | None => uniqueVolume volumeName result
  end.

Definition checkVolumeExistsByNameAndStyle (volumeName style : string)
  : M (bool * option error) :=
  if String.eqb volumeName "" then ret (false, None)
  else
    '(volume, err) <- getVolumeByNameAndStyle volumeName style ;;
    match err with
    | Some e => ret (false, Some e)
    | None =>
        match volume with
        | None => ret (false, err)
        | Some _ => ret (true, None)
        end
    end.

Definition VolumeExists (volumeName : string) : M (bool * option error) :=
  checkVolumeExistsByNameAndStyle volumeName models.VolumeStyleFlexvol.

Definition FlexGroupExists (volumeName : string) : M (bool * option error) :=
  checkVolumeExistsByNameAndStyle volumeName models.VolumeStyleFlexgroup.

(* ---------------------------------------------------------------- *)
(** ** Jobs *)

Definition JobGet (jobUUID : string) : M (option JobGetOK * option error) :=
  api_JobGet {| JG_UUID := jobUUID; JG_Fields := ["**"%string] |}.

Definition IsJobFinished (payload : option models.JobLinkResponse)
  : M (bool * option error) :=
  match payload with
  | None => ret (false, Some (Errorf "payload is nil"))
  | Some p =>
      match models.Job_ p with
      | None => ret (false, Some (Errorf "payload's Job is nil"))
      | Some job =>
          match models.JobLink_UUID job with
          | None => ret (false, Some (Errorf "payload's Job uuid is nil"))
          | Some jobUUID =>
              '(jobResult, err) <- JobGet jobUUID ;;
              match err with
              | Some e => ret (false, Some e)
              | None =>
                  jobResult <- deref jobResult ;;
                  jobPayload <- deref (Payload jobResult) ;;
                  match models.Job_State jobPayload with
                  | None => ret (false, Some (Errorf "unexpected nil job state "))
                  | Some jobState =>
                      if String.eqb jobState models.JobStateSuccess then ret (true, None)
                      else if String.eqb jobState models.JobStateFailure then ret (true, None)
                      else if String.eqb jobState models.JobStatePaused then ret (false, None)
                      else if String.eqb jobState models.JobStateRunning then ret (false, None)
                      else if String.eqb jobState models.JobStateQueued then ret (false, None)
                      else ret (false, Some (Errorf ("unexpected job state " ++ ptrText)))
                  end
              end
          end
      end
  end.

(** The four assignments every polling loop makes on the fresh policy. *)
Definition configure (initialInterval : Z) (multiplier randomizationFactor : Q)
    (maxElapsedTime : Z) (b : backoff.ExponentialBackOff) : backoff.ExponentialBackOff :=
  backoff.set_MaxElapsedTime maxElapsedTime
    (backoff.set_RandomizationFactor randomizationFactor
       (backoff.set_Multiplier multiplier
          (backoff.set_InitialInterval initialInterval b))).

(** [jobStatusBackoff] of [PollJobStatus]. *)
Definition jobStatusBackoff : backoff.ExponentialBackOff -> backoff.ExponentialBackOff :=
  configure (1 * backoff.Second) 2 (1 # 10) (2 * backoff.Minute).

(** [checkJobStatus] of [PollJobStatus]. *)
Definition checkJobStatus (payload : option models.JobLinkResponse) (jobUUID : string)
  : M (option error) :=
  '(isDone, err) <- IsJobFinished payload ;;
  match err with
  | Some e => ret (Some e)
  | None =>
      if negb isDone then ret (Some (Errorf ("job " ++ jobUUID ++ " not yet done")))
      else ret None
  end.

Definition PollJobStatus (payload : option models.JobLinkResponse) : M (option error) :=
  p <- deref payload ;;
  match models.Job_ p with
  | None => ret (Some (Errorf "missing job result"))
  | Some job =>
      match models.JobLink_UUID job with
      | None => ret (Some (Errorf "missing job uuid for result"))
      | Some jobUUID =>
          b <- backoff.NewExponentialBackOff ;;
          err <- backoff.RetryNotify rt fuel (checkJobStatus payload jobUUID)
                                     (jobStatusBackoff b) ;;
          match err with
          | Some e => ret (Some e)
          | None =>
              '(jobResult, err) <- JobGet jobUUID ;;
              match err with
              | Some e => ret (Some e)
              | None =>
                  match jobResult with
                  | None =>
                      ret (Some (Errorf ("missing job result for job UUID " ++ jobUUID)))
                  | Some jobResult =>
                      (* the log fields read jobResult.Payload.Description *)
                      jobPayload <- deref (Payload jobResult) ;;
                      match models.Job_State jobPayload with
                      | None => ret (Some (Errorf "unexpected nil job state "))
                      | Some jobState =>
                          if String.eqb jobState models.JobStateSuccess then ret None
                          else if String.eqb jobState models.JobStateFailure
                          then ret (Some (NewRestErrorFromPayload (Payload jobResult)))
                          else ret (Some (Errorf ("unexpected job state " ++ ptrText)))
                      end
                  end
              end
          end
      end
  end.

(* ---------------------------------------------------------------- *)
(** ** The by-name volume operations *)

(** The common tail of the modify operations: issue the call, check the
    error and the response, poll the job. *)
Definition volumeModifyAndPoll (params : VolumeModifyParams) : M (option error) :=
  '(volumeModifyAccepted, err) <- api_VolumeModify params ;;
  match err with
  | Some e => ret (Some e)
  | None =>
      match volumeModifyAccepted with
      | None => ret (Some (Errorf "unexpected response from volume modify"))
      | Some accepted => PollJobStatus (Payload accepted)
      end
  end.

Definition modifyParams (uuid : string) (volumeInfo : models.Volume) : VolumeModifyParams :=
  {| VM_UUID := uuid; VM_Info := Some volumeInfo; VM_RestoreToSnapshotName := None |}.

(** [volume.Nas != nil && volume.Nas.Path != nil && *volume.Nas.Path == path] *)
Definition nasPathIs (volume : models.Volume) (path : string) : bool :=
  match models.Volume_Nas volume with
  | None => false
  | Some nas =>
      match models.Nas_Path nas with
      | None => false
      | Some p => String.eqb p path
      end
  end.

Definition setVolumeSizeByNameAndStyle (volumeName newSize style : string)
  : M (option error) :=
  '(volume, err) <- getVolumeByNameAndStyle volumeName style ;;
  match err with
  | Some e => ret (Some e)
  | None =>
      match volume with
      | None => ret (Some (Errorf ("could not find volume with name " ++ volumeName)))
      | Some volume =>
          match models.Volume_UUID volume with
          | None =>
              ret (Some (Errorf ("could not find volume uuid with name " ++ volumeName)))
          | Some uuid =>
              let '(sizeBytesStr, _) := ConvertSizeToBytes newSize in
              let '(sizeBytes, _) := strconv.ParseUint sizeBytesStr in
              let volumeInfo := models.set_Size (Some (wrap64 sizeBytes)) models.emptyVolume in
              volumeModifyAndPoll (modifyParams uuid volumeInfo)
          end
      end
  end.

Definition mountVolumeByNameAndStyle (volumeName junctionPath style : string)
  : M (option error) :=
  '(volume, err) <- getVolumeByNameAndStyle volumeName style ;;
  match err with
  | Some e => ret (Some e)
  | None =>
      match volume with
      | None => ret (Some (Errorf ("could not find volume with name " ++ volumeName)))
      | Some volume =>
          match models.Volume_UUID volume with
          | None =>
              ret (Some (Errorf ("could not find volume uuid with name " ++ volumeName)))
          | Some uuid =>
              if nasPathIs volume junctionPath then ret None
              else
                volumeModifyAndPoll
                  (modifyParams uuid
                     (models.set_Nas
                        (Some (models.set_Nas_Path (Some junctionPath) models.emptyNas))
                        models.emptyVolume))
          end
      end
  end.

Definition unmountVolumeByNameAndStyle (volumeName style : string) : M (option error) :=
  '(volume, err) <- getVolumeInAnyStateByNameAndStyle volumeName style ;;
  match err with
  | Some e => ret (Some e)
  | None =>
      match volume with
      | None => ret err
      | Some volume =>
          match models.Volume_UUID volume with
          | None => ret err
          | Some uuid =>
              if nasPathIs volume "" then ret None
              else
                volumeModifyAndPoll
                  (modifyParams uuid
                     (models.set_Nas
                        (Some (models.set_Nas_Path (Some "") models.emptyNas))
                        models.emptyVolume))
          end
      end
  end.

(** The second nil check repeats [volume == nil]; [*volume.UUID] follows
    unguarded. *)
Definition renameVolumeByNameAndStyle (volumeName newVolumeName style : string)
  : M (option error) :=
  '(volume, err) <- getVolumeByNameAndStyle volumeName style ;;
  match err with
  | Some e => ret (Some e)
  | None =>
      match volume with
      | None => ret (Some (Errorf ("could not find volume with name " ++ volumeName)))
      | Some volume =>
          uuid <- deref (models.Volume_UUID volume) ;;
          volumeModifyAndPoll
            (modifyParams uuid (models.set_Name (Some newVolumeName) models.emptyVolume))
      end
  end.

Definition destroyVolumeByNameAndStyle (name style : string) : M (option error) :=
  '(volume, err) <- getVolumeByNameAndStyle name style ;;
  match err with
  | Some e => ret (Some e)
  | None =>
      match volume with
      | None => ret (Some (Errorf ("could not find volume: " ++ name)))
      | Some volume =>
          match models.Volume_UUID volume with
          | None => ret (Some (Errorf ("could not find volume uuid: " ++ name)))
          | Some uuid =>
              '(volumeDeleteAccepted, err) <- api_VolumeDelete {| VD_UUID := uuid |} ;;
              match err with
              | Some e => ret (Some e)
              | None =>
                  match volumeDeleteAccepted with
                  | None => ret (Some (Errorf "unexpected response from volume create"))
                  | Some accepted => PollJobStatus (Payload accepted)
                  end
              end
          end
      end
  end.

Definition modifyVolumeExportPolicyByNameAndStyle
    (volumeName exportPolicyName style : string) : M (option error) :=
  '(volume, err) <- getVolumeByNameAndStyle volumeName style ;;
  match err with
  | Some e => ret (Some e)
  | None =>
      match volume with
      | None => ret (Some (Errorf ("could not find volume with name " ++ volumeName)))
      | Some volume =>
          match models.Volume_UUID volume with
          | None =>
              ret (Some (Errorf ("could not find volume uuid with name " ++ volumeName)))
          | Some uuid =>
              let exportPolicy := {| models.Ref_Name := Some exportPolicyName |} in
              let nasInfo := models.set_Nas_ExportPolicy (Some exportPolicy) models.emptyNas in
              volumeModifyAndPoll
                (modifyParams uuid (models.set_Nas (Some nasInfo) models.emptyVolume))
          end
      end
  end.

Definition modifyVolumeUnixPermissionsByNameAndStyle
    (volumeName unixPermissions style : string) : M (option error) :=
  '(volume, err) <- getVolumeByNameAndStyle volumeName style ;;
  match err with
  | Some e => ret (Some e)
  | None =>
      match volume with
      | None => ret (Some (Errorf ("could not find volume with name " ++ volumeName)))
      | Some volume =>
          match models.Volume_UUID volume with
          | None =>
              ret (Some (Errorf ("could not find volume uuid with name " ++ volumeName)))
          | Some uuid =>
              if negb (String.eqb unixPermissions "") then
                let unixPermissions := convertUnixPermissions unixPermissions in
                let '(volumePermissions, parseErr) := strconv.ParseInt unixPermissions in
                match parseErr with
                | Some _ =>
                    ret (Some (Errorf ("cannot process unix permissions value "
                                       ++ unixPermissions)))
                | None =>
                    let volumeNas :=
                      models.set_Nas_UnixPermissions (Some volumePermissions) models.emptyNas in
                    volumeModifyAndPoll
                      (modifyParams uuid (models.set_Nas (Some volumeNas) models.emptyVolume))
                end
              else
                volumeModifyAndPoll
                  (modifyParams uuid (models.set_Nas (Some models.emptyNas) models.emptyVolume))
          end
      end
  end.

Definition setVolumeCommentByNameAndStyle (volumeName newVolumeComment style : string)
  : M (option error) :=
  '(volume, err) <- getVolumeByNameAndStyle volumeName style ;;
  match err with
  | Some e => ret (Some e)
  | None =>
      match volume with
      | None => ret (Some (Errorf ("could not find volume with name " ++ volumeName)))
      | Some volume =>
          match models.Volume_UUID volume with
          | None =>
              ret (Some (Errorf ("could not find volume uuid with name " ++ volumeName)))
          | Some uuid =>
              volumeModifyAndPoll
                (modifyParams uuid
                   (models.set_Comment (Some newVolumeComment) models.emptyVolume))
          end
      end
  end.

(** As in [renameVolumeByNameAndStyle], the second nil check repeats
    [volume == nil] and [*volume.UUID] follows unguarded. *)
Definition setVolumeQosPolicyGroupNameByNameAndStyle
    (volumeName : string) (qosPolicyGroup : QosPolicyGroup) (style : string)
  : M (option error) :=
  '(volume, err) <- getVolumeByNameAndStyle volumeName style ;;
  match err with
  | Some e => ret (Some e)
  | None =>
      match volume with
      | None => ret (Some (Errorf ("could not find volume with name " ++ volumeName)))
      | Some volume =>
          uuid <- deref (models.Volume_UUID volume) ;;
          if negb (isInvalidKind (Qos_Kind qosPolicyGroup)) then
            if negb (String.eqb (Qos_Name qosPolicyGroup) "") then
              let qos :=
                {| models.Qos_Policy :=
                     Some {| models.Ref_Name := Some (Qos_Name qosPolicyGroup) |} |} in
              volumeModifyAndPoll
                (modifyParams uuid (models.set_Qos (Some qos) models.emptyVolume))
            else ret (Some (Errorf "missing QoS policy group name"))
          else ret (Some (Errorf "invalid QoS policy group"))
      end
  end.

Definition startCloneSplitByNameAndStyle (volumeName style : string) : M (option error) :=
  '(volume, err) <- getVolumeByNameAndStyle volumeName style ;;
  match err with
  | Some e => ret (Some e)
  | None =>
      match volume with
      | None => ret (Some (Errorf ("could not find volume with name " ++ volumeName)))
      | Some volume =>
          match models.Volume_UUID volume with
          | None =>
              ret (Some (Errorf ("could not find volume uuid with name " ++ volumeName)))
          | Some uuid =>
              let clone :=
                {| models.Clone_SplitInitiated := Some true;
                   models.Clone_IsFlexclone := None;
                   models.Clone_ParentVolume := None;
                   models.Clone_ParentSnapshot := None |} in
              volumeModifyAndPoll
                (modifyParams uuid (models.set_Clone (Some clone) models.emptyVolume))
          end
      end
  end.

Definition restoreSnapshotByNameAndStyle (snapshotName volumeName style : string)
  : M (option error) :=
  '(volume, err) <- getVolumeByNameAndStyle volumeName style ;;
  match err with
  | Some e => ret (Some e)
  | None =>
      match volume with
      | None => ret (Some (Errorf ("could not find volume with name " ++ volumeName)))
      | Some volume =>
          match models.Volume_UUID volume with
          | None =>
              ret (Some (Errorf ("could not find volume uuid with name " ++ volumeName)))
          | Some uuid =>
              volumeModifyAndPoll
                {| VM_UUID := uuid; VM_Info := None;
                   VM_RestoreToSnapshotName := Some snapshotName |}
          end
      end
  end.

(* ---------------------------------------------------------------- *)
(** ** Volume creation and the existence waits *)

Definition ToSliceVolumeAggregatesItems (aggrs : list string)
  : option (list (option models.NameRef)) :=
  fold_left
    (fun result aggregateName =>
       append result (Some [Some {| models.Ref_Name := Some aggregateName |}]))
    aggrs None.

(** [statusBackoff] of [waitForVolume]. *)
Definition volumeStatusBackoff : backoff.ExponentialBackOff -> backoff.ExponentialBackOff :=
  configure (1 * backoff.Second) 2 (1 # 10) (1 * backoff.Minute).

(** [statusBackoff] of [waitForFlexgroup]. *)
Definition flexgroupStatusBackoff : backoff.ExponentialBackOff -> backoff.ExponentialBackOff :=
  configure (1 * backoff.Second) 2 (1 # 10) (1 * backoff.Minute).


(** [statusBackoff] of [waitForQtree]. *)
Definition qtreeStatusBackoff : backoff.ExponentialBackOff -> backoff.ExponentialBackOff :=
  configure (1 * backoff.Second) 2 (1 # 10) (1 * backoff.Minute).

(** [checkStatus] of [waitForVolume]. *)
Definition checkVolumeStatus (volumeName : string) : M (option error) :=
  '(exists_, err) <- VolumeExists volumeName ;;
  if negb exists_
  then ret (Some (Errorf ("volume '" ++ volumeName
                          ++ "' does not exit, will continue checking")))
  else ret err.

Definition waitForVolume (volumeName : string) : M (option error) :=
  b <- backoff.NewExponentialBackOff ;;
  err <- backoff.RetryNotify rt fuel (checkVolumeStatus volumeName)
                             (volumeStatusBackoff b) ;;
  match err with
  | Some e => ret (Some e)
  | None => ret None
  end.

(** [checkStatus] of [waitForFlexgroup]. *)
Definition checkFlexgroupStatus (volumeName : string) : M (option error) :=
  '(exists_, err) <- FlexGroupExists volumeName ;;
  if negb exists_
  then ret (Some (Errorf ("FlexGroup '" ++ volumeName
                          ++ "' does not exit, will continue checking")))
  else ret err.

Definition waitForFlexgroup (volumeName : string) : M (option error) :=
  b <- backoff.NewExponentialBackOff ;;
  err <- backoff.RetryNotify rt fuel (checkFlexgroupStatus volumeName)
                             (flexgroupStatusBackoff b) ;;
  match err with
  | Some e => ret (Some e)
  | None => ret None
  end.

(** The request body [createVolumeByStyle] builds, or the error of the
    permission parse.  [volumeNas] is one object that [volumeInfo.Nas] points
    to once any NAS option is set, so later assignments to it show in the
    request. *)
Definition createVolumeInfo (name : string) (sizeInBytes : Z) (aggrs : list string)
    (spaceReserve snapshotPolicy unixPermissions exportPolicy securityStyle
     tieringPolicy comment : string) (qosPolicyGroup : QosPolicyGroup)
    (encrypt : option bool) (snapshotReserve : Z) (style : string) (dpVolume : bool)
  : models.Volume + error :=
  let volumeInfo :=
    models.set_Style (Some style)
      (models.set_State (Some models.VolumeStateOnline)
         (models.set_Comment (Some comment)
            (models.set_SnapshotPolicy (Some {| models.Ref_Name := Some snapshotPolicy |})
               (models.set_Guarantee
                  (Some {| models.Guarantee_Type := Some spaceReserve |})
                  (models.set_Size (Some sizeInBytes)
                     (models.set_Name (Some name) models.emptyVolume)))))) in
  let volumeInfoAggregates := ToSliceVolumeAggregatesItems aggrs in
  let volumeInfo :=
    if (0 <? List.length (elems volumeInfoAggregates))%nat
    then models.set_Aggregates volumeInfoAggregates volumeInfo
    else volumeInfo in
  let volumeInfo :=
    if negb (snapshotReserve =? NumericalValueNotSet)
    then models.set_Space
           (Some {| models.Space_Snapshot :=
                      Some {| models.Snapshot_ReservePercent := Some snapshotReserve |} |})
           volumeInfo
    else volumeInfo in
  let volumeInfo :=
    models.set_Svm (Some {| models.Svm_UUID := Some (svmUUID c) |}) volumeInfo in
  let volumeInfo :=
    match encrypt with
    | Some _ =>
        models.set_Encryption (Some {| models.Encryption_Enabled := encrypt |}) volumeInfo
    | None => volumeInfo
    end in
  let volumeInfo :=
    if negb (isInvalidKind (Qos_Kind qosPolicyGroup))
       && negb (String.eqb (Qos_Name qosPolicyGroup) "")
    then models.set_Qos
           (Some {| models.Qos_Policy :=
                      Some {| models.Ref_Name := Some (Qos_Name qosPolicyGroup) |} |})
           volumeInfo
    else volumeInfo in
  let volumeInfo :=
    if negb (String.eqb tieringPolicy "")
    then models.set_Tiering (Some {| models.Tiering_Policy := Some tieringPolicy |})
                            volumeInfo
    else volumeInfo in
  let volumeNas := models.emptyNas in
  let '(volumeNas, nasSet) :=
    if negb (String.eqb securityStyle "")
    then (models.set_Nas_SecurityStyle (Some securityStyle) volumeNas, true)
    else (volumeNas, false) in
  let typed :=
    if dpVolume then inl (models.set_Type (Some "DP"%string) volumeInfo, volumeNas, nasSet)
    else if negb (String.eqb unixPermissions "") then
      let unixPermissions := convertUnixPermissions unixPermissions in
      let '(volumePermissions, parseErr) := strconv.ParseInt unixPermissions in
      match parseErr with
      | Some _ =>
          inr (Errorf ("cannot process unix permissions value " ++ unixPermissions))
      | None =>
          inl (volumeInfo,
               models.set_Nas_UnixPermissions (Some volumePermissions) volumeNas, true)
      end
    else inl (volumeInfo, volumeNas, nasSet) in
  match typed with
  | inr e => inr e
  | inl (volumeInfo, volumeNas, nasSet) =>
      let '(volumeNas, nasSet) :=
        if negb (String.eqb exportPolicy "")
        then (models.set_Nas_ExportPolicy
                (Some {| models.Ref_Name := Some exportPolicy |}) volumeNas, true)
        else (volumeNas, nasSet) in
      inl (if nasSet then models.set_Nas (Some volumeNas) volumeInfo else volumeInfo)
  end.

Definition createVolumeByStyle (name : string) (sizeInBytes : Z) (aggrs : list string)
    (spaceReserve snapshotPolicy unixPermissions exportPolicy securityStyle
     tieringPolicy comment : string) (qosPolicyGroup : QosPolicyGroup)
    (encrypt : option bool) (snapshotReserve : Z) (style : string) (dpVolume : bool)
  : M (option error) :=
  match createVolumeInfo name sizeInBytes aggrs spaceReserve snapshotPolicy
                         unixPermissions exportPolicy securityStyle tieringPolicy
                         comment qosPolicyGroup encrypt snapshotReserve style dpVolume with
  | inr e => ret (Some e)
  | inl volumeInfo =>
      '(volumeCreateAccepted, err) <- api_VolumeCreate {| VC_Info := Some volumeInfo |} ;;
      match err with
      | Some e => ret (Some e)
      | None =>
          match volumeCreateAccepted with
          | None => ret (Some (Errorf "unexpected response from volume create"))
          | Some accepted =>
              pollErr <- PollJobStatus (Payload accepted) ;;
              match pollErr with
              | Some e => ret (Some e)
              | None =>
                  if String.eqb style models.VolumeStyleFlexgroup
                  then waitForFlexgroup name
                  else waitForVolume name
              end
          end
      end
  end.

(* ---------------------------------------------------------------- *)
(** ** Aggregates *)

(** The [NextLoop] of [AggregateList]; [done = true; continue NextLoop]
    leaves the loop. *)
Fixpoint AggregateList_loop (n : nat)
    (payload : models.AggregateResponse) (params : AggregateCollectionGetParams)
    (nextLink : option models.Href)
  : M (option AggregateCollectionGetOK * option error) :=
  match n with
  | O => outOfFuel
  | S n' =>
      '(resultNext, errNext) <- api_AggregateCollectionGet params nextLink ;;
      match errNext with
      | Some e => ret (None, Some e)
      | None =>
          match resultNext with
          | Some {| Payload := Some nextPayload |} =>
              match models.NumRecords nextPayload with
              | Some nextNum =>
                  let payload :=
                    mergePage payload nextNum (models.InlineRecords nextPayload) in
                  if negb (HasNextLink (AggregateResponse_iface (Some nextPayload)))
                  then ret (Some {| Payload := Some payload |}, None)
                  else
                    links <- deref (models.Links_ nextPayload) ;;
                    AggregateList_loop n' payload params (models.Links_Next links)
              | None => ret (Some {| Payload := Some payload |}, None)
              end
          | _ => ret (Some {| Payload := Some payload |}, None)
          end
      end
  end.

Definition AggregateList (pattern : string)
  : M (option AggregateCollectionGetOK * option error) :=
  let params := {| ACG_Name := Some pattern; ACG_Fields := ["**"%string] |} in
  '(result, err) <- api_AggregateCollectionGet params None ;;
  match err with
  | Some e => ret (None, Some e)
  | None =>
      match result with
      | None => ret (None, None)
      | Some result =>
          if HasNextLink (AggregateResponse_iface (Payload result)) then
            p <- deref (Payload result) ;;
            links <- deref (models.Links_ p) ;;
            AggregateList_loop fuel p params (models.Links_Next links)
          else ret (Some result, None)
      end
  end.

(* ---------------------------------------------------------------- *)
(** ** The LUN and qtree waits *)

Section Lookups.

(** [LunGetByName] and [QtreeGetByName] query the LUN and qtree
    collections.  The polling loops use them only through the pair they
    return, so the loops are stated over any such lookup. *)
Variables Lun Qtree : Type.
Variable LunGetByName : string -> M (option Lun * option error).
Variable QtreeGetByName : string -> string -> M (option Qtree * option error).



(** [checkStatus] of [waitForQtree]. *)
Definition checkQtreeStatus (volumeName qtreeName : string) : M (option error) :=
  '(qtree, err) <- QtreeGetByName qtreeName volumeName ;;
  match qtree with
  | None =>
      ret (Some (Errorf ("Qtree '" ++ qtreeName ++ "' does not exit within volume '"
                         ++ volumeName ++ "', will continue checking")))
  | Some _ => ret err
  end.

Definition waitForQtree (volumeName qtreeName : string) : M (option error) :=
  b <- backoff.NewExponentialBackOff ;;
  err <- backoff.RetryNotify rt fuel (checkQtreeStatus volumeName qtreeName)
                             (qtreeStatusBackoff b) ;;
  match err with
  | Some e => ret (Some e)
  | None => ret None
  end.

End Lookups.

(* ---------------------------------------------------------------- *)
(** ** The by-name mutating operations, as one type *)

(** The eleven mutating [...ByNameAndStyle] operations with their
    arguments, to state properties of all of them at once. *)
Inductive VolumeOp :=
| SetVolumeSize (volumeName newSize style : string)
| MountVolume (volumeName junctionPath style : string)
| UnmountVolume (volumeName style : string)
| RenameVolume (volumeName newVolumeName style : string)
| DestroyVolume (name style : string)
| ModifyVolumeExportPolicy (volumeName exportPolicyName style : string)
| ModifyVolumeUnixPermissions (volumeName unixPermissions style : string)
| SetVolumeComment (volumeName newVolumeComment style : string)
| SetVolumeQosPolicyGroupName (volumeName : string) (qosPolicyGroup : QosPolicyGroup)
                              (style : string)
| StartCloneSplit (volumeName style : string)
| RestoreSnapshot (snapshotName volumeName style : string).

Definition runOp (o : VolumeOp) : M (option error) :=
  match o with
  | SetVolumeSize n sz st => setVolumeSizeByNameAndStyle n sz st
  | MountVolume n j st => mountVolumeByNameAndStyle n j st
  | UnmountVolume n st => unmountVolumeByNameAndStyle n st
  | RenameVolume n n' st => renameVolumeByNameAndStyle n n' st
  | DestroyVolume n st => destroyVolumeByNameAndStyle n st
  | ModifyVolumeExportPolicy n e st => modifyVolumeExportPolicyByNameAndStyle n e st
  | ModifyVolumeUnixPermissions n u st => modifyVolumeUnixPermissionsByNameAndStyle n u st
  | SetVolumeComment n cm st => setVolumeCommentByNameAndStyle n cm st
  | SetVolumeQosPolicyGroupName n q st => setVolumeQosPolicyGroupNameByNameAndStyle n q st
  | StartCloneSplit n st => startCloneSplitByNameAndStyle n st
  | RestoreSnapshot sn n st => restoreSnapshotByNameAndStyle sn n st
  end.

(** The by-name lookup an operation starts with. *)
Definition lookupOf (o : VolumeOp) : M (option models.Volume * option error) :=
  match o with
  | UnmountVolume n st => getVolumeInAnyStateByNameAndStyle n st
  | SetVolumeSize n _ st | MountVolume n _ st | RenameVolume n _ st
  | ModifyVolumeExportPolicy n _ st | ModifyVolumeUnixPermissions n _ st
  | SetVolumeComment n _ st | SetVolumeQosPolicyGroupName n _ st
  | RestoreSnapshot _ n st => getVolumeByNameAndStyle n st
  | DestroyVolume n st | StartCloneSplit n st => getVolumeByNameAndStyle n st
  end.

Definition isUnmount (o : VolumeOp) : bool :=
  match o with
  | UnmountVolume _ _ => true
  | _ => false
  end.

End RestClient.

(* ------------------------------------------------------------------ *)
(** * RestClient: the size lookup, VolumeDestroy and FlexGroupDestroy *)

Section RestClientVolumes.

Variable rt : Runtime.
Variable fuel : nat.
Variable c : RestClient.

(** [uint64(x)] of an [int64]. *)
Definition uint64 (x : Z) : Z := x mod 2 ^ 64.

Definition getVolumeSizeByNameAndStyle (volumeName style : string)
  : M (Z * option error) :=
  '(volume, err) <- getVolumeByNameAndStyle fuel c volumeName style ;;
  match err with
  | Some e => ret (0, Some e)
  | None =>
      match volume with
      | None => ret (0, Some (Errorf ("could not find volume with name " ++ volumeName)))
      | Some volume =>
          match models.Volume_Size volume with
          | None =>
              ret (0, Some (Errorf ("could not find size for volume with name "
                                    ++ volumeName)))
          | Some size => ret (uint64 size, None)
          end
      end
  end.

Definition VolumeDestroy (name : string) : M (option error) :=
  destroyVolumeByNameAndStyle rt fuel c name models.VolumeStyleFlexvol.

Definition VolumeGetByName (volumeName : string)
  : M (option models.Volume * option error) :=
  getVolumeByNameAndStyle fuel c volumeName models.VolumeStyleFlexvol.

Definition VolumeModifySnapshotDirectoryAccess (volumeName : string) (enable : bool)
  : M (option error) :=
  '(volume, err) <- getVolumeByNameAndStyle fuel c volumeName models.VolumeStyleFlexvol ;;
  match err with
  | Some e => ret (Some e)
  | None =>
      match volume with
      | None => ret (Some (Errorf ("could not find volume with name " ++ volumeName)))
      | Some volume =>
          match models.Volume_UUID volume with
          | None =>
              ret (Some (Errorf ("could not find volume uuid with name " ++ volumeName)))
          | Some uuid =>
              volumeModifyAndPoll rt fuel c
                (modifyParams uuid
                   (models.set_SnapshotDirectoryAccessEnabled (Some enable)
                                                              models.emptyVolume))
          end
      end
  end.

Definition FlexGroupVolumeModifySnapshotDirectoryAccess
    (flexGroupVolumeName : string) (enable : bool) : M (option error) :=
  '(volume, err) <-
     getVolumeByNameAndStyle fuel c flexGroupVolumeName models.VolumeStyleFlexgroup ;;
  match err with
  | Some e => ret (Some e)
  | None =>
      match volume with
      | None =>
          ret (Some (Errorf ("could not find flexgroup volume with name "
                             ++ flexGroupVolumeName)))
      | Some volume =>
          match models.Volume_UUID volume with
          | None =>
              ret (Some (Errorf ("could not find flexgroup volume uuid with name "
                                 ++ flexGroupVolumeName)))
          | Some uuid =>
              volumeModifyAndPoll rt fuel c
                (modifyParams uuid
                   (models.set_SnapshotDirectoryAccessEnabled (Some enable)
                                                              models.emptyVolume))
          end
      end
  end.

(** [volume.Quota != nil && volume.Quota.Enabled != nil &&
    *volume.Quota.Enabled == quotaEnabled] *)
Definition quotaIs (volume : models.Volume) (quotaEnabled : bool) : bool :=
  match models.Volume_Quota volume with
  | None => false
  | Some quota =>
      match models.Quota_Enabled quota with
      | None => false
      | Some enabled => Bool.eqb enabled quotaEnabled
      end
  end.

Definition quotaModify (volumeName : string) (quotaEnabled : bool) : M (option error) :=
  '(volume, err) <- VolumeGetByName volumeName ;;
  match err with
  | Some e => ret (Some e)
  | None =>
      match volume with
      | None => ret (Some (Errorf ("could not find volume with name " ++ volumeName)))
      | Some volume =>
          match models.Volume_UUID volume with
          | None =>
              ret (Some (Errorf ("could not find volume uuid with name " ++ volumeName)))
          | Some uuid =>
              if quotaIs volume quotaEnabled then ret None
              else
                volumeModifyAndPoll rt fuel c
                  (modifyParams uuid
                     (models.set_Quota
                        (Some {| models.Quota_Enabled := Some quotaEnabled |})
                        models.emptyVolume))
          end
      end
  end.

Definition FlexGroupGetByName (volumeName : string)
  : M (option models.Volume * option error) :=
  getVolumeByNameAndStyle fuel c volumeName models.VolumeStyleFlexgroup.

(** [FlexGroupDestroy] does not go through [destroyVolumeByNameAndStyle]:
    a FlexGroup that the lookup does not find, or finds without a UUID, is
    taken as deleted already. *)
Definition FlexGroupDestroy (name : string) : M (option error) :=
  '(volume, err) <- FlexGroupGetByName name ;;
  match err with
  | Some e => ret (Some e)
  | None =>
      match volume with
      | None => ret None
      | Some volume =>
          match models.Volume_UUID volume with
          | None => ret None
          | Some uuid =>
              '(volumeDeleteAccepted, err) <- api_VolumeDelete c {| VD_UUID := uuid |} ;;
              match err with
              | Some e => ret (Some e)
              | None =>
                  match volumeDeleteAccepted with
                  | None => ret (Some (Errorf "unexpected response from volume delete"))
                  | Some accepted => PollJobStatus rt fuel c (Payload accepted)
                  end
              end
          end
      end
  end.

(** Every by-name operation that changes a volume: the eleven
    [...ByNameAndStyle] operations, the two snapshot-directory modifiers,
    [quotaModify] and [FlexGroupDestroy]. *)
Inductive MutatingOp :=
| ByNameAndStyle (o : VolumeOp)
| ModifySnapshotDirectoryAccess (volumeName : string) (enable : bool)
| FlexGroupModifySnapshotDirectoryAccess (flexGroupVolumeName : string) (enable : bool)
| QuotaModify (volumeName : string) (quotaEnabled : bool)
| DestroyFlexGroup (name : string).

End RestClientVolumes.

Section MutatingOperations.

(** Modelled from the spec: [utils.ConvertSizeToBytes] is declared in a
    package that is not among the sources; it is a parameter. *)
Variable ConvertSizeToBytes : string -> string * option error.

Variable rt : Runtime.
Variable fuel : nat.
Variable c : RestClient.

Definition runMutating (o : MutatingOp) : M (option error) :=
  match o with
  | ByNameAndStyle o => runOp ConvertSizeToBytes rt fuel c o
  | ModifySnapshotDirectoryAccess n enable =>
      VolumeModifySnapshotDirectoryAccess rt fuel c n enable
  | FlexGroupModifySnapshotDirectoryAccess n enable =>
      FlexGroupVolumeModifySnapshotDirectoryAccess rt fuel c n enable
  | QuotaModify n quotaEnabled => quotaModify rt fuel c n quotaEnabled
  | DestroyFlexGroup n => FlexGroupDestroy rt fuel c n
  end.

(** The by-name lookup an operation starts with. *)
Definition lookupOfMutating (o : MutatingOp)
  : M (option models.Volume * option error) :=
  match o with
  | ByNameAndStyle o => lookupOf fuel c o
  | ModifySnapshotDirectoryAccess n _ =>
      getVolumeByNameAndStyle fuel c n models.VolumeStyleFlexvol
  | FlexGroupModifySnapshotDirectoryAccess n _ =>
      getVolumeByNameAndStyle fuel c n models.VolumeStyleFlexgroup
  | QuotaModify n _ => VolumeGetByName fuel c n
  | DestroyFlexGroup n => FlexGroupGetByName fuel c n
  end.

End MutatingOperations.

(** The exported method [VolumeCreate] has the name of the generated
    client's call, so it is kept in a module of its own. *)
Module flexvol.

Section VolumeCreate.

(** Modelled from the spec: [utils.ConvertSizeToBytes] is declared in a
    package that is not among the sources; it is a parameter. *)
Variable ConvertSizeToBytes : string -> string * option error.

Variable rt : Runtime.
Variable fuel : nat.
Variable c : RestClient.

(** Both conversion errors are dropped ([sizeBytesStr, _ :=],
    [sizeInBytes, _ :=]). *)
Definition VolumeCreate (name aggregateName size spaceReserve snapshotPolicy
    unixPermissions exportPolicy securityStyle tieringPolicy comment : string)
    (qosPolicyGroup : QosPolicyGroup) (encrypt : option bool) (snapshotReserve : Z)
    (dpVolume : bool) : M (option error) :=
  let '(sizeBytesStr, _) := ConvertSizeToBytes size in
  let '(sizeInBytes, _) := strconv.ParseInt sizeBytesStr in
  createVolumeByStyle rt fuel c name sizeInBytes [aggregateName] spaceReserve
                      snapshotPolicy unixPermissions exportPolicy securityStyle
                      tieringPolicy comment qosPolicyGroup encrypt snapshotReserve
                      models.VolumeStyleFlexvol dpVolume.

End VolumeCreate.

End flexvol.

(** The [for] loop of [listAllVolumeNamesBackedBySnapshot] over the records
    of the merged payload, [volumeNames] being the names collected so far.
    The condition is evaluated left to right; its last conjunct dereferences
    [vol.Clone.ParentVolume.Name] without a nil check. *)
Fixpoint listAllVolumeNamesBackedBySnapshot_loop
    (records : list (option models.Volume)) (volumeName snapshotName : string)
    (volumeNames : list string) : Outcome (list string) :=
  match records with
  | [] => Ret volumeNames
  | vol :: rest =>
      let continue :=
        listAllVolumeNamesBackedBySnapshot_loop rest volumeName snapshotName in
      match vol with
      | None => continue volumeNames
      | Some vol =>
          match models.Volume_Name vol with
          | None => continue volumeNames
          | Some name =>
              match models.Volume_Clone vol with
              | None => continue volumeNames
              | Some clone =>
                  match models.Clone_ParentSnapshot clone with
                  | Some {| models.Ref_Name := Some parentSnapshot |} =>
                      if String.eqb parentSnapshot snapshotName then
                        match models.Clone_ParentVolume clone with
                        | None => continue volumeNames
                        | Some parentVolume =>
                            match models.Ref_Name parentVolume with
                            | None => Panic nilDeref
                            | Some parentName =>
                                if String.eqb parentName volumeName
                                then continue (volumeNames ++ [name])
                                else continue volumeNames
                            end
                        end
                      else continue volumeNames
                  | _ => continue volumeNames
                  end
              end
          end
      end
  end.

(* ------------------------------------------------------------------ *)
(** * Qtree lookup *)

Record QtreeCollectionGetParams := {
  QCG_SvmUUID : option string;
  QCG_Name : option string;
  QCG_VolumeName : option string;
  QCG_Path : option string;
  QCG_Fields : list string
}.

Section Qtrees.

Variable c : RestClient.

(** The record type [models.Qtree] and the generated client's
    [QtreeCollectionGet] call are left open: the lookups below use the call
    through the response and error it returns. *)
Variable Qtree : Type.
Variable api_QtreeCollectionGet :
  QtreeCollectionGetParams ->
  M (option (Response (models.CollectionResponse Qtree)) * option error).

Definition QtreeResponse_iface
  : option (models.CollectionResponse Qtree) -> reflect.iface :=
  Response_iface "models.QtreeResponse" "models.QtreeResponseInlineLinks"
                 "QtreeResponseInlineRecords" "[]*models.Qtree".

(** The common tail of [QtreeGetByPath] and [QtreeGetByName], from the
    error check on; [notFound] and [moreThanOne] are the two messages. *)
Definition uniqueQtree (notFound moreThanOne : string)
    (answer : option (Response (models.CollectionResponse Qtree)) * option error)
  : M (option Qtree * option error) :=
  let '(result, err) := answer in
  match err with
  | Some e => ret (None, Some e)
  | None =>
      match result with
      | None => ret (None, None)
      | Some result =>
          match Payload result with
          | None => ret (None, Some (Errorf notFound))
          | Some payload =>
              let n := List.length (elems (models.InlineRecords payload)) in
              if (1 <? n)%nat then ret (None, Some (Errorf moreThanOne))
              else if (n =? 1)%nat then
                qtree <- index0 (models.InlineRecords payload) ;;
                ret (qtree, None)
              else if HasNextLink (QtreeResponse_iface (Payload result))
              then ret (None, Some (Errorf moreThanOne))
              else ret (None, Some (Errorf notFound))
          end
      end
  end.

Definition QtreeGetByPath (path : string) : M (option Qtree * option error) :=
  let params :=
    {| QCG_SvmUUID := Some (svmUUID c); QCG_Name := None; QCG_VolumeName := None;
       QCG_Path := Some path; QCG_Fields := ["**"%string] |} in
  answer <- api_QtreeCollectionGet params ;;
  uniqueQtree ("qtree path " ++ path ++ " not found")
              ("more than one qtree at path " ++ path ++ " found") answer.

Definition QtreeGetByName (name volumeName : string) : M (option Qtree * option error) :=
  let params :=
    {| QCG_SvmUUID := Some (svmUUID c); QCG_Name := Some name;
       QCG_VolumeName := Some volumeName; QCG_Path := None;
       QCG_Fields := ["**"%string] |} in
  answer <- api_QtreeCollectionGet params ;;
  uniqueQtree ("qtree " ++ name ++ " not found")
              ("more than one qtree " ++ name ++ " found") answer.

End Qtrees.

(* ------------------------------------------------------------------ *)
(** * NVMe subsystems *)

Record NvmeSubsystemCollectionGetParams := {
  NSCG_SvmUUID : option string;
  NSCG_Name : option string;
  NSCG_Fields : list string
}.

Section NVMeSubsystems.

Variable fuel : nat.
Variable c : RestClient.

(** The record type [models.NvmeSubsystem] and the generated client's
    [NvmeSubsystemCollectionGet] call are left open: the list function uses
    the call through the response and error it returns. *)
Variable NvmeSubsystem : Type.
Variable api_NvmeSubsystemCollectionGet :
  NvmeSubsystemCollectionGetParams -> option models.Href ->
  M (option (Response (models.CollectionResponse NvmeSubsystem)) * option error).

Definition NvmeSubsystemResponse_iface
  : option (models.CollectionResponse NvmeSubsystem) -> reflect.iface :=
  Response_iface "models.NvmeSubsystemResponse" "models.NvmeSubsystemResponseInlineLinks"
                 "NvmeSubsystemResponseInlineRecords" "[]*models.NvmeSubsystem".

(** The [NextLoop] of [NVMeSubsystemList].  Only a nil response ends it
    without a merge: [*result.Payload.NumRecords +=
    *resultNext.Payload.NumRecords] dereferences the accumulated count, the
    next payload and the next count unguarded. *)
Fixpoint NVMeSubsystemList_loop (n : nat)
    (payload : models.CollectionResponse NvmeSubsystem)
    (params : NvmeSubsystemCollectionGetParams) (nextLink : option models.Href)
  : M (option (Response (models.CollectionResponse NvmeSubsystem)) * option error) :=
  match n with
  | O => outOfFuel
  | S n' =>
      '(resultNext, errNext) <- api_NvmeSubsystemCollectionGet params nextLink ;;
      match errNext with
      | Some e => ret (None, Some e)
      | None =>
          match resultNext with
          | None => ret (Some {| Payload := Some payload |}, None)
          | Some resultNext =>
              num <- deref (models.NumRecords payload) ;;
              nextPayload <- deref (Payload resultNext) ;;
              nextNum <- deref (models.NumRecords nextPayload) ;;
              let payload :=
                {| models.Links_ := models.Links_ payload;
                   models.NumRecords := Some (wrap64 (num + nextNum));
                   models.InlineRecords :=
                     append (models.InlineRecords payload)
                            (models.InlineRecords nextPayload) |} in
              if negb (HasNextLink (NvmeSubsystemResponse_iface (Payload resultNext)))
              then ret (Some {| Payload := Some payload |}, None)
              else
                links <- deref (models.Links_ nextPayload) ;;
                NVMeSubsystemList_loop n' payload params (models.Links_Next links)
          end
      end
  end.

Definition NVMeSubsystemList (pattern : string)
  : M (option (Response (models.CollectionResponse NvmeSubsystem)) * option error) :=
  let pattern := if String.eqb pattern "" then "*"%string else pattern in
  let params :=
    {| NSCG_SvmUUID := Some (svmUUID c); NSCG_Name := Some pattern;
       NSCG_Fields := ["**"%string] |} in
  '(result, err) <- api_NvmeSubsystemCollectionGet params None ;;
  match err with
  | Some e => ret (None, Some e)
  | None =>
      match result with
      | None => ret (None, None)
      | Some result =>
          if HasNextLink (NvmeSubsystemResponse_iface (Payload result)) then
            p <- deref (Payload result) ;;
            links <- deref (models.Links_ p) ;;
            NVMeSubsystemList_loop fuel p params (models.Links_Next links)
          else ret (Some result, None)
      end
  end.

End NVMeSubsystems.

(* ------------------------------------------------------------------ *)
(** * The list functions that page like AggregateList *)

Section CollectionLists.

Variable fuel : nat.

(** [SnapshotList], [IgroupList], [LunList], [NetworkIPInterfacesList],
    [SvmList], [NodeList], [ExportPolicyList], [ExportRuleList],
    [QtreeList], [QtreeGetAll], [QuotaEntryList] and [NVMeNamespaceList]
    differ in the parameters they build and in the generated call they pass
    them to.  From the first call to the return each of them has the
    statements of [AggregateList], over its own call and response type.
    [R] is the record type of the response; [ty], [linksTy], [recordsField]
    and [recordsTy] are the names reflection sees in it; [CollectionGet] is
    the generated call with the parameters of the function: a function
    passes the same [params] to every call, with the next link as the only
    option. *)
Variable R : Type.
Variables ty linksTy recordsField recordsTy : string.
Variable CollectionGet :
  option models.Href -> M (option (Response (models.CollectionResponse R)) * option error).

(** The loop labelled [NextLoop] in each of these functions. *)
Fixpoint NextLoop (n : nat) (payload : models.CollectionResponse R)
    (nextLink : option models.Href)
  : M (option (Response (models.CollectionResponse R)) * option error) :=
  match n with
  | O => outOfFuel
  | S n' =>
      '(resultNext, errNext) <- CollectionGet nextLink ;;
      match errNext with
      | Some e => ret (None, Some e)
      | None =>
          match resultNext with
          | Some {| Payload := Some nextPayload |} =>
              match models.NumRecords nextPayload with
              | Some nextNum =>
                  let payload :=
                    mergePage payload nextNum (models.InlineRecords nextPayload) in
                  if negb (HasNextLink (Response_iface ty linksTy recordsField recordsTy
                                                       (Some nextPayload)))
                  then ret (Some {| Payload := Some payload |}, None)
                  else
                    links <- deref (models.Links_ nextPayload) ;;
                    NextLoop n' payload (models.Links_Next links)
              | None => ret (Some {| Payload := Some payload |}, None)
              end
          | _ => ret (Some {| Payload := Some payload |}, None)
          end
      end
  end.

(** The statements of such a list function, from the first call on. *)
Definition collectionList
  : M (option (Response (models.CollectionResponse R)) * option error) :=
  '(result, err) <- CollectionGet None ;;
  match err with
  | Some e => ret (None, Some e)
  | None =>
      match result with
      | None => ret (None, None)
      | Some result =>
          if HasNextLink (Response_iface ty linksTy recordsField recordsTy
                                         (Payload result)) then
            p <- deref (Payload result) ;;
            links <- deref (models.Links_ p) ;;
            NextLoop fuel p (models.Links_Next links)
          else ret (Some result, None)
      end
  end.

End CollectionLists.

(* ------------------------------------------------------------------ *)
(** * The reflection helpers ValidatePayloadExists and ExtractErrorResponse *)

(** [Type.Name], read off the printed type: a type literal (pointer, slice,
    array, map, function, channel, anonymous struct or interface) has no
    name; a defined type is printed with its package, which the name leaves
    out. *)
Definition isTypeLiteral (ty : string) : bool :=
  existsb (fun p => String.prefix p ty)
          ["*"; "["; "map["; "func("; "chan "; "<-chan "; "struct {"; "interface {"]%string.

Fixpoint unqualified (ty : string) : string :=
  match ty with
  | EmptyString => EmptyString
  | String ch rest =>
      match String.index 0 "." rest with
      | Some _ => unqualified rest
      | None => if Ascii.eqb ch "." then rest else ty
      end
  end.

Definition Type_Name (ty : string) : string :=
  if isTypeLiteral ty then ""%string else unqualified ty.

(** [getType]; [reflect.TypeOf(nil)] is the nil [Type], on which [Kind]
    panics.  The element type of a pointer is its printed type without the
    star. *)
Definition getType (i : reflect.iface) : Outcome string :=
  match i with
  | None => Panic nilDeref
  | Some v =>
      if reflect.Kind_eqb (reflect.kindOf v) reflect.KPtr
      then Ret ("*" ++ Type_Name (TrimPrefix (reflect.typeString v) "*"))%string
      else Ret (Type_Name (reflect.typeString v))
  end.

(** The body of [ValidatePayloadExists], before the deferred [recover]. *)
Definition ValidatePayloadExists_body (restResult : reflect.iface)
  : Outcome (option error) :=
  match restResult with
  | None => Ret (Some (Errorf "result was nil"))
  | Some _ =>
      let val := reflect.ValueOf restResult in
      k <-- reflect.TypeOf_Kind restResult ;;
      let val := if reflect.Kind_eqb k reflect.KPtr then reflect.Indirect val else val in
      if reflect.Kind_eqb k reflect.KPtr && negb (reflect.IsValid val)
      then Ret (Some (Errorf "result was nil"))
      else
        testPayload <-- reflect.FieldByName val "Payload" ;;
        if reflect.IsValid testPayload then
          restResult <-- reflect.Interface testPayload ;;
          let val := reflect.ValueOf restResult in
          k <-- reflect.TypeOf_Kind restResult ;;
          let val :=
            if reflect.Kind_eqb k reflect.KPtr then reflect.Indirect val else val in
          if reflect.Kind_eqb k reflect.KPtr && negb (reflect.IsValid val)
          then Ret (Some (Errorf "result payload was nil"))
          else Ret None
        else
          ty <-- getType restResult ;;
          Ret (Some (Errorf ("no payload field exists for type '" ++ ty ++ "'")))
  end.

(** [defer func() { if r := recover(); r != nil { errorOut = fmt.Errorf(...) } }()] *)
Definition ValidatePayloadExists (restResult : reflect.iface) : option error :=
  match ValidatePayloadExists_body restResult with
  | Ret e => e
  | Panic _ => Some (Errorf "recovered from panic")
  | OutOfFuel => Some (Errorf "recovered from panic")
  end.

(** The printed type of [*models.ErrorResponse]. *)
Definition ErrorResponsePtr : string := "*models.ErrorResponse".

(** The type assertion of [i] to the pointer type [ErrorResponsePtr]: the
    pointer (its pointee, or nil) when that is the dynamic type. *)
Definition assertErrorResponse (i : reflect.iface) : option (option reflect.Value) :=
  match i with
  | Some (reflect.VPtr ty e) => if String.eqb ty ErrorResponsePtr then Some e else None
  | _ => None
  end.

(** The body of [ExtractErrorResponse], before the deferred [recover].  The
    returned [*models.ErrorResponse] is given by its pointee. *)
Definition ExtractErrorResponse_body (restError : reflect.iface)
  : Outcome (option reflect.Value * option error) :=
  match restError with
  | None => Ret (None, Some (Errorf "rest error was nil"))
  | Some _ =>
      let val := reflect.ValueOf restError in
      k <-- reflect.TypeOf_Kind restError ;;
      let val := if reflect.Kind_eqb k reflect.KPtr then reflect.Indirect val else val in
      if reflect.Kind_eqb k reflect.KPtr && negb (reflect.IsValid val)
      then Ret (None, Some (Errorf "rest error was nil"))
      else
        let noPayload (restError : reflect.iface) :=
          ty <-- getType restError ;;
          Ret (None,
               Some (Errorf ("no error payload field exists for type '" ++ ty ++ "'"))) in
        testPayload <-- reflect.FieldByName val "Payload" ;;
        if reflect.IsValid testPayload then
          restError <-- reflect.Interface testPayload ;;
          let val := reflect.ValueOf restError in
          i <-- reflect.Interface val ;;
          match assertErrorResponse i with
          | Some apiError => Ret (apiError, None)
          | None => noPayload restError
          end
        else noPayload restError
  end.

Definition ExtractErrorResponse (restError : reflect.iface)
  : option reflect.Value * option error :=
  match ExtractErrorResponse_body restError with
  | Ret r => r
  | Panic _ => (None, Some (Errorf "recovered from panic"))
  | OutOfFuel => (None, Some (Errorf "recovered from panic"))
  end.

(* ------------------------------------------------------------------ *)
(** * Sample controllers and worlds, for the examples *)

Definition world0 : World := {| now := 0; log := []; draws := 0 |}.

Definition runtime0 : Runtime :=
  {| Float64 := fun _ => 0%N; timerSlack := fun _ => 0%N |}.

Definition jobLink (uuid : string) : option models.JobLinkResponse :=
  Some {| models.Job_ := Some {| models.JobLink_UUID := Some uuid |} |}.

Definition jobInState (state : option string) : models.Job :=
  {| models.Job_UUID := Some "job-1"%string; models.Job_Description := None;
     models.Job_State := state; models.Job_Message := None; models.Job_Code := None |}.

Definition volumePage (links : option models.Links) (num : option Z)
    (records : option (list (option models.Volume))) : models.VolumeResponse :=
  {| models.Links_ := links; models.NumRecords := num; models.InlineRecords := records |}.

Definition nextLinkTo (href : option string) : option models.Links :=
  Some {| models.Links_Next := Some {| models.Href_Href := href |};
          models.Links_Self := None |}.

Definition volumeNamed (uuid : option string) (name : string) (path : option string)
  : models.Volume :=
  models.set_Nas (Some (models.set_Nas_Path path models.emptyNas))
    (models.set_Name (Some name)
       (models.mkVolume uuid None None None None None None None None None None None
                        None None None None None None None)).

(** A controller that answers every volume query with [page], accepts every
    mutation with job ["job-1"], and reports every job in [state]. *)
Definition staticAPI (page : option VolumeCollectionGetOK * option error)
    (state : option string) : API :=
  {| Storage_VolumeCollectionGet := fun _ _ _ => page;
     Storage_AggregateCollectionGet := fun _ _ _ => (None, None);
     Storage_VolumeModify := fun _ _ => (Some {| Payload := jobLink "job-1" |}, None);
     Storage_VolumeDelete := fun _ _ => (Some {| Payload := jobLink "job-1" |}, None);
     Storage_VolumeCreate := fun _ _ => (Some {| Payload := jobLink "job-1" |}, None);
     Cluster_JobGet := fun _ _ => (Some {| Payload := Some (jobInState state) |}, None);
     latency := fun _ => 0%N |}.

Definition staticClient (page : option VolumeCollectionGetOK * option error)
    (state : option string) : RestClient :=
  {| api := staticAPI page state; svmUUID := "svm-1" |}.

Definition onePage (records : option (list (option models.Volume))) (num : Z)
  : option VolumeCollectionGetOK * option error :=
  (Some {| Payload := Some (volumePage None (Some num) records) |}, None).

(* ------------------------------------------------------------------ *)
(** * The vocabulary of the statements *)

(** The claim's condition on a page: a [Links.Next.Href] chain whose href
    string is non-empty. *)
Definition nonEmptyHref {R} (p : models.CollectionResponse R) : Prop :=
  exists links next s,
    models.Links_ p = Some links
    /\ models.Links_Next links = Some next
    /\ models.Href_Href next = Some s
    /\ s <> ""%string.

(** A field of a struct, reached directly or through one non-nil pointer:
    the reading of "the input (or what it points to) has a field". *)
Definition structField (i : reflect.iface) (name : string) : option reflect.Value :=
  match i with
  | Some (reflect.VStruct _ fs) => reflect.lookupField name fs
  | Some (reflect.VPtr _ (Some (reflect.VStruct _ fs))) => reflect.lookupField name fs
  | _ => None
  end.

(** The value a field hands to [Value.Interface]. *)
Definition held (v : reflect.Value) : reflect.iface :=
  match v with
  | reflect.VIface _ d => d
  | x => Some x
  end.

(** One stage of [HasNextLink]: the kind test, the indirection, the field. *)
Definition fieldStep (restResult : reflect.iface) (name : string) : Outcome reflect.rvalue :=
  obind (reflect.TypeOf_Kind restResult) (fun k =>
  reflect.FieldByName
    (if reflect.Kind_eqb k reflect.KPtr then reflect.Indirect (reflect.ValueOf restResult)
     else reflect.ValueOf restResult) name).

(** The world after a call was issued. *)
Definition issued (a : API) (call : Call) (w : World) : World :=
  {| now := now w + Z.of_N (latency a (log w ++ [call]));
     log := log w ++ [call];
     draws := draws w |}.

(** The claim's reading of a fetched job state: success and failure are
    terminal, queued, running and paused are not, anything else (nil
    included) is an error. *)
Definition terminalState (s : string) : bool :=
  String.eqb s "success" || String.eqb s "failure".

Definition nonTerminalState (s : string) : bool :=
  String.eqb s "queued" || String.eqb s "running" || String.eqb s "paused".

Definition jobVerdict (state : option string) : bool * option error :=
  match state with
  | None => (false, Some (Errorf "unexpected nil job state "))
  | Some s =>
      if terminalState s then (true, None)
      else if nonTerminalState s then (false, None)
      else (false, Some (Errorf ("unexpected job state " ++ ptrText)))
  end.

Definition jobGetParams (uuid : string) : JobGetParams :=
  {| JG_UUID := uuid; JG_Fields := ["**"%string] |}.

Section RetryVocabulary.

Import backoff.

Variable rt : Runtime.

(** The policy as every polling loop of the client configures it: initial
    interval one second, multiplier 2, randomization factor 0.1, the package's
    maximal interval of one minute, and a cap [cap] on the elapsed time. *)
Definition configured (cap : Z) (b : ExponentialBackOff) : Prop :=
  InitialInterval b = Second
  /\ Multiplier b = 2%Q
  /\ RandomizationFactor b = (1 # 10)%Q
  /\ MaxInterval b = 60 * Second
  /\ MaxElapsedTime b = cap.

(** The lower end of the first randomized interval: 0.9 seconds. *)
Definition minWait : Z := 900 * Millisecond.

Definition drawn (w : World) : World :=
  {| now := now w; log := log w; draws := S (draws w) |}.

Definition theDraw (w : World) : Q :=
  (inject_Z (Z.of_N (Float64 rt (draws w)) mod 2 ^ 53) / inject_Z (2 ^ 53))%Q.

(** The world after the timer fired. *)
Definition waited (d : Z) (w : World) : World :=
  {| now := now w + Z.max 0 d + Z.of_N (timerSlack rt (draws w));
     log := log w; draws := draws w |}.


(** An operation that comes back (returning or panicking) from every world,
    the clock not running backwards meanwhile. *)
Definition comesBack (operation : M (option error)) : Prop :=
  forall w, exists o w', operation w = (o, w') /\ o <> OutOfFuel /\ now w <= now w'.

(** [NewExponentialBackOff()] with the clock at [t]. *)
Definition newBackOff (t : Z) : ExponentialBackOff :=
  {| InitialInterval := 500 * Millisecond;
     RandomizationFactor := 5 # 10;
     Multiplier := 15 # 10;
     MaxInterval := 60 * Second;
     MaxElapsedTime := 15 * Minute;
     currentInterval := 500 * Millisecond; startTime := t |}.

Definition resetAt (t : Z) (b : ExponentialBackOff) : ExponentialBackOff :=
  {| InitialInterval := InitialInterval b;
     RandomizationFactor := RandomizationFactor b;
     Multiplier := Multiplier b; MaxInterval := MaxInterval b;
     MaxElapsedTime := MaxElapsedTime b;
     currentInterval := InitialInterval b; startTime := t |}.

End RetryVocabulary.

(** The polling loop of [PollJobStatus], from the fresh policy on. *)
Definition pollLoop (rt : Runtime) (fuel : nat) (c : RestClient) (uuid : string)
  : M (option error) :=
  fun w =>
    backoff.RetryNotify rt fuel (checkJobStatus c (jobLink uuid) uuid)
                        (jobStatusBackoff (newBackOff (now w))) w.

(** What [PollJobStatus] makes of the job fetched after the loop. *)
Definition finalVerdict (uuid : string) (fetched : option JobGetOK * option error)
  : Outcome (option error) :=
  match fetched with
  | (_, Some e) => Ret (Some e)
  | (None, None) => Ret (Some (Errorf ("missing job result for job UUID " ++ uuid)))
  | (Some {| Payload := None |}, None) => Panic nilDeref
  | (Some {| Payload := Some job |}, None) =>
      match models.Job_State job with
      | None => Ret (Some (Errorf "unexpected nil job state "))
      | Some s =>
          if String.eqb s models.JobStateSuccess then Ret None
          else if String.eqb s models.JobStateFailure
          then Ret (Some (NewRestErrorFromPayload (Some job)))
          else Ret (Some (Errorf ("unexpected job state " ++ ptrText)))
      end
  end.




(** The query [NVMeSubsystemList] builds. *)
Definition nvmeSubsystemParams (c : RestClient) (pattern : string)
  : NvmeSubsystemCollectionGetParams :=
  {| NSCG_SvmUUID := Some (svmUUID c);
     NSCG_Name := Some (if String.eqb pattern "" then "*"%string else pattern);
     NSCG_Fields := ["**"%string] |}.

(** A response that arrived, but without a payload or without a record
    count. *)
Definition uncounted {R} (r : Response (models.CollectionResponse R)) : Prop :=
  match Payload r with
  | Some p => models.NumRecords p = None
  | None => True
  end.

(** A first page of subsystems with a next link, and a controller whose
    further pages arrive without a payload. *)
Definition firstSubsystems : models.CollectionResponse unit :=
  {| models.Links_ :=
       Some {| models.Links_Next :=
                 Some {| models.Href_Href :=
                           Some "/api/protocols/nvme/subsystems?start=b"%string |};
               models.Links_Self := None |};
     models.NumRecords := Some 1;
     models.InlineRecords := Some [Some tt] |}.

Definition subsystemPages (params : NvmeSubsystemCollectionGetParams)
    (next : option models.Href)
  : M (option (Response (models.CollectionResponse unit)) * option error) :=
  ret (match next with
       | None => Some {| Payload := Some firstSubsystems |}
       | Some _ => Some {| Payload := None |}
       end, None).

Section PagingVocabulary.

(** The loops of [getAllVolumePayloadRecords] and [AggregateList] differ in
    the call they issue and in the record type only.  [pagingLoop] is their
    common shape, over any [fetch] and any link test. *)
Variable R : Type.
Variable fetch :
  option models.Href -> M (option (Response (models.CollectionResponse R)) * option error).
Variable hasNext : models.CollectionResponse R -> bool.

Fixpoint pagingLoop (n : nat) (payload : models.CollectionResponse R)
    (nextLink : option models.Href)
  : M (option (models.CollectionResponse R) * option error) :=
  match n with
  | O => outOfFuel
  | S n' =>
      '(resultNext, errNext) <- fetch nextLink ;;
      match errNext with
      | Some e => ret (None, Some e)
      | None =>
          match resultNext with
          | Some {| Payload := Some nextPayload |} =>
              match models.NumRecords nextPayload with
              | Some nextNum =>
                  let payload :=
                    mergePage payload nextNum (models.InlineRecords nextPayload) in
                  if negb (hasNext nextPayload) then ret (Some payload, None)
                  else
                    links <- deref (models.Links_ nextPayload) ;;
                    pagingLoop n' payload (models.Links_Next links)
              | None => ret (Some payload, None)
              end
          | _ => ret (Some payload, None)
          end
      end
  end.

(** A fetched page that ends the loop without being merged: no response,
    no payload, or no record count. *)
Definition unmergeable (r : option (Response (models.CollectionResponse R))) : Prop :=
  match r with
  | Some {| Payload := Some p |} => models.NumRecords p = None
  | _ => True
  end.

(** [follow w next pages err w']: starting in [w] with link [next], the
    fetches return the pages [pages], each with a payload and a record
    count, every one but the last with a further link; then the run ends in
    [w'], either on a fetch error [err], or on a page that cannot be merged,
    or because the last of [pages] has no further link. *)
Inductive follow : World -> option models.Href -> list (models.CollectionResponse R)
                   -> option error -> World -> Prop :=
| follow_error w next r e w1 :
    fetch next w = (Ret (r, Some e), w1) ->
    follow w next [] (Some e) w1
| follow_unmergeable w next r w1 :
    fetch next w = (Ret (r, None), w1) ->
    unmergeable r ->
    follow w next [] None w1
| follow_last w next p n w1 :
    fetch next w = (Ret (Some {| Payload := Some p |}, None), w1) ->
    models.NumRecords p = Some n ->
    hasNext p = false ->
    follow w next [p] None w1
| follow_more w next p n links w1 pages err w' :
    fetch next w = (Ret (Some {| Payload := Some p |}, None), w1) ->
    models.NumRecords p = Some n ->
    hasNext p = true ->
    models.Links_ p = Some links ->
    follow w1 (models.Links_Next links) pages err w' ->
    follow w next (p :: pages) err w'.

(** Merging one page that has a record count. *)
Definition merge (payload p : models.CollectionResponse R) : models.CollectionResponse R :=
  mergePage payload
            (match models.NumRecords p with Some n => n | None => 0 end)
            (models.InlineRecords p).

Definition pagingResult (payload : models.CollectionResponse R)
    (pages : list (models.CollectionResponse R)) (err : option error)
  : option (models.CollectionResponse R) * option error :=
  match err with
  | Some e => (None, Some e)
  | None => (Some (fold_left merge pages payload), None)
  end.

(** The count of the merge: the [int64] sum of the initial count (nil
    counting as 0) and each page's count; no page, no change. *)
Definition count (p : models.CollectionResponse R) : Z :=
  match models.NumRecords p with
  | Some n => n
  | None => 0
  end.

End PagingVocabulary.

(** The link test of the volume loop and of the aggregate loop. *)
Definition volumeHasNext (p : models.VolumeResponse) : bool :=
  HasNextLink (VolumeResponse_iface (Some p)).

Definition aggregateHasNext (p : models.AggregateResponse) : bool :=
  HasNextLink (AggregateResponse_iface (Some p)).

(** [AggregateList] hands the merged payload back inside the first
    response object. *)
Definition asOK {P} (res : option P * option error)
  : option (Response P) * option error :=
  (option_map (fun p => {| Payload := Some p |}) (fst res), snd res).

(** The merged payload the claim describes, for a run [pages]: the records
    concatenated in fetch order, the counts added in [int64]. *)
Definition mergedAs {R} (initial result : models.CollectionResponse R)
    (pages : list (models.CollectionResponse R)) : Prop :=
  elems (models.InlineRecords result)
  = elems (models.InlineRecords initial)
    ++ List.concat (map (fun p => elems (models.InlineRecords p)) pages)
  /\ models.NumRecords result
     = match pages with
       | [] => models.NumRecords initial
       | _ => Some (fold_left (fun acc p => wrap64 (acc + count p)) pages (count initial))
       end.

Definition aggregateParams (pattern : string) : AggregateCollectionGetParams :=
  {| ACG_Name := Some pattern; ACG_Fields := ["**"%string] |}.

(** A first page with a next link and one record, and a controller whose
    next page carries a record but no record count. *)
Definition firstPage : models.VolumeResponse :=
  volumePage (nextLinkTo (Some "/api/storage/volumes?start.uuid=b"%string)) (Some 1)
             (Some [Some (volumeNamed (Some "uuid-a"%string) "a" None)]).

Definition uncountedPage : models.VolumeResponse :=
  volumePage None None (Some [Some (volumeNamed (Some "uuid-b"%string) "b" None)]).

Definition volumeQuery (name style : string) (state : option string)
  : VolumeCollectionGetParams :=
  {| VCG_SvmUUID := Some "svm-1"%string; VCG_Name := Some name; VCG_State := state;
     VCG_Style := Some style; VCG_Fields := ["**"%string] |}.

(** The by-pattern query matched nothing: no response, no payload, no
    record count, or a count of zero. *)
Definition matchedNone (result : option VolumeCollectionGetOK) : Prop :=
  match result with
  | Some {| Payload := Some payload |} =>
      models.NumRecords payload = None \/ models.NumRecords payload = Some 0
  | _ => True
  end.

(** From [w] to [w'] the log grew by calls that all satisfy [P]. *)
Definition extendsBy (P : Call -> bool) (w w' : World) : Prop :=
  exists l, log w' = log w ++ l /\ forallb P l = true.

(** Whatever its outcome, [m] only issues calls that satisfy [P]. *)
Definition footprint {A} (P : Call -> bool) (m : M A) : Prop :=
  forall w o w', m w = (o, w') -> extendsBy P w w'.

(** From [w] to [w'] the log grew by at most one mutating call, followed
    by job fetches only. *)
Definition mutatesThenPolls (w w' : World) : Prop :=
  exists mut polls,
    log w' = log w ++ mut ++ polls
    /\ forallb mutating mut = true
    /\ (List.length mut <= 1)%nat
    /\ forallb isJobGet polls = true.

Definition tailShape {A} (m : M A) : Prop :=
  forall w o w', m w = (o, w') -> mutatesThenPolls w w'.

(** One call and the poll of the job it returned: the error of the call, an
    error for a nil response, otherwise [PollJobStatus] on the payload. *)
Definition callThenPoll (rt : Runtime) (fuel : nat) (c : RestClient)
    (answer : option (Response models.JobLinkResponse) * option error)
    (nilResponse : string) : M (option error) :=
  match answer with
  | (_, Some e) => ret (Some e)
  | (None, None) => ret (Some (Errorf nilResponse))
  | (Some accepted, None) => PollJobStatus rt fuel c (Payload accepted)
  end.

(** What a by-name operation does once the lookup has found the volume and
    its UUID: it returns at once, or it issues one call, [nilResponse] being
    its error for a call that comes back without a response. *)
Inductive Plan :=
| Done (result : option error)
| Mutate (call : Call) (nilResponse : string).

Definition volumeModify (uuid : string) (volumeInfo : models.Volume) : Plan :=
  Mutate (VolumeModify (modifyParams uuid volumeInfo))
         "unexpected response from volume modify".

(** The request each operation builds for the volume [volume] with the
    UUID [uuid], or the result it returns without one. *)
Definition planOf (conv : string -> string * option error) (o : MutatingOp)
    (volume : models.Volume) (uuid : string) : Plan :=
  match o with
  | ByNameAndStyle (SetVolumeSize _ newSize _) =>
      volumeModify uuid
        (models.set_Size (Some (wrap64 (fst (strconv.ParseUint (fst (conv newSize))))))
                         models.emptyVolume)
  | ByNameAndStyle (MountVolume _ junctionPath _) =>
      if nasPathIs volume junctionPath then Done None
      else volumeModify uuid
             (models.set_Nas (Some (models.set_Nas_Path (Some junctionPath)
                                                        models.emptyNas))
                             models.emptyVolume)
  | ByNameAndStyle (UnmountVolume _ _) =>
      if nasPathIs volume "" then Done None
      else volumeModify uuid
             (models.set_Nas (Some (models.set_Nas_Path (Some ""%string) models.emptyNas))
                             models.emptyVolume)
  | ByNameAndStyle (RenameVolume _ newVolumeName _) =>
      volumeModify uuid (models.set_Name (Some newVolumeName) models.emptyVolume)
  | ByNameAndStyle (DestroyVolume _ _) =>
      Mutate (VolumeDelete {| VD_UUID := uuid |})
             "unexpected response from volume create"
  | ByNameAndStyle (ModifyVolumeExportPolicy _ exportPolicyName _) =>
      volumeModify uuid
        (models.set_Nas
           (Some (models.set_Nas_ExportPolicy
                    (Some {| models.Ref_Name := Some exportPolicyName |})
                    models.emptyNas))
           models.emptyVolume)
  | ByNameAndStyle (ModifyVolumeUnixPermissions _ unixPermissions _) =>
      if String.eqb unixPermissions "" then
        volumeModify uuid (models.set_Nas (Some models.emptyNas) models.emptyVolume)
      else
        match strconv.ParseInt (convertUnixPermissions unixPermissions) with
        | (_, Some _) =>
            Done (Some (Errorf ("cannot process unix permissions value "
                                ++ convertUnixPermissions unixPermissions)))
        | (volumePermissions, None) =>
            volumeModify uuid
              (models.set_Nas
                 (Some (models.set_Nas_UnixPermissions (Some volumePermissions)
                                                       models.emptyNas))
                 models.emptyVolume)
        end
  | ByNameAndStyle (SetVolumeComment _ newVolumeComment _) =>
      volumeModify uuid (models.set_Comment (Some newVolumeComment) models.emptyVolume)
  | ByNameAndStyle (SetVolumeQosPolicyGroupName _ qosPolicyGroup _) =>
      if isInvalidKind (Qos_Kind qosPolicyGroup)
      then Done (Some (Errorf "invalid QoS policy group"))
      else if String.eqb (Qos_Name qosPolicyGroup) ""
      then Done (Some (Errorf "missing QoS policy group name"))
      else volumeModify uuid
             (models.set_Qos
                (Some {| models.Qos_Policy :=
                           Some {| models.Ref_Name := Some (Qos_Name qosPolicyGroup) |} |})
                models.emptyVolume)
  | ByNameAndStyle (StartCloneSplit _ _) =>
      volumeModify uuid
        (models.set_Clone
           (Some {| models.Clone_SplitInitiated := Some true;
                    models.Clone_IsFlexclone := None;
                    models.Clone_ParentVolume := None;
                    models.Clone_ParentSnapshot := None |})
           models.emptyVolume)
  | ByNameAndStyle (RestoreSnapshot snapshotName _ _) =>
      Mutate (VolumeModify {| VM_UUID := uuid; VM_Info := None;
                              VM_RestoreToSnapshotName := Some snapshotName |})
             "unexpected response from volume modify"
  | ModifySnapshotDirectoryAccess _ enable
  | FlexGroupModifySnapshotDirectoryAccess _ enable =>
      volumeModify uuid
        (models.set_SnapshotDirectoryAccessEnabled (Some enable) models.emptyVolume)
  | QuotaModify _ quotaEnabled =>
      if quotaIs volume quotaEnabled then Done None
      else volumeModify uuid
             (models.set_Quota (Some {| models.Quota_Enabled := Some quotaEnabled |})
                               models.emptyVolume)
  | DestroyFlexGroup _ =>
      Mutate (VolumeDelete {| VD_UUID := uuid |})
             "unexpected response from volume delete"
  end.

(** The controller's answer to a mutating call, after the calls [history]. *)
Definition answerTo (c : RestClient) (history : list Call) (call : Call)
  : option (Response models.JobLinkResponse) * option error :=
  match call with
  | VolumeModify params => Storage_VolumeModify (api c) history params
  | VolumeDelete params => Storage_VolumeDelete (api c) history params
  | VolumeCreate params => Storage_VolumeCreate (api c) history params
  | _ => (None, None)
  end.

(** The run of a plan from the world the lookup left: the result at once,
    or the call, recorded, and the poll of the job in the controller's
    answer to it. *)
Definition carryOut (rt : Runtime) (fuel : nat) (c : RestClient) (plan : Plan)
  : M (option error) :=
  fun w1 =>
    match plan with
    | Done result => (Ret result, w1)
    | Mutate call nilResponse =>
        callThenPoll rt fuel c (answerTo c (log w1) call) nilResponse
                     (issued (api c) call w1)
    end.

(** The two operations that take a volume the lookup does not find as
    done already. *)
Definition missingIsDone (o : MutatingOp) : bool :=
  match o with
  | ByNameAndStyle (UnmountVolume _ _) | DestroyFlexGroup _ => true
  | _ => false
  end.

(** The name an operation looks up. *)
Definition volumeNameOf (o : MutatingOp) : string :=
  match o with
  | ByNameAndStyle (SetVolumeSize n _ _) | ByNameAndStyle (MountVolume n _ _)
  | ByNameAndStyle (UnmountVolume n _) | ByNameAndStyle (RenameVolume n _ _)
  | ByNameAndStyle (DestroyVolume n _) | ByNameAndStyle (ModifyVolumeExportPolicy n _ _)
  | ByNameAndStyle (ModifyVolumeUnixPermissions n _ _)
  | ByNameAndStyle (SetVolumeComment n _ _)
  | ByNameAndStyle (SetVolumeQosPolicyGroupName n _ _)
  | ByNameAndStyle (StartCloneSplit n _) | ByNameAndStyle (RestoreSnapshot _ n _)
  | ModifySnapshotDirectoryAccess n _ | FlexGroupModifySnapshotDirectoryAccess n _
  | QuotaModify n _ | DestroyFlexGroup n => n
  end.

(** What an operation returns when the lookup finds no volume. *)
Definition whenMissing (o : MutatingOp) : option error :=
  match o with
  | ByNameAndStyle (UnmountVolume _ _) | DestroyFlexGroup _ => None
  | ByNameAndStyle (DestroyVolume name _) =>
      Some (Errorf ("could not find volume: " ++ name))
  | FlexGroupModifySnapshotDirectoryAccess n _ =>
      Some (Errorf ("could not find flexgroup volume with name " ++ n))
  | _ => Some (Errorf ("could not find volume with name " ++ volumeNameOf o))
  end.

(** A size converter for the examples. *)
Definition plainBytes (s : string) : string * option error := (s, None).

(** The existence wait [createVolumeByStyle] selects, and the check it
    polls. *)
Definition existenceWait (rt : Runtime) (fuel : nat) (c : RestClient) (style : string)
  : string -> M (option error) :=
  if String.eqb style models.VolumeStyleFlexgroup
  then waitForFlexgroup rt fuel c
  else waitForVolume rt fuel c.

Definition existenceCheck (fuel : nat) (c : RestClient) (style : string)
  : string -> M (bool * option error) :=
  if String.eqb style models.VolumeStyleFlexgroup
  then FlexGroupExists fuel c
  else VolumeExists fuel c.

Definition successClient : RestClient :=
  staticClient (onePage (Some [Some (volumeNamed (Some "uuid-1"%string) "vol"
                                                 (Some "/vol"%string))]) 1)
               (Some "success"%string).

Definition runningClient : RestClient :=
  staticClient (onePage None 0) (Some "running"%string).

Definition failingClient : RestClient :=
  staticClient (None, Some (ClientError 500 "internal error")) None.

(* ------------------------------------------------------------------ *)
(** * The vocabulary of the further properties *)

(** One permission triple as [ls -l] prints it, and the octal digit it
    stands for. *)
Definition symbolic (t : bool * bool * bool) : string :=
  let '(r, w, x) := t in
  String (if r then "r" else "-")
    (String (if w then "w" else "-")
       (String (if x then "x" else "-") EmptyString)).

Definition octalDigit (t : bool * bool * bool) : Z :=
  let '(r, w, x) := t in
  (if r then 4 else 0) + (if w then 2 else 0) + (if x then 1 else 0).

Definition noBits (t : bool * bool * bool) : bool :=
  let '(r, w, x) := t in negb (r || w || x).

(** The three octal digits of a mode, as text. *)
Definition octalMode (u g o : bool * bool * bool) : string :=
  (sprintDigit (octalDigit u) ++ sprintDigit (octalDigit g)
   ++ sprintDigit (octalDigit o))%string.

Fixpoint allDigits (s : string) : bool :=
  match s with
  | EmptyString => true
  | String ch rest => strconv.isDigit ch && allDigits rest
  end.

(** The item [ToSliceVolumeAggregatesItems] builds for one aggregate name. *)
Definition aggregateItem (aggregateName : string) : option models.NameRef :=
  Some {| models.Ref_Name := Some aggregateName |}.

(** A call that leaves the controller's state as it is. *)
Definition readOnly (call : Call) : bool := negb (mutating call).

(** The UUID of a looked-up volume: nil for no volume and for a volume
    without one. *)
Definition uuidOf (volume : option models.Volume) : option string :=
  match volume with
  | Some v => models.Volume_UUID v
  | None => None
  end.

(** The style argument of a by-name operation. *)
Definition styleOf (o : VolumeOp) : string :=
  match o with
  | SetVolumeSize _ _ st | MountVolume _ _ st | RenameVolume _ _ st
  | ModifyVolumeExportPolicy _ _ st | ModifyVolumeUnixPermissions _ _ st
  | SetVolumeComment _ _ st | SetVolumeQosPolicyGroupName _ _ st
  | RestoreSnapshot _ _ st => st
  | UnmountVolume _ st | DestroyVolume _ st | StartCloneSplit _ st => st
  end.

(** The query [getAllVolumesByPatternStyleAndState] builds. *)
Definition queryFor (c : RestClient) (pattern style state : string)
  : VolumeCollectionGetParams :=
  {| VCG_SvmUUID := Some (svmUUID c);
     VCG_Name := Some pattern;
     VCG_State := if String.eqb state "" then None else Some state;
     VCG_Style := Some style;
     VCG_Fields := ["**"%string] |}.

(** The result of a volume query asked in [w], as the controller answered
    it: the controller's answer to the first call is a response with the
    payload [first]; without a next link that payload is the result, and
    with one the further pages are followed from its link and merged into
    it.  [w'] is the world after the last call. *)
Definition answered (c : RestClient) (params : VolumeCollectionGetParams)
    (w : World) (payload : models.VolumeResponse) (w' : World) : Prop :=
  exists first,
    Storage_VolumeCollectionGet (api c) (log w) params None
    = (Some {| Payload := Some first |}, None)
    /\ if volumeHasNext first then
         exists links pages,
           models.Links_ first = Some links
           /\ follow (api_VolumeCollectionGet c params) volumeHasNext
                     (issued (api c) (VolumeCollectionGet params None) w)
                     (models.Links_Next links) pages None w'
           /\ payload = fold_left (@merge _) pages first
       else payload = first
            /\ w' = issued (api c) (VolumeCollectionGet params None) w.

(** The controller, asked in [w], reports the volume: the result of the
    query for the online volumes of that name and style in the client's SVM
    has a record count of exactly 1 and a first record that is not nil. *)
Definition observedToExist (c : RestClient) (name style : string) (w w' : World)
  : Prop :=
  exists payload volume rest,
    answered c (queryFor c name style models.VolumeStateOnline) w payload w'
    /\ models.NumRecords payload = Some 1
    /\ models.InlineRecords payload = Some (Some volume :: rest).

(** The style the existence wait asks for. *)
Definition waitedStyle (style : string) : string :=
  if String.eqb style models.VolumeStyleFlexgroup
  then models.VolumeStyleFlexgroup
  else models.VolumeStyleFlexvol.

Definition optionString_eqb (a b : option string) : bool :=
  match a, b with
  | Some x, Some y => String.eqb x y
  | None, None => true
  | _, _ => false
  end.

Definition sameQuery (p q : VolumeCollectionGetParams) : bool :=
  optionString_eqb (VCG_SvmUUID p) (VCG_SvmUUID q)
  && optionString_eqb (VCG_Name p) (VCG_Name q)
  && optionString_eqb (VCG_State p) (VCG_State q)
  && optionString_eqb (VCG_Style p) (VCG_Style q)
  && if list_eq_dec string_dec (VCG_Fields p) (VCG_Fields q) then true else false.

(** A volume query with the parameters [params], for any page. *)
Definition isQueryOf (params : VolumeCollectionGetParams) (call : Call) : bool :=
  match call with
  | VolumeCollectionGet p _ => sameQuery params p
  | _ => false
  end.

(** The query [QtreeGetByName] builds. *)
Definition qtreeByName (c : RestClient) (name volumeName : string)
  : QtreeCollectionGetParams :=
  {| QCG_SvmUUID := Some (svmUUID c); QCG_Name := Some name;
     QCG_VolumeName := Some volumeName; QCG_Path := None;
     QCG_Fields := ["**"%string] |}.

(** The query [QtreeGetByPath] builds. *)
Definition qtreeByPath (c : RestClient) (path : string) : QtreeCollectionGetParams :=
  {| QCG_SvmUUID := Some (svmUUID c); QCG_Name := None; QCG_VolumeName := None;
     QCG_Path := Some path; QCG_Fields := ["**"%string] |}.

(** A qtree collection that answers every query with one record, the name
    asked for; qtrees are their names here. *)
Definition oneQtree (params : QtreeCollectionGetParams)
  : M (option (Response (models.CollectionResponse string)) * option error) :=
  ret (Some {| Payload := Some {| models.Links_ := None;
                                  models.NumRecords := Some 1;
                                  models.InlineRecords := Some [QCG_Name params] |} |},
       None).

(** A generated response or error object as reflection sees it: a pointer
    to a struct whose [Payload] field is a pointer. *)
Definition Response_Value {P} (ty payloadTy : string) (payloadValue : P -> reflect.Value)
    (r : option (Response P)) : reflect.iface :=
  Some (reflect.VPtr ("*" ++ ty)
          (option_map
             (fun r =>
                reflect.VStruct ty
                  [("Payload"%string,
                    reflect.VPtr ("*" ++ payloadTy)
                                 (option_map payloadValue (Payload r)))])
             r)).

(** What the [Payload] field has to hold for [ValidatePayloadExists] to
    accept it: anything but a nil interface and a nil pointer. *)
Definition presentPayload (f : reflect.Value) : Prop :=
  match held f with
  | None => False
  | Some (reflect.VPtr _ None) => False
  | Some _ => True
  end.

(** The name and the clone data of a record that
    [listAllVolumeNamesBackedBySnapshot] looks at more closely: not nil,
    named, a clone, with the parent snapshot [snapshotName]. *)
Definition cloneOf (snapshotName : string) (vol : option models.Volume)
  : option (string * models.VolumeInlineClone) :=
  match vol with
  | Some v =>
      match models.Volume_Name v, models.Volume_Clone v with
      | Some name, Some clone =>
          match models.Clone_ParentSnapshot clone with
          | Some {| models.Ref_Name := Some s |} =>
              if String.eqb s snapshotName then Some (name, clone) else None
          | _ => None
          end
      | _, _ => None
      end
  | None => None
  end.

(** The record's name, if the record is backed by [snapshotName] of
    [volumeName]. *)
Definition backedBy (volumeName snapshotName : string) (vol : option models.Volume)
  : list string :=
  match cloneOf snapshotName vol with
  | Some (name, clone) =>
      match models.Clone_ParentVolume clone with
      | Some {| models.Ref_Name := Some parent |} =>
          if String.eqb parent volumeName then [name] else []
      | _ => []
      end
  | None => []
  end.

(** A record with the parent snapshot [snapshotName] whose parent volume is
    there but has no name. *)
Definition namelessParent (snapshotName : string) (vol : option models.Volume) : bool :=
  match cloneOf snapshotName vol with
  | Some (_, clone) =>
      match models.Clone_ParentVolume clone with
      | Some {| models.Ref_Name := None |} => true
      | _ => false
      end
  | None => false
  end.

(** The name of the volume a by-name operation works on. *)
Definition nameOf (o : VolumeOp) : string :=
  match o with
  | SetVolumeSize n _ _ | MountVolume n _ _ | RenameVolume n _ _
  | ModifyVolumeExportPolicy n _ _ | ModifyVolumeUnixPermissions n _ _
  | SetVolumeComment n _ _ | SetVolumeQosPolicyGroupName n _ _
  | RestoreSnapshot _ n _ => n
  | UnmountVolume n _ | DestroyVolume n _ | StartCloneSplit n _ => n
  end.

(** A fetch of the job [uuid], with all fields. *)
Definition isFetchOf (uuid : string) (call : Call) : bool :=
  match call with
  | client.JobGet p =>
      String.eqb (JG_UUID p) uuid
      && if list_eq_dec string_dec (JG_Fields p) ["**"%string] then true else false
  | _ => false
  end.

(* ------------------------------------------------------------------ *)
(** * Reasoning about the monad *)

Lemma bind_ret {A B} (m : M A) (k : A -> M B) w a w' :
  m w = (Ret a, w') -> bind m k w = k a w'.
Proof. intros H. unfold bind. now rewrite H. Qed.

Lemma bind_ret_l {A B} (a : A) (k : A -> M B) w : bind (ret a) k w = k a w.
Proof. reflexivity. Qed.

Lemma bind_assoc {A B C} (m : M A) (f : A -> M B) (g : B -> M C) w :
  bind (bind m f) g w = bind m (fun x => bind (f x) g) w.
Proof. unfold bind. destruct (m w) as [[a | r |] w1]; reflexivity. Qed.

Lemma bind_panic {A B} (m : M A) (k : A -> M B) w r w' :
  m w = (Panic r, w') -> bind m k w = (Panic r, w').
Proof. intros H. unfold bind. now rewrite H. Qed.

Lemma bind_outOfFuel {A B} (m : M A) (k : A -> M B) w w' :
  m w = (OutOfFuel, w') -> bind m k w = (OutOfFuel, w').
Proof. intros H. unfold bind. now rewrite H. Qed.

(** Inversion of a bind that returned. *)
Lemma bind_inv_ret {A B} (m : M A) (k : A -> M B) w b w' :
  bind m k w = (Ret b, w') ->
  exists a w1, m w = (Ret a, w1) /\ k a w1 = (Ret b, w').
Proof.
  unfold bind. destruct (m w) as [[a | r |] w1]; intros H; try discriminate.
  now exists a, w1.
Qed.

Lemma issue_eq {R} (a : API) call (answer : list Call -> R) w :
  issue a call answer w = (Ret (answer (log w)), issued a call w).
Proof. reflexivity. Qed.

(* ------------------------------------------------------------------ *)
(** * HasNextLink *)

(** On a typed collection response [HasNextLink] tests no more than that
    [Links] and [Links.Next] are non-nil. *)
Lemma HasNextLink_Response {R} ty linksTy recordsField recordsTy
    (p : option (models.CollectionResponse R)) :
  HasNextLink (Response_iface ty linksTy recordsField recordsTy p)
  = match p with
    | Some r =>
        match models.Links_ r with
        | Some l =>
            match models.Links_Next l with
            | Some _ => true
            | None => false
            end
        | None => false
        end
    | None => false
    end.
Proof.
  destruct p as [[[[[next|] self]|] num recs]|]; reflexivity.
Qed.

(** [HasNextLink] returns for every input, and returns [false] whenever its
    body panics. *)
Lemma HasNextLink_recovers (v : reflect.iface) reason :
  HasNextLink_body v = Panic reason -> HasNextLink v = false.
Proof. intros H. unfold HasNextLink. now rewrite H. Qed.

Lemma HasNextLink_nil : HasNextLink None = false.
Proof. reflexivity. Qed.

Lemma fieldStep_spec r name :
  fieldStep r name
  = match structField r name with
    | Some f => Ret (reflect.Val f)
    | None =>
        match r with
        | Some (reflect.VStruct _ _) | Some (reflect.VPtr _ (Some (reflect.VStruct _ _))) =>
            Ret reflect.Zero
        | None => Panic nilDeref
        | _ => Panic "reflect: call of reflect.Value.FieldByName on non-struct Value"
        end
    end.
Proof.
  destruct r as [[s | ty | ty [[s | ty' | ty' e | ty' fs | ty' d]|] | ty fs | ty d]|];
    try reflexivity;
    cbn; destruct (reflect.lookupField name fs); reflexivity.
Qed.

Lemma fieldStep_bind {B} r name (rest : reflect.rvalue -> Outcome B) :
  obind (reflect.TypeOf_Kind r) (fun k =>
    obind (reflect.FieldByName
             (if reflect.Kind_eqb k reflect.KPtr
              then reflect.Indirect (reflect.ValueOf r) else reflect.ValueOf r) name) rest)
  = obind (fieldStep r name) rest.
Proof. unfold fieldStep. destruct (reflect.TypeOf_Kind r); reflexivity. Qed.

Lemma Interface_held v : reflect.Interface (reflect.Val v) = Ret (held v).
Proof. destruct v; reflexivity. Qed.

Lemma fieldStep_none_false r name (rest : reflect.rvalue -> Outcome bool) :
  structField r name = None ->
  rest reflect.Zero = Ret false ->
  match obind (fieldStep r name) rest with Ret b => b | _ => false end = false.
Proof.
  intros H Hrest. rewrite fieldStep_spec, H.
  destruct r as [[s | ty | ty [[s | ty' | ty' e | ty' fs | ty' d]|] | ty fs | ty d]|];
    cbn; try reflexivity; now rewrite Hrest.
Qed.

(** For every input, [HasNextLink] is true exactly when the chain of fields
    [Links], [Next], [Href] is there and [Value.String] of the [Href] field
    is not empty.  For a field of kind String that is the claim's test; for
    any other kind (a pointer among them) the printed type is never empty. *)
Lemma HasNextLink_chain (i : reflect.iface) :
  HasNextLink i = true <->
  exists links next href,
    structField i "Links" = Some links
    /\ structField (held links) "Next" = Some next
    /\ structField (held next) "Href" = Some href
    /\ reflect.String_ (reflect.Val href) <> "".
Proof.
  unfold HasNextLink, HasNextLink_body.
  destruct i as [v|].
  2:{ split; [discriminate|]. intros (l & n & h & H & _). discriminate. }
  cbv zeta. rewrite fieldStep_bind.
  destruct (structField (Some v) "Links") as [links|] eqn:HL.
  2:{ rewrite (fieldStep_none_false _ _ _ HL) by reflexivity.
      split; [discriminate|]. intros (l & n & h & H & _). discriminate. }
  rewrite fieldStep_spec, HL. cbn [obind reflect.IsValid].
  rewrite Interface_held. cbn [obind]. rewrite fieldStep_bind.
  destruct (structField (held links) "Next") as [next|] eqn:HN.
  2:{ rewrite (fieldStep_none_false _ _ _ HN) by reflexivity.
      split; [discriminate|]. intros (l & n & h & H1 & H2 & _).
      inversion H1; subst. congruence. }
  rewrite fieldStep_spec, HN. cbn [obind reflect.IsValid].
  rewrite Interface_held. cbn [obind].
  assert (Hex : forall b : bool,
             (b = true <-> exists href, structField (held next) "Href" = Some href
                                        /\ reflect.String_ (reflect.Val href) <> "") ->
             (b = true <-> exists links0 next0 href,
                 Some links = Some links0
                 /\ structField (held links0) "Next" = Some next0
                 /\ structField (held next0) "Href" = Some href
                 /\ reflect.String_ (reflect.Val href) <> "")).
  { intros b [H1 H2]. split.
    - intros Hb. destruct (H1 Hb) as (h & Ha & Hb'). exists links, next, h. auto.
    - intros (l & n & h & E1 & E2 & E3 & E4). inversion E1; subst.
      rewrite HN in E2. inversion E2; subst. apply H2. eauto. }
  apply Hex. clear Hex HN HL.
  destruct (held next)
    as [[s | ty | ty [[s | ty' | ty' e | ty' fs | ty' d]|] | ty fs | ty d]|];
    cbn;
    try (split; [discriminate|intros (h & Hh & _); discriminate]);
    (destruct (reflect.lookupField "Href" fs) as [href|]; cbn;
     [|split; [discriminate|intros (h & Hh & _); discriminate]]);
    (split;
     [intros H; exists href; split; [reflexivity|];
      apply negb_true_iff, String.eqb_neq in H; exact H
     |intros (h & Hh & Hne); inversion Hh; subst;
      apply negb_true_iff, String.eqb_neq; exact Hne]).
Qed.

(** C7 (the code departs from the claim).  The claim: [HasNextLink] returns
    true exactly when the input has a [Links.Next.Href] chain whose href
    string is non-empty.  The code: [Href] is a pointer field, and
    [Value.String] on a pointer prints ["<*string Value>"], so a next link
    whose [Href] is nil or points to the empty string is still reported:
    [HasNextLink] is true of every page whose [Links.Next] is non-nil. *)
Theorem HasNextLink_ignores_href :
  (HasNextLink (VolumeResponse_iface (Some (volumePage (nextLinkTo None) None None)))
   = true
   /\ ~ nonEmptyHref (volumePage (nextLinkTo None) None None))
  /\ (HasNextLink
        (VolumeResponse_iface (Some (volumePage (nextLinkTo (Some ""%string)) None None)))
      = true
      /\ ~ nonEmptyHref (volumePage (nextLinkTo (Some ""%string)) None None))
  /\ forall href num recs,
       HasNextLink (VolumeResponse_iface (Some (volumePage (nextLinkTo href) num recs)))
       = true.
Proof.
  split; [|split].
  - split; [reflexivity|].
    intros (links & next & s & Hl & Hn & Hh & _).
    inversion Hl; subst. inversion Hn; subst. discriminate.
  - split; [reflexivity|].
    intros (links & next & s & Hl & Hn & Hh & Hs).
    inversion Hl; subst. inversion Hn; subst. inversion Hh; subst. now apply Hs.
  - intros. unfold VolumeResponse_iface. rewrite HasNextLink_Response. reflexivity.
Qed.

(* ------------------------------------------------------------------ *)
(** * IsJobFinished *)

Lemma JobGet_eq c uuid w :
  JobGet c uuid w
  = (Ret (Cluster_JobGet (api c) (log w) (jobGetParams uuid)),
     issued (api c) (client.JobGet (jobGetParams uuid)) w).
Proof. reflexivity. Qed.

Lemma IsJobFinished_fetched c uuid w jobPayload :
  Cluster_JobGet (api c) (log w) (jobGetParams uuid)
  = (Some {| Payload := Some jobPayload |}, None) ->
  IsJobFinished c (jobLink uuid) w
  = (Ret (jobVerdict (models.Job_State jobPayload)),
     issued (api c) (client.JobGet (jobGetParams uuid)) w).
Proof.
  intros H. unfold IsJobFinished, jobLink. cbn [models.Job_ models.JobLink_UUID].
  rewrite (bind_ret _ _ _ (JobGet_eq c uuid w)), H.
  cbn. unfold jobVerdict, terminalState, nonTerminalState.
  destruct (models.Job_State jobPayload) as [s|]; [|reflexivity].
  unfold models.JobStateSuccess, models.JobStateFailure, models.JobStatePaused,
    models.JobStateRunning, models.JobStateQueued.
  destruct (String.eqb s "success"); [reflexivity|].
  destruct (String.eqb s "failure"); [reflexivity|].
  destruct (String.eqb s "paused") eqn:Ep, (String.eqb s "running") eqn:Er,
    (String.eqb s "queued") eqn:Eq; cbn; reflexivity.
Qed.

Ltac verdict_cases :=
  cbn; repeat split; intros;
  repeat match goal with
         | H : _ \/ _ |- _ => destruct H
         | H : Some _ = Some _ |- _ => inversion H; clear H; subst
         end;
  cbn in *; try discriminate; try congruence; auto.

(** C1.  [IsJobFinished] returns an error (with false) for a nil payload, a
    nil job and a nil UUID, without fetching; otherwise it fetches the job,
    hands back a fetch error with false, and on a fetched job returns true
    exactly when the state is success or failure, false without error for
    queued, running and paused, and an error with false for a nil state and
    for any other state. *)
Theorem IsJobFinished_spec (c : RestClient) (w : World) :
  (exists e, IsJobFinished c None w = (Ret (false, Some e), w))
  /\ (exists e, IsJobFinished c (Some {| models.Job_ := None |}) w
                = (Ret (false, Some e), w))
  /\ (exists e,
        IsJobFinished c (Some {| models.Job_ := Some {| models.JobLink_UUID := None |} |}) w
        = (Ret (false, Some e), w))
  /\ forall uuid,
       let w' := issued (api c) (client.JobGet (jobGetParams uuid)) w in
       (forall r e,
          Cluster_JobGet (api c) (log w) (jobGetParams uuid) = (r, Some e) ->
          IsJobFinished c (jobLink uuid) w = (Ret (false, Some e), w'))
       /\ (forall jobPayload,
             Cluster_JobGet (api c) (log w) (jobGetParams uuid)
             = (Some {| Payload := Some jobPayload |}, None) ->
             exists done err,
               IsJobFinished c (jobLink uuid) w = (Ret (done, err), w')
               /\ (done = true <->
                   models.Job_State jobPayload = Some models.JobStateSuccess
                   \/ models.Job_State jobPayload = Some models.JobStateFailure)
               /\ (models.Job_State jobPayload = Some models.JobStateQueued
                   \/ models.Job_State jobPayload = Some models.JobStateRunning
                   \/ models.Job_State jobPayload = Some models.JobStatePaused ->
                   done = false /\ err = None)
               /\ (done = true -> err = None)
               /\ (models.Job_State jobPayload = None -> done = false /\ err <> None)
               /\ (forall s, models.Job_State jobPayload = Some s ->
                             terminalState s = false -> nonTerminalState s = false ->
                             done = false /\ err <> None)).
Proof.
  split; [eexists; reflexivity|].
  split; [eexists; reflexivity|].
  split; [eexists; reflexivity|].
  intros uuid w'. split.
  - intros r e H. unfold IsJobFinished, jobLink. cbn [models.Job_ models.JobLink_UUID].
    rewrite (bind_ret _ _ _ (JobGet_eq c uuid w)), H. reflexivity.
  - intros jobPayload H.
    exists (fst (jobVerdict (models.Job_State jobPayload))),
           (snd (jobVerdict (models.Job_State jobPayload))).
    rewrite (IsJobFinished_fetched _ _ _ H), <- surjective_pairing.
    split; [reflexivity|].
    unfold models.JobStateSuccess, models.JobStateFailure, models.JobStateQueued,
      models.JobStateRunning, models.JobStatePaused.
    destruct (models.Job_State jobPayload) as [s|]; [|verdict_cases].
    unfold jobVerdict, terminalState, nonTerminalState.
    destruct (String.eqb_spec s "success") as [->|Hs]; [verdict_cases|].
    destruct (String.eqb_spec s "failure") as [->|Hf]; [verdict_cases|].
    destruct (String.eqb_spec s "queued") as [->|Hq]; [verdict_cases|].
    destruct (String.eqb_spec s "running") as [->|Hr]; [verdict_cases|].
    destruct (String.eqb_spec s "paused") as [->|Hp]; verdict_cases.
Qed.

(* ------------------------------------------------------------------ *)
(** * The retry loop *)

Section RetryLoop.

Import backoff.

Variable rt : Runtime.

Lemma theDraw_nonneg w : (0 <= theDraw rt w)%Q.
Proof.
  unfold theDraw. apply Qle_shift_div_l; [reflexivity|].
  rewrite Qmult_0_l.
  change 0%Q with (inject_Z 0). rewrite <- Zle_Qle.
  apply Z.mod_pos_bound. reflexivity.
Qed.

(** Linear arithmetic over [Q] with the durations written as numerals. *)
Ltac q_bounds :=
  unfold minWait, Second, Millisecond in *;
  repeat match goal with
         | H : context [inject_Z ?z] |- _ =>
             lazymatch z with
             | Z.mul _ _ => let v := eval cbv in z in
                            change (inject_Z z) with (v # 1)%Q in H
             | Zpos _ => change (inject_Z z) with (z # 1)%Q in H
             end
         | |- context [inject_Z ?z] =>
             lazymatch z with
             | Z.mul _ _ => let v := eval cbv in z in
                            change (inject_Z z) with (v # 1)%Q
             | Zpos _ => change (inject_Z z) with (z # 1)%Q
             end
         end;
  repeat match goal with
         | |- context [inject_Z ?z] =>
             let q := fresh "q" in set (q := inject_Z z) in *; clearbody q
         | H : context [inject_Z ?z] |- _ =>
             let q := fresh "q" in set (q := inject_Z z) in *; clearbody q
         end;
  lra.

Lemma toDuration_ge q z : (inject_Z z <= q)%Q -> 0 <= z -> z <= toDuration q.
Proof.
  intros H Hz. unfold toDuration.
  assert (H0 : (0 <= q)%Q).
  { apply Qle_trans with (inject_Z z); [|exact H].
    change 0%Q with (inject_Z 0). now rewrite <- Zle_Qle. }
  apply Qle_bool_iff in H0. rewrite H0.
  rewrite <- (Qfloor_Z z). now apply Qfloor_resp_le.
Qed.

Lemma getRandomValueFromInterval_ge (random : Q) (cur : Z) :
  (0 <= random)%Q -> Second <= cur ->
  minWait <= getRandomValueFromInterval (1 # 10)%Q random cur.
Proof.
  intros Hr Hc. unfold getRandomValueFromInterval.
  replace (Qeq_bool (1 # 10)%Q 0%Q) with false by reflexivity.
  apply toDuration_ge; [|unfold minWait, Millisecond; lia].
  assert (Hq : (inject_Z Second <= inject_Z cur)%Q) by now rewrite <- Zle_Qle.
  assert (Hp : (0 <= random * (inject_Z cur + (1 # 10) * inject_Z cur
                               - (inject_Z cur - (1 # 10) * inject_Z cur) + 1))%Q).
  { apply Qmult_le_0_compat; [exact Hr|]. q_bounds. }
  set (x := (random * _)%Q) in *. clearbody x. q_bounds.
Qed.

Lemma incrementCurrentInterval_ge cap b :
  configured cap b -> Second <= currentInterval b ->
  configured cap (incrementCurrentInterval b)
  /\ Second <= currentInterval (incrementCurrentInterval b).
Proof.
  intros (Hi & Hm & Hf & Hx & Hc) Hcur. unfold incrementCurrentInterval.
  destruct (Qle_bool _ _);
    (split; [repeat split; assumption|]); cbn [currentInterval set_currentInterval].
  - rewrite Hx. unfold Second, Millisecond. lia.
  - rewrite Hm. apply toDuration_ge; [|unfold Second, Millisecond; lia].
    assert (Hq : (inject_Z Second <= inject_Z (currentInterval b))%Q)
      by now rewrite <- Zle_Qle.
    q_bounds.
Qed.






Lemma NextBackOff_eq b w :
  NextBackOff rt b w
  = (Ret (let next := getRandomValueFromInterval (RandomizationFactor b) (theDraw rt w)
                                                 (currentInterval b) in
          if negb (MaxElapsedTime (incrementCurrentInterval b) =? 0)
             && (MaxElapsedTime (incrementCurrentInterval b)
                 <? now w - startTime b + next)
          then Stop else next,
          incrementCurrentInterval b),
     drawn w).
Proof.
  unfold NextBackOff, bind, GetElapsedTime, randFloat64. cbn.
  fold (theDraw rt w). fold (drawn w).
  destruct (negb _ && _); reflexivity.
Qed.

Lemma MaxElapsedTime_increment b :
  MaxElapsedTime (incrementCurrentInterval b) = MaxElapsedTime b.
Proof. unfold incrementCurrentInterval. destruct (Qle_bool _ _); reflexivity. Qed.

(** One failed attempt of the loop, spelled out. *)
Lemma retryLoop_failed n operation b w e w1 :
  operation w = (Ret (Some e), w1) ->
  retryLoop rt (S n) operation b w
  = let next := getRandomValueFromInterval (RandomizationFactor b) (theDraw rt w1)
                                           (currentInterval b) in
    if negb (MaxElapsedTime b =? 0) && (MaxElapsedTime b <? now w1 - startTime b + next)
    then (Ret (Some e), drawn w1)
    else if next =? Stop then (Ret (Some e), drawn w1)
    else retryLoop rt n operation (incrementCurrentInterval b) (waited rt next (drawn w1)).
Proof.
  intros H. cbn [retryLoop]. rewrite (bind_ret _ _ _ H).
  rewrite (bind_ret _ _ _ (NextBackOff_eq b w1)).
  rewrite MaxElapsedTime_increment. cbv zeta.
  destruct (negb _ && _); [reflexivity|].
  destruct (_ =? Stop); [reflexivity|].
  reflexivity.
Qed.

Lemma retryLoop_succeeded n operation b w w1 :
  operation w = (Ret None, w1) ->
  retryLoop rt (S n) operation b w = (Ret None, w1).
Proof. intros H. cbn [retryLoop]. now rewrite (bind_ret _ _ _ H). Qed.


Lemma retryLoop_panicked n operation b w r w1 :
  operation w = (Panic r, w1) ->
  retryLoop rt (S n) operation b w = (Panic r, w1).
Proof. intros H. cbn [retryLoop]. now rewrite (bind_panic _ _ _ H). Qed.

(** The loop needs no more attempts than the cap allows minimal waits. *)
Lemma retryLoop_total cap operation :
  0 < cap ->
  comesBack operation ->
  forall n b w,
    configured cap b -> Second <= currentInterval b ->
    cap - (now w - startTime b) < minWait * Z.of_nat n ->
    (1 <= n)%nat ->
    fst (retryLoop rt n operation b w) <> OutOfFuel.
Proof.
  intros Hcap Hback. induction n as [|n IH]; intros b w Hb Hcur Hfuel Hn.
  - lia.
  - destruct (Hback w) as (o & w1 & Hop & Ho & Hmono).
    destruct o as [[e|] | r |].
    + rewrite (@retryLoop_failed n operation b w e w1 Hop).
      destruct Hb as (Hi & Hm & Hf & Hx & Hc).
      rewrite Hc, Hf. cbv zeta.
      pose proof (getRandomValueFromInterval_ge (theDraw_nonneg w1) Hcur) as Hnext.
      set (next := getRandomValueFromInterval (1 # 10)%Q (theDraw rt w1) (currentInterval b))
        in *.
      replace (negb (cap =? 0)) with true
        by (symmetry; apply negb_true_iff, Z.eqb_neq; lia).
      cbn [andb].
      destruct (Z.ltb_spec cap (now w1 - startTime b + next)) as [Hstop|Hgo];
        [discriminate|].
      replace (next =? Stop) with false
        by (symmetry; apply Z.eqb_neq; unfold Stop, minWait, Millisecond in *; lia).
      assert (Hb' : configured cap b) by (repeat split; assumption).
      destruct (incrementCurrentInterval_ge Hb' Hcur) as [Hb2 Hcur2].
      assert (Hstart2 : startTime (incrementCurrentInterval b) = startTime b).
      { unfold incrementCurrentInterval. destruct (Qle_bool _ _); reflexivity. }
      clearbody next.
      apply IH; try assumption.
      * rewrite Hstart2. unfold waited, drawn. cbn [now draws].
        unfold minWait, Millisecond in *. lia.
      * unfold minWait, Millisecond in *. lia.
    + rewrite (@retryLoop_succeeded n operation b w w1 Hop). discriminate.
    + rewrite (@retryLoop_panicked n operation b w r w1 Hop). discriminate.
    + contradiction.
Qed.

(** When the loop returns nil, its last attempt returned nil, and nothing
    happened after it. *)
Lemma retryLoop_nil_inv operation :
  forall n b w w',
    retryLoop rt n operation b w = (Ret None, w') ->
    exists wLast, operation wLast = (Ret None, w').
Proof.
  induction n as [|n IH]; intros b w w' H.
  - discriminate.
  - destruct (operation w) as [[[e|] | r |] w1] eqn:Hop.
    + rewrite (@retryLoop_failed n operation b w e w1 Hop) in H. cbv zeta in H.
      destruct (negb _ && _); [discriminate|].
      destruct (_ =? Stop); [discriminate|].
      now apply IH in H.
    + rewrite (@retryLoop_succeeded n operation b w w1 Hop) in H. inversion H; subst. now exists w.
    + rewrite (@retryLoop_panicked n operation b w r w1 Hop) in H. discriminate.
    + cbn [retryLoop] in H. rewrite (bind_outOfFuel _ _ _ Hop) in H. discriminate.
Qed.

Lemma NewExponentialBackOff_eq w :
  NewExponentialBackOff w = (Ret (newBackOff (now w)), w).
Proof. reflexivity. Qed.

Lemma RetryNotify_eq fuel operation b w :
  RetryNotify rt fuel operation b w = retryLoop rt fuel operation (resetAt (now w) b) w.
Proof. reflexivity. Qed.

Lemma configure_configured cap t :
  configured cap (resetAt t (configure (1 * Second) 2 (1 # 10) cap (newBackOff t)))
  /\ Second <= currentInterval
                 (resetAt t (configure (1 * Second) 2 (1 # 10) cap (newBackOff t))).
Proof. split; [repeat split|]; cbn; unfold Second, Millisecond; lia. Qed.


Lemma configured_RetryNotify_total cap fuel operation w :
  0 < cap <= 2 * Minute ->
  (134 <= fuel)%nat ->
  comesBack operation ->
  fst (RetryNotify rt fuel operation
                   (configure (1 * Second) 2 (1 # 10) cap (newBackOff (now w))) w)
  <> OutOfFuel.
Proof.
  intros Hcap Hfuel Hback. rewrite RetryNotify_eq.
  destruct (configure_configured cap (now w)) as [Hb Hcur].
  apply (@retryLoop_total cap operation (proj1 Hcap) Hback fuel _ w Hb Hcur).
  - cbn [startTime resetAt]. unfold minWait, Minute, Second, Millisecond in *. lia.
  - lia.
Qed.

End RetryLoop.

(* ------------------------------------------------------------------ *)
(** * PollJobStatus *)

Lemma PollJobStatus_eq rt fuel c uuid w :
  PollJobStatus rt fuel c (jobLink uuid) w
  = match pollLoop rt fuel c uuid w with
    | (Ret None, w1) =>
        (finalVerdict uuid (Cluster_JobGet (api c) (log w1) (jobGetParams uuid)),
         issued (api c) (client.JobGet (jobGetParams uuid)) w1)
    | other => other
    end.
Proof.
  unfold PollJobStatus, jobLink, pollLoop.
  cbn [deref]. rewrite bind_ret_l. cbn [models.Job_ models.JobLink_UUID].
  rewrite (bind_ret _ _ _ (NewExponentialBackOff_eq w)).
  unfold bind at 1.
  destruct (backoff.RetryNotify _ _ _ _ w) as [[[e|] | r |] w1]; try reflexivity.
  rewrite (bind_ret _ _ _ (JobGet_eq c uuid w1)).
  destruct (Cluster_JobGet _ _ _) as [[[[job|]]|] [e|]]; try reflexivity.
  cbn. destruct (models.Job_State job) as [s|]; [|reflexivity].
  destruct (String.eqb s _); [reflexivity|].
  destruct (String.eqb s _); reflexivity.
Qed.

Lemma checkJobStatus_comesBack c payload uuid : comesBack (checkJobStatus c payload uuid).
Proof.
  intros w.
  destruct (checkJobStatus c payload uuid w) as [o w'] eqn:E.
  exists o, w'. split; [reflexivity|].
  unfold checkJobStatus, IsJobFinished in E.
  destruct payload as [[[[[jobUUID|]]|]]|];
    try (inversion E; subst; split; [discriminate|lia]).
  cbn [models.Job_ models.JobLink_UUID] in E.
  rewrite bind_assoc, (bind_ret _ _ _ (JobGet_eq c jobUUID w)) in E.
  assert (Hnow : now w <= now (issued (api c) (client.JobGet (jobGetParams jobUUID)) w))
    by (cbn; lia).
  destruct (Cluster_JobGet _ _ _) as [[[[job|]]|] [e|]];
    try (inversion E; subst; split; [discriminate|exact Hnow]).
  cbv [bind ret deref] in E. cbn [Payload] in E.
  destruct (models.Job_State job) as [s|];
    [|inversion E; subst; split; [discriminate|exact Hnow]].
  repeat (destruct (String.eqb s _);
          [inversion E; subst; split; [discriminate|exact Hnow]|]).
  inversion E; subst; split; [discriminate|exact Hnow].
Qed.

(** [PollJobStatus] returns nil exactly when the loop ended well and the job
    fetched after it is in state success. *)
Lemma PollJobStatus_nil_iff rt fuel c uuid w w' :
  PollJobStatus rt fuel c (jobLink uuid) w = (Ret None, w') <->
  exists w1 job,
    pollLoop rt fuel c uuid w = (Ret None, w1)
    /\ Cluster_JobGet (api c) (log w1) (jobGetParams uuid)
       = (Some {| Payload := Some job |}, None)
    /\ models.Job_State job = Some models.JobStateSuccess
    /\ w' = issued (api c) (client.JobGet (jobGetParams uuid)) w1.
Proof.
  split.
  - rewrite PollJobStatus_eq.
    destruct (pollLoop rt fuel c uuid w) as [[[e|] | r |] w1]; try discriminate.
    destruct (Cluster_JobGet _ _ _) as [[[[job|]]|] [e|]] eqn:Hf; try discriminate.
    cbn. destruct (models.Job_State job) as [s|] eqn:Hs; [|discriminate].
    destruct (String.eqb_spec s models.JobStateSuccess) as [->|].
    + intros H. inversion H; subst. exists w1, job. auto.
    + destruct (String.eqb s _); discriminate.
  - intros (w1 & job & Hl & Hf & Hs & ->).
    rewrite PollJobStatus_eq, Hl, Hf. cbn. now rewrite Hs.
Qed.

(** A payload on which [PollJobStatus] returns carries a job with a UUID,
    unless the outcome is one of the two errors for their absence. *)
Lemma PollJobStatus_nil_payload rt fuel c payload w w' :
  PollJobStatus rt fuel c payload w = (Ret None, w') ->
  exists uuid, payload = jobLink uuid.
Proof.
  destruct payload as [[[[[uuid|]]|]]|]; try discriminate.
  intros _. now exists uuid.
Qed.

(** C2.  [PollJobStatus] returns an error for a nil job and for a nil job
    UUID.  Otherwise it runs its polling loop; the loop's error is returned
    as it is; after a loop that ended well the job is fetched again, a fetch
    failure is returned, success gives nil, failure gives the error built
    from the job payload, and every other state (nil included) an error.
    So nil is returned exactly when the loop ended well and the job fetched
    after it is in state success.  With 134 attempts allowed the loop always
    ends. *)
Theorem PollJobStatus_spec (rt : Runtime) (fuel : nat) (c : RestClient) (w : World) :
  (exists e, PollJobStatus rt fuel c (Some {| models.Job_ := None |}) w
             = (Ret (Some e), w))
  /\ (exists e,
        PollJobStatus rt fuel c
          (Some {| models.Job_ := Some {| models.JobLink_UUID := None |} |}) w
        = (Ret (Some e), w))
  /\ forall uuid,
       let fetchAt w1 := Cluster_JobGet (api c) (log w1) (jobGetParams uuid) in
       let after w1 := issued (api c) (client.JobGet (jobGetParams uuid)) w1 in
       (forall e w1,
          pollLoop rt fuel c uuid w = (Ret (Some e), w1) ->
          PollJobStatus rt fuel c (jobLink uuid) w = (Ret (Some e), w1))
       /\ (forall w1,
             pollLoop rt fuel c uuid w = (Ret None, w1) ->
             (forall r e,
                fetchAt w1 = (r, Some e) ->
                PollJobStatus rt fuel c (jobLink uuid) w = (Ret (Some e), after w1))
             /\ (fetchAt w1 = (None, None) ->
                 exists e,
                   PollJobStatus rt fuel c (jobLink uuid) w = (Ret (Some e), after w1))
             /\ (forall job,
                   fetchAt w1 = (Some {| Payload := Some job |}, None) ->
                   (models.Job_State job = Some models.JobStateSuccess ->
                    PollJobStatus rt fuel c (jobLink uuid) w = (Ret None, after w1))
                   /\ (models.Job_State job = Some models.JobStateFailure ->
                       PollJobStatus rt fuel c (jobLink uuid) w
                       = (Ret (Some (NewRestErrorFromPayload (Some job))), after w1))
                   /\ (models.Job_State job <> Some models.JobStateSuccess ->
                       models.Job_State job <> Some models.JobStateFailure ->
                       exists e,
                         PollJobStatus rt fuel c (jobLink uuid) w
                         = (Ret (Some e), after w1))))
       /\ (forall w',
             PollJobStatus rt fuel c (jobLink uuid) w = (Ret None, w') <->
             exists w1 job,
               pollLoop rt fuel c uuid w = (Ret None, w1)
               /\ fetchAt w1 = (Some {| Payload := Some job |}, None)
               /\ models.Job_State job = Some models.JobStateSuccess
               /\ w' = after w1)
       /\ ((134 <= fuel)%nat ->
           fst (PollJobStatus rt fuel c (jobLink uuid) w) <> OutOfFuel).
Proof.
  split; [eexists; reflexivity|].
  split; [eexists; reflexivity|].
  intros uuid fetchAt after. subst fetchAt after. cbv beta.
  split; [|split; [|split]].
  - intros e w1 H. now rewrite PollJobStatus_eq, H.
  - intros w1 H. split; [|split].
    + intros r e H0. rewrite PollJobStatus_eq, H, H0.
      destruct r as [[[job|]]|]; reflexivity.
    + intros H0. rewrite PollJobStatus_eq, H, H0. eexists; reflexivity.
    + intros job H0. split; [|split].
      * intros Hs. rewrite PollJobStatus_eq, H, H0. cbn. now rewrite Hs.
      * intros Hs. rewrite PollJobStatus_eq, H, H0. cbn. now rewrite Hs.
      * intros Hs Hf. rewrite PollJobStatus_eq, H, H0. cbn.
        destruct (models.Job_State job) as [s|]; [|eexists; reflexivity].
        destruct (String.eqb_spec s models.JobStateSuccess) as [->|];
          [contradiction|].
        destruct (String.eqb_spec s models.JobStateFailure) as [->|];
          [contradiction|].
        eexists; reflexivity.
  - intros w'. apply PollJobStatus_nil_iff.
  - intros Hfuel. rewrite PollJobStatus_eq.
    pose proof (@configured_RetryNotify_total rt (2 * backoff.Minute) fuel
                  (checkJobStatus c (jobLink uuid) uuid) w) as Ht.
    unfold pollLoop, jobStatusBackoff.
    destruct (backoff.RetryNotify _ _ _ _ w) as [[[e|] | r |] w1]; try discriminate.
    + destruct (Cluster_JobGet _ _ _) as [[[[job|]]|] [e|]]; try discriminate.
      cbn. destruct (models.Job_State job) as [s|]; [|discriminate].
      destruct (String.eqb s _); [discriminate|].
      destruct (String.eqb s _); discriminate.
    + exfalso. apply Ht; auto using checkJobStatus_comesBack.
      unfold backoff.Minute, backoff.Second, backoff.Millisecond. lia.
Qed.

(* ------------------------------------------------------------------ *)
(** * The polling loops end *)

Lemma waitForVolume_eq rt fuel c volumeName w :
  waitForVolume rt fuel c volumeName w
  = backoff.RetryNotify rt fuel (checkVolumeStatus fuel c volumeName)
                        (volumeStatusBackoff (newBackOff (now w))) w.
Proof.
  unfold waitForVolume. rewrite (bind_ret _ _ _ (NewExponentialBackOff_eq w)).
  unfold bind. destruct (backoff.RetryNotify _ _ _ _ w) as [[[e|] | r |] w1]; reflexivity.
Qed.

Lemma waitForFlexgroup_eq rt fuel c volumeName w :
  waitForFlexgroup rt fuel c volumeName w
  = backoff.RetryNotify rt fuel (checkFlexgroupStatus fuel c volumeName)
                        (flexgroupStatusBackoff (newBackOff (now w))) w.
Proof.
  unfold waitForFlexgroup. rewrite (bind_ret _ _ _ (NewExponentialBackOff_eq w)).
  unfold bind. destruct (backoff.RetryNotify _ _ _ _ w) as [[[e|] | r |] w1]; reflexivity.
Qed.


Lemma waitForQtree_eq rt fuel Qtree
    (QtreeGetByName : string -> string -> M (option Qtree * option error))
    volumeName qtreeName w :
  waitForQtree rt fuel QtreeGetByName volumeName qtreeName w
  = backoff.RetryNotify rt fuel (checkQtreeStatus QtreeGetByName volumeName qtreeName)
                        (qtreeStatusBackoff (newBackOff (now w))) w.
Proof.
  unfold waitForQtree. rewrite (bind_ret _ _ _ (NewExponentialBackOff_eq w)).
  unfold bind. destruct (backoff.RetryNotify _ _ _ _ w) as [[[e|] | r |] w1]; reflexivity.
Qed.


(* ------------------------------------------------------------------ *)
(** * Pagination *)

Section Paging.

Variable R : Type.
Variable fetch :
  option models.Href -> M (option (Response (models.CollectionResponse R)) * option error).
Variable hasNext : models.CollectionResponse R -> bool.

Lemma merge_counted (payload p : models.CollectionResponse R) n :
  models.NumRecords p = Some n ->
  merge payload p = mergePage payload n (models.InlineRecords p).
Proof. intros H. unfold merge. now rewrite H. Qed.

Lemma pagingLoop_follow w next pages err w' :
  follow fetch hasNext w next pages err w' ->
  forall n payload,
    (List.length pages < n)%nat ->
    pagingLoop fetch hasNext n payload next w = (Ret (pagingResult payload pages err), w').
Proof.
  induction 1 as [w next r e w1 Hf | w next r w1 Hf Hu | w next p k w1 Hf Hn Hh
                 | w next p k links w1 pages err w' Hf Hn Hh Hl Hrest IH];
    intros n payload Hlen; (destruct n as [|n]; [cbn in Hlen; lia|]);
    cbn [pagingLoop]; rewrite (bind_ret _ _ _ Hf).
  - reflexivity.
  - destruct r as [[[p|]]|]; try reflexivity.
    cbn in Hu. now rewrite Hu.
  - rewrite Hn, Hh. cbn. now rewrite (merge_counted payload p Hn).
  - rewrite Hn, Hh, Hl. cbn [negb deref]. rewrite bind_ret_l.
    rewrite IH by (cbn in Hlen; lia).
    unfold pagingResult. cbn [fold_left]. now rewrite (merge_counted payload p Hn).
Qed.

Lemma pagingLoop_inv :
  forall n payload next w res w',
    pagingLoop fetch hasNext n payload next w = (Ret res, w') ->
    exists pages err,
      follow fetch hasNext w next pages err w'
      /\ (List.length pages <= n)%nat
      /\ res = pagingResult payload pages err.
Proof.
  induction n as [|n IH]; intros payload next w res w' H; [discriminate|].
  cbn [pagingLoop] in H.
  destruct (fetch next w) as [[[r [e|]] | msg |] w1] eqn:Hf;
    unfold bind in H; rewrite Hf in H; try discriminate.
  - inversion H; subst. exists [], (Some e). split; [|split].
    + eapply follow_error; eauto.
    + cbn; lia.
    + reflexivity.
  - destruct r as [[[p|]]|].
    + destruct (models.NumRecords p) as [k|] eqn:Hn.
      * destruct (hasNext p) eqn:Hh; cbn [negb] in H.
        -- destruct (models.Links_ p) as [links|] eqn:Hl; [|discriminate].
           cbn in H. apply IH in H. destruct H as (pages & err & Hfol & Hlen & ->).
           exists (p :: pages), err. split; [|split].
           ++ eapply follow_more; eauto.
           ++ cbn; lia.
           ++ unfold pagingResult. cbn [fold_left].
              now rewrite (merge_counted payload p Hn).
        -- inversion H; subst. exists [p], None. split; [|split].
           ++ eapply follow_last; eauto.
           ++ cbn; lia.
           ++ cbn. now rewrite (merge_counted payload p Hn).
      * inversion H; subst. exists [], None. split; [|split].
        -- eapply follow_unmergeable; eauto.
        -- cbn; lia.
        -- reflexivity.
    + inversion H; subst. exists [], None. split; [|split].
      * eapply follow_unmergeable; eauto. exact I.
      * cbn; lia.
      * reflexivity.
    + inversion H; subst. exists [], None. split; [|split].
      * eapply follow_unmergeable; eauto. exact I.
      * cbn; lia.
      * reflexivity.
Qed.

Lemma elems_append {A} (s t : option (list A)) : elems (append s t) = elems s ++ elems t.
Proof.
  destruct s as [a|], t as [[|x l]|]; cbn; try reflexivity.
  now rewrite app_nil_r.
Qed.

(** The records of the merge: the initial records, then each page's, in
    fetch order. *)
Lemma merged_records (pages : list (models.CollectionResponse R)) : forall payload,
  elems (models.InlineRecords (fold_left (@merge R) pages payload))
  = elems (models.InlineRecords payload)
    ++ List.concat (map (fun p => elems (models.InlineRecords p)) pages).
Proof.
  induction pages as [|p pages IH]; intros payload; cbn.
  - now rewrite app_nil_r.
  - rewrite IH. unfold merge, mergePage. cbn [models.InlineRecords].
    now rewrite elems_append, app_assoc.
Qed.

Lemma merged_count (pages : list (models.CollectionResponse R)) : forall payload,
  models.NumRecords (fold_left (@merge R) pages payload)
  = match pages with
    | [] => models.NumRecords payload
    | _ => Some (fold_left (fun acc p => wrap64 (acc + count p)) pages (count payload))
    end.
Proof.
  induction pages as [|p pages IH]; intros payload; [reflexivity|].
  cbn [fold_left]. rewrite IH.
  destruct pages; reflexivity.
Qed.

Lemma merged_links (pages : list (models.CollectionResponse R)) : forall payload,
  models.Links_ (fold_left (@merge R) pages payload) = models.Links_ payload.
Proof.
  induction pages as [|p pages IH]; intros payload; [reflexivity|].
  cbn [fold_left]. now rewrite IH.
Qed.

End Paging.

Lemma getAllVolumePayloadRecords_loop_eq c params :
  forall n payload next w,
    getAllVolumePayloadRecords_loop c n payload params next w
    = pagingLoop (api_VolumeCollectionGet c params) volumeHasNext n payload next w.
Proof.
  induction n as [|n IH]; intros payload next w; [reflexivity|].
  cbn [getAllVolumePayloadRecords_loop pagingLoop]. unfold bind at 1 3.
  destruct (api_VolumeCollectionGet c params next w) as [[[r [e|]] | msg |] w1];
    try reflexivity.
  destruct r as [[[p|]]|]; try reflexivity.
  destruct (models.NumRecords p) as [k|]; [|reflexivity].
  fold (volumeHasNext p). destruct (volumeHasNext p); [|reflexivity].
  cbn [negb]. unfold bind. destruct (deref (models.Links_ p) w1) as [[links | msg |] w2];
    try reflexivity.
  apply IH.
Qed.

Lemma AggregateList_loop_eq c params :
  forall n payload next w,
    AggregateList_loop c n payload params next w
    = match pagingLoop (api_AggregateCollectionGet c params) aggregateHasNext
                       n payload next w with
      | (Ret res, w') => (Ret (asOK res), w')
      | (Panic msg, w') => (Panic msg, w')
      | (OutOfFuel, w') => (OutOfFuel, w')
      end.
Proof.
  induction n as [|n IH]; intros payload next w; [reflexivity|].
  cbn [AggregateList_loop pagingLoop]. unfold bind at 1 3.
  destruct (api_AggregateCollectionGet c params next w) as [[[r [e|]] | msg |] w1];
    try reflexivity.
  destruct r as [[[p|]]|]; try reflexivity.
  destruct (models.NumRecords p) as [k|]; [|reflexivity].
  fold (aggregateHasNext p). destruct (aggregateHasNext p); [|reflexivity].
  cbn [negb]. unfold bind. destruct (deref (models.Links_ p) w1) as [[links | msg |] w2];
    try reflexivity.
  apply IH.
Qed.

Lemma NextLoop_eq {R} ty linksTy recordsField recordsTy
    (call : option models.Href ->
            M (option (Response (models.CollectionResponse R)) * option error)) :
  forall n payload next w,
    NextLoop ty linksTy recordsField recordsTy call n payload next w
    = match pagingLoop call
                       (fun p => HasNextLink (Response_iface ty linksTy recordsField
                                                             recordsTy (Some p)))
                       n payload next w with
      | (Ret res, w') => (Ret (asOK res), w')
      | (Panic msg, w') => (Panic msg, w')
      | (OutOfFuel, w') => (OutOfFuel, w')
      end.
Proof.
  induction n as [|n IH]; intros payload next w; [reflexivity|].
  cbn [NextLoop pagingLoop]. unfold bind at 1 3.
  destruct (call next w) as [[[r [e|]] | msg |] w1]; try reflexivity.
  destruct r as [[[p|]]|]; try reflexivity.
  destruct (models.NumRecords p) as [k|]; [|reflexivity].
  destruct (HasNextLink _); [|reflexivity].
  cbn [negb]. unfold bind. destruct (deref (models.Links_ p) w1) as [[links | msg |] w2];
    try reflexivity.
  apply IH.
Qed.

(** [AggregateList] is the shared text over its own call. *)
Lemma AggregateList_collectionList fuel c pattern w :
  AggregateList fuel c pattern w
  = collectionList fuel "models.AggregateResponse" "models.AggregateResponseInlineLinks"
                   "AggregateResponseInlineRecords" "[]*models.Aggregate"
                   (api_AggregateCollectionGet c (aggregateParams pattern)) w.
Proof.
  unfold AggregateList, collectionList. fold (aggregateParams pattern). cbv zeta.
  unfold bind at 1 4.
  destruct (api_AggregateCollectionGet c (aggregateParams pattern) None w)
    as [[[result [e|]] | msg |] w1]; try reflexivity.
  destruct result as [[[p|]]|]; try reflexivity.
  cbn [Payload]. unfold AggregateResponse_iface.
  destruct (HasNextLink _); [|reflexivity].
  cbn [deref]. rewrite !bind_ret_l.
  destruct (models.Links_ p) as [links|]; [|reflexivity].
  cbn [deref]. rewrite !bind_ret_l.
  rewrite AggregateList_loop_eq, NextLoop_eq. reflexivity.
Qed.

Lemma HasNextLink_links {R} ty linksTy recordsField recordsTy
    (p : models.CollectionResponse R) :
  HasNextLink (Response_iface ty linksTy recordsField recordsTy (Some p)) = true ->
  exists links, models.Links_ p = Some links.
Proof.
  rewrite HasNextLink_Response. destruct (models.Links_ p) as [links|]; [|discriminate].
  intros _. now exists links.
Qed.

Lemma pagingResult_mergedAs {R} (p : models.CollectionResponse R) pages :
  mergedAs p (fold_left (@merge R) pages p) pages.
Proof. split; [apply merged_records|apply merged_count]. Qed.

(** C4, as the code has it.  Without a next link on the first page the
    helper returns it unchanged.  With one it fetches page after page: a
    page that arrives with a payload and a record count is merged (its
    records appended, its count added in [int64], a nil initial count
    counting as 0), and the loop goes on while [HasNextLink] holds of the
    merged page; it stops at the first merged page without a next link, and
    at the first page that arrives without response, payload or record
    count, which contributes nothing.  A fetch error is returned with a nil
    result.  The helper returns in no other way, and [AggregateList] does
    the same from its first fetch on, as do the twelve list functions that
    repeat the statements of [AggregateList] over their own call
    ([collectionList]). *)
Theorem pagination_merges (fuel : nat) (c : RestClient) :
  (forall payload params w,
     HasNextLink (VolumeResponse_iface payload) = false ->
     getAllVolumePayloadRecords fuel c payload params w = (Ret (payload, None), w))
  /\ (forall p links params w pages err w',
        HasNextLink (VolumeResponse_iface (Some p)) = true ->
        models.Links_ p = Some links ->
        follow (api_VolumeCollectionGet c params) volumeHasNext
               w (models.Links_Next links) pages err w' ->
        (List.length pages < fuel)%nat ->
        match err with
        | Some e =>
            getAllVolumePayloadRecords fuel c (Some p) params w = (Ret (None, Some e), w')
        | None =>
            exists result,
              getAllVolumePayloadRecords fuel c (Some p) params w
              = (Ret (Some result, None), w')
              /\ mergedAs p result pages
        end)
  /\ (forall p params w res w',
        HasNextLink (VolumeResponse_iface (Some p)) = true ->
        getAllVolumePayloadRecords fuel c (Some p) params w = (Ret res, w') ->
        exists links pages err,
          models.Links_ p = Some links
          /\ follow (api_VolumeCollectionGet c params) volumeHasNext
                    w (models.Links_Next links) pages err w'
          /\ res = pagingResult p pages err)
  /\ (forall pattern w,
        let w1 := issued (api c) (AggregateCollectionGet (aggregateParams pattern) None) w in
        let first :=
          Storage_AggregateCollectionGet (api c) (log w) (aggregateParams pattern) None in
        (forall r e, first = (r, Some e) ->
                     AggregateList fuel c pattern w = (Ret (None, Some e), w1))
        /\ (first = (None, None) ->
            AggregateList fuel c pattern w = (Ret (None, None), w1))
        /\ (forall r, first = (Some r, None) ->
                      HasNextLink (AggregateResponse_iface (Payload r)) = false ->
                      AggregateList fuel c pattern w = (Ret (Some r, None), w1))
        /\ (forall p links pages err w',
              first = (Some {| Payload := Some p |}, None) ->
              HasNextLink (AggregateResponse_iface (Some p)) = true ->
              models.Links_ p = Some links ->
              follow (api_AggregateCollectionGet c (aggregateParams pattern))
                     aggregateHasNext w1 (models.Links_Next links) pages err w' ->
              (List.length pages < fuel)%nat ->
              match err with
              | Some e => AggregateList fuel c pattern w = (Ret (None, Some e), w')
              | None =>
                  exists result,
                    AggregateList fuel c pattern w
                    = (Ret (Some {| Payload := Some result |}, None), w')
                    /\ mergedAs p result pages
              end))
  /\ (forall R ty linksTy recordsField recordsTy
             (call : option models.Href ->
                     M (option (Response (models.CollectionResponse R)) * option error))
             w first w1,
        let list := collectionList fuel ty linksTy recordsField recordsTy call in
        let hasNext :=
          fun p => HasNextLink (Response_iface ty linksTy recordsField recordsTy
                                               (Some p)) in
        call None w = (Ret first, w1) ->
        (forall r e, first = (r, Some e) -> list w = (Ret (None, Some e), w1))
        /\ (first = (None, None) -> list w = (Ret (None, None), w1))
        /\ (forall r, first = (Some r, None) ->
                      HasNextLink (Response_iface ty linksTy recordsField recordsTy
                                                  (Payload r)) = false ->
                      list w = (Ret (Some r, None), w1))
        /\ (forall p links pages err w',
              first = (Some {| Payload := Some p |}, None) ->
              hasNext p = true ->
              models.Links_ p = Some links ->
              follow call hasNext w1 (models.Links_Next links) pages err w' ->
              (List.length pages < fuel)%nat ->
              match err with
              | Some e => list w = (Ret (None, Some e), w')
              | None =>
                  exists result,
                    list w = (Ret (Some {| Payload := Some result |}, None), w')
                    /\ mergedAs p result pages
              end)).
Proof.
  split; [|split; [|split; [|split]]].
  5:{ intros R ty linksTy recordsField recordsTy call w first w1 list hasNext Hcall.
      subst list. unfold collectionList. rewrite (bind_ret _ _ _ Hcall).
      split; [|split; [|split]].
      - intros r e ->. reflexivity.
      - intros ->. reflexivity.
      - intros r -> Hh. rewrite Hh. reflexivity.
      - intros p links pages err w' -> Hh Hl Hfol Hlen.
        cbn [Payload]. unfold hasNext in Hh. rewrite Hh. cbn [deref].
        rewrite bind_ret_l, Hl. cbn [deref]. rewrite bind_ret_l.
        rewrite NextLoop_eq. fold hasNext.
        rewrite (pagingLoop_follow Hfol p Hlen).
        destruct err as [e|]; [reflexivity|].
        eexists. split; [reflexivity|apply pagingResult_mergedAs]. }
  - intros payload params w H. unfold getAllVolumePayloadRecords. now rewrite H.
  - intros p links params w pages err w' Hh Hl Hfol Hlen.
    unfold getAllVolumePayloadRecords. rewrite Hh. cbn [deref].
    rewrite bind_ret_l, Hl. cbn [deref]. rewrite bind_ret_l.
    rewrite getAllVolumePayloadRecords_loop_eq.
    rewrite (pagingLoop_follow Hfol p Hlen).
    destruct err as [e|]; [reflexivity|].
    eexists. split; [reflexivity|apply pagingResult_mergedAs].
  - intros p params w res w' Hh H.
    unfold getAllVolumePayloadRecords in H. rewrite Hh in H. cbn [deref] in H.
    rewrite bind_ret_l in H.
    destruct (HasNextLink_links _ _ _ _ _ Hh) as [links Hl].
    rewrite Hl in H. cbn [deref] in H. rewrite bind_ret_l in H.
    rewrite getAllVolumePayloadRecords_loop_eq in H.
    apply pagingLoop_inv in H. destruct H as (pages & err & Hfol & _ & ->).
    exists links, pages, err. auto.
  - intros pattern w w1 first. subst w1 first.
    assert (Hcall : api_AggregateCollectionGet c (aggregateParams pattern) None w
                    = (Ret (Storage_AggregateCollectionGet (api c) (log w)
                              (aggregateParams pattern) None),
                       issued (api c)
                              (AggregateCollectionGet (aggregateParams pattern) None) w))
      by reflexivity.
    split; [|split; [|split]].
    + intros r e H. unfold AggregateList. fold (aggregateParams pattern).
      cbv zeta. rewrite (bind_ret _ _ _ Hcall), H. reflexivity.
    + intros H. unfold AggregateList. fold (aggregateParams pattern).
      cbv zeta. rewrite (bind_ret _ _ _ Hcall), H. reflexivity.
    + intros r H Hh. unfold AggregateList. fold (aggregateParams pattern).
      cbv zeta. rewrite (bind_ret _ _ _ Hcall), H, Hh. reflexivity.
    + intros p links pages err w' H Hh Hl Hfol Hlen.
      unfold AggregateList. fold (aggregateParams pattern).
      cbv zeta. rewrite (bind_ret _ _ _ Hcall), H. cbn [Payload].
      rewrite Hh. cbn [deref]. rewrite bind_ret_l, Hl. cbn [deref]. rewrite bind_ret_l.
      rewrite AggregateList_loop_eq.
      rewrite (pagingLoop_follow Hfol p Hlen).
      destruct err as [e|]; [reflexivity|].
      eexists. split; [reflexivity|apply pagingResult_mergedAs].
Qed.

(** C4, as stated, fails: the claim has every fetched page's records in the
    result; the records of a page that arrives without a record count are
    dropped. *)
Lemma pagination_drops_uncounted_page :
  let c := staticClient (Some {| Payload := Some uncountedPage |}, None) None in
  let params := volumeQuery "*" "flexvol" None in
  let next := Some {| models.Href_Href := Some "/api/storage/volumes?start.uuid=b"%string |} in
  exists result w',
    getAllVolumePayloadRecords 2 c (Some firstPage) params world0
    = (Ret (Some result, None), w')
    /\ log w' = [VolumeCollectionGet params next]
    /\ Storage_VolumeCollectionGet (api c) [] params next
       = (Some {| Payload := Some uncountedPage |}, None)
    /\ elems (models.InlineRecords result)
       <> elems (models.InlineRecords firstPage)
          ++ elems (models.InlineRecords uncountedPage).
Proof.
  cbv zeta. eexists. eexists.
  split; [vm_compute; reflexivity|].
  split; [reflexivity|].
  split; [reflexivity|].
  cbn. discriminate.
Qed.

(* ------------------------------------------------------------------ *)
(** * The by-name lookup *)

Lemma getVolumeByNameAndStyle_eq fuel c volumeName style w :
  getVolumeByNameAndStyle fuel c volumeName style w
  = match getAllVolumesByPatternStyleAndState fuel c volumeName style
                                              models.VolumeStateOnline w with
    | (Ret (_, Some e), w1) => (Ret (None, Some e), w1)
    | (Ret (result, None), w1) => uniqueVolume volumeName result w1
    | (Panic msg, w1) => (Panic msg, w1)
    | (OutOfFuel, w1) => (OutOfFuel, w1)
    end.
Proof.
  unfold getVolumeByNameAndStyle, bind.
  destruct (getAllVolumesByPatternStyleAndState _ _ _ _ _ w) as [[[r [e|]] | msg |] w1];
    reflexivity.
Qed.

Lemma getVolumeInAnyStateByNameAndStyle_eq fuel c volumeName style w :
  getVolumeInAnyStateByNameAndStyle fuel c volumeName style w
  = match getAllVolumesByPatternStyleAndState fuel c volumeName style "" w with
    | (Ret (_, Some e), w1) => (Ret (None, Some e), w1)
    | (Ret (result, None), w1) => uniqueVolume volumeName result w1
    | (Panic msg, w1) => (Panic msg, w1)
    | (OutOfFuel, w1) => (OutOfFuel, w1)
    end.
Proof.
  unfold getVolumeInAnyStateByNameAndStyle, bind.
  destruct (getAllVolumesByPatternStyleAndState _ _ _ _ _ w) as [[[r [e|]] | msg |] w1];
    reflexivity.
Qed.

(** C8.  After a by-pattern query that returned without error,
    [getVolumeByNameAndStyle] returns (nil, nil) when nothing matched,
    the first record with a nil error when the count is 1 and records are
    there, and an error when the count is above 1; the query's error is
    handed on.  [checkVolumeExistsByNameAndStyle] returns (false, nil) for
    the empty name and leaves the world as it was: no call is issued. *)
Theorem getVolumeByNameAndStyle_spec (fuel : nat) (c : RestClient)
    (volumeName style : string) (w : World) :
  (forall result w1,
     getAllVolumesByPatternStyleAndState fuel c volumeName style
                                         models.VolumeStateOnline w
     = (Ret (result, None), w1) ->
     (matchedNone result ->
      getVolumeByNameAndStyle fuel c volumeName style w = (Ret (None, None), w1))
     /\ (forall payload volume rest,
           result = Some {| Payload := Some payload |} ->
           models.NumRecords payload = Some 1 ->
           models.InlineRecords payload = Some (volume :: rest) ->
           getVolumeByNameAndStyle fuel c volumeName style w = (Ret (volume, None), w1))
     /\ (forall payload n,
           result = Some {| Payload := Some payload |} ->
           models.NumRecords payload = Some n ->
           1 < n ->
           exists e,
             getVolumeByNameAndStyle fuel c volumeName style w
             = (Ret (None, Some e), w1)))
  /\ (forall result e w1,
        getAllVolumesByPatternStyleAndState fuel c volumeName style
                                            models.VolumeStateOnline w
        = (Ret (result, Some e), w1) ->
        getVolumeByNameAndStyle fuel c volumeName style w = (Ret (None, Some e), w1))
  /\ checkVolumeExistsByNameAndStyle fuel c "" style w = (Ret (false, None), w).
Proof.
  split; [|split].
  - intros result w1 H. rewrite getVolumeByNameAndStyle_eq, H. split; [|split].
    + intros Hnone. destruct result as [[[payload|]]|]; try reflexivity.
      cbn in Hnone |- *. destruct Hnone as [-> | ->]; reflexivity.
    + intros payload volume rest -> Hn Hr. cbn. rewrite Hn, Hr. reflexivity.
    + intros payload n -> Hn Hgt. cbn. rewrite Hn.
      replace (n =? 0) with false by (symmetry; apply Z.eqb_neq; lia).
      replace (n =? 1) with false by (symmetry; apply Z.eqb_neq; lia).
      eexists; reflexivity.
  - intros result e w1 H. now rewrite getVolumeByNameAndStyle_eq, H.
  - reflexivity.
Qed.

(* ------------------------------------------------------------------ *)
(** * Which calls a piece of client code issues *)

Lemma extendsBy_refl P w : extendsBy P w w.
Proof. exists []. now rewrite app_nil_r. Qed.

Lemma extendsBy_trans P w1 w2 w3 :
  extendsBy P w1 w2 -> extendsBy P w2 w3 -> extendsBy P w1 w3.
Proof.
  intros (l1 & H1 & F1) (l2 & H2 & F2). exists (l1 ++ l2).
  rewrite H2, H1, app_assoc, forallb_app, F1, F2. auto.
Qed.

Lemma extendsBy_same_log P w w' : log w' = log w -> extendsBy P w w'.
Proof. intros H. exists []. now rewrite app_nil_r. Qed.

Lemma footprint_ret {A} P (a : A) : footprint P (ret a).
Proof. intros w o w' H. inversion H; subst. apply extendsBy_refl. Qed.

Lemma footprint_panic {A} P msg : footprint P (@panic A msg).
Proof. intros w o w' H. inversion H; subst. apply extendsBy_refl. Qed.

Lemma footprint_outOfFuel {A} P : footprint P (@outOfFuel A).
Proof. intros w o w' H. inversion H; subst. apply extendsBy_refl. Qed.

Lemma footprint_deref {A} P (p : option A) : footprint P (deref p).
Proof. destruct p; [apply footprint_ret|apply footprint_panic]. Qed.

Lemma footprint_index0 {A} P (s : option (list A)) : footprint P (index0 s).
Proof.
  unfold index0. destruct (elems s); [apply footprint_panic|apply footprint_ret].
Qed.

Lemma footprint_bind {A B} P (m : M A) (k : A -> M B) :
  footprint P m -> (forall a, footprint P (k a)) -> footprint P (bind m k).
Proof.
  intros Hm Hk w o w' H. unfold bind in H.
  destruct (m w) as [[a | msg |] w1] eqn:E.
  - eapply extendsBy_trans; [eapply Hm; eauto|eapply Hk; eauto].
  - inversion H; subst. eapply Hm; eauto.
  - inversion H; subst. eapply Hm; eauto.
Qed.

Lemma footprint_issue {R} P (a : API) call (answer : list Call -> R) :
  P call = true -> footprint P (issue a call answer).
Proof.
  intros HP w o w' H. inversion H; subst. exists [call]. cbn. now rewrite HP.
Qed.

Lemma footprint_quiet {A} P (m : M A) :
  (forall w o w', m w = (o, w') -> log w' = log w) -> footprint P m.
Proof. intros Hq w o w' H. apply extendsBy_same_log. eauto. Qed.

(** Break a footprint goal along the structure of the code. *)
Ltac footprint_step :=
  match goal with
  | |- footprint _ (bind _ _) => apply footprint_bind; [|intros]
  | |- footprint _ (ret _) => apply footprint_ret
  | |- footprint _ (panic _) => apply footprint_panic
  | |- footprint _ outOfFuel => apply footprint_outOfFuel
  | |- footprint _ (deref _) => apply footprint_deref
  | |- footprint _ (index0 _) => apply footprint_index0
  | |- footprint _ (issue _ _ _) => apply footprint_issue; reflexivity
  | |- footprint _ (match ?x with _ => _ end) => destruct x
  | |- footprint _ (let (_, _) := ?x in _) => destruct x
  end.

Lemma footprint_retryLoop P rt operation :
  footprint P operation ->
  forall n b, footprint P (backoff.retryLoop rt n operation b).
Proof.
  intros Hop. induction n as [|n IH]; intros b; cbn [backoff.retryLoop].
  - apply footprint_outOfFuel.
  - repeat footprint_step; try exact Hop.
    + apply footprint_quiet. intros w o w' H. rewrite NextBackOff_eq in H.
      now inversion H.
    + apply footprint_quiet. intros w o w' H. now inversion H.
    + apply IH.
Qed.

Lemma footprint_RetryNotify P rt fuel operation b :
  footprint P operation -> footprint P (backoff.RetryNotify rt fuel operation b).
Proof.
  intros Hop. unfold backoff.RetryNotify. apply footprint_bind.
  - apply footprint_quiet. intros w o w' H. now inversion H.
  - intros b'. now apply footprint_retryLoop.
Qed.

Lemma footprint_NewExponentialBackOff P : footprint P backoff.NewExponentialBackOff.
Proof. apply footprint_quiet. intros w o w' H. now inversion H. Qed.

Lemma footprint_JobGet c uuid : footprint isJobGet (JobGet c uuid).
Proof. unfold JobGet, api_JobGet. now apply footprint_issue. Qed.

Lemma footprint_IsJobFinished c payload : footprint isJobGet (IsJobFinished c payload).
Proof.
  unfold IsJobFinished.
  repeat first [apply footprint_JobGet | footprint_step].
Qed.

Lemma footprint_PollJobStatus rt fuel c payload :
  footprint isJobGet (PollJobStatus rt fuel c payload).
Proof.
  unfold PollJobStatus.
  repeat first [apply footprint_JobGet | apply footprint_NewExponentialBackOff
               | apply footprint_RetryNotify | footprint_step].
  unfold checkJobStatus.
  repeat first [apply footprint_IsJobFinished | footprint_step].
Qed.

Lemma footprint_getAllVolumePayloadRecords_loop c params :
  forall n payload next,
    footprint isVolumeCollectionGet
              (getAllVolumePayloadRecords_loop c n payload params next).
Proof.
  induction n as [|n IH]; intros payload next; cbn [getAllVolumePayloadRecords_loop].
  - apply footprint_outOfFuel.
  - unfold api_VolumeCollectionGet.
    repeat first [apply IH | footprint_step].
Qed.

Lemma footprint_getAllVolumesByPatternStyleAndState fuel c pattern style state :
  footprint isVolumeCollectionGet
            (getAllVolumesByPatternStyleAndState fuel c pattern style state).
Proof.
  unfold getAllVolumesByPatternStyleAndState, getAllVolumePayloadRecords,
    api_VolumeCollectionGet.
  repeat first [apply footprint_getAllVolumePayloadRecords_loop | footprint_step].
Qed.

Lemma footprint_uniqueVolume P volumeName result : footprint P (uniqueVolume volumeName result).
Proof. unfold uniqueVolume. repeat footprint_step. Qed.

Lemma footprint_lookupOf fuel c o : footprint isVolumeCollectionGet (lookupOf fuel c o).
Proof.
  destruct o; cbn [lookupOf];
    unfold getVolumeByNameAndStyle, getVolumeInAnyStateByNameAndStyle;
    repeat first [apply footprint_getAllVolumesByPatternStyleAndState
                 | apply footprint_uniqueVolume | footprint_step].
Qed.

Lemma optionString_eqb_refl a : optionString_eqb a a = true.
Proof. destruct a; cbn; [apply String.eqb_refl|reflexivity]. Qed.

Lemma isQueryOf_refl params next :
  isQueryOf params (VolumeCollectionGet params next) = true.
Proof.
  cbn. unfold sameQuery. rewrite !optionString_eqb_refl.
  destruct (list_eq_dec string_dec _ _); [reflexivity|contradiction].
Qed.

Lemma footprint_pages c params :
  forall n payload next,
    footprint (isQueryOf params)
              (getAllVolumePayloadRecords_loop c n payload params next).
Proof.
  induction n as [|n IH]; intros payload next; cbn [getAllVolumePayloadRecords_loop].
  - apply footprint_outOfFuel.
  - unfold api_VolumeCollectionGet.
    apply footprint_bind; [apply footprint_issue, isQueryOf_refl|].
    intros [resultNext errNext].
    repeat first [apply IH | footprint_step].
Qed.

Lemma footprint_one_query (fuel : nat) (c : RestClient)
    (pattern style state : string) :
  footprint (isQueryOf (queryFor c pattern style state))
            (getAllVolumesByPatternStyleAndState fuel c pattern style state).
Proof.
  unfold getAllVolumesByPatternStyleAndState.
  destruct (negb (String.eqb style models.VolumeStyleFlexvol)
            && negb (String.eqb style models.VolumeStyleFlexgroup));
    [apply footprint_ret|].
  destruct (negb (existsb (String.eqb state) validStates)); [apply footprint_ret|].
  fold (queryFor c pattern style state).
  unfold api_VolumeCollectionGet.
  apply footprint_bind; [apply footprint_issue, isQueryOf_refl|].
  intros [result err]. destruct err as [e|]; [apply footprint_ret|].
  destruct result as [result|]; [|apply footprint_ret].
  apply footprint_bind; [|intros [payload err]; apply footprint_ret].
  unfold getAllVolumePayloadRecords.
  repeat first [apply footprint_pages | footprint_step].
Qed.

(* ------------------------------------------------------------------ *)
(** * The by-name operations: lookup, at most one mutating call, polling *)

Lemma mutatesThenPolls_refl w : mutatesThenPolls w w.
Proof. exists [], []. cbn. rewrite app_nil_r. auto. Qed.

Lemma tailShape_ret {A} (a : A) : tailShape (ret a).
Proof. intros w o w' H. inversion H; subst. apply mutatesThenPolls_refl. Qed.

Lemma tailShape_panic {A} msg : tailShape (@panic A msg).
Proof. intros w o w' H. inversion H; subst. apply mutatesThenPolls_refl. Qed.

Lemma tailShape_deref_bind {A B} (p : option A) (k : A -> M B) :
  (forall a, tailShape (k a)) -> tailShape (bind (deref p) k).
Proof.
  intros Hk. destruct p as [a|]; cbn [deref].
  - intros w o w' H. rewrite bind_ret_l in H. eapply Hk; eauto.
  - intros w o w' H. inversion H; subst. apply mutatesThenPolls_refl.
Qed.

(** One mutating call, then code that only fetches jobs. *)
Lemma tailShape_issue_bind {R B} (a : API) call (answer : list Call -> R)
    (k : R -> M B) :
  mutating call = true ->
  (forall r, footprint isJobGet (k r)) ->
  tailShape (bind (issue a call answer) k).
Proof.
  intros Hmut Hk w o w' H. rewrite (bind_ret _ _ _ (issue_eq a call answer w)) in H.
  apply Hk in H. destruct H as (polls & Hlog & Hpolls).
  exists [call], polls. cbn [log issued] in Hlog. rewrite Hlog, <- app_assoc.
  cbn. rewrite Hmut. auto.
Qed.

Lemma tailShape_volumeModifyAndPoll rt fuel c params :
  tailShape (volumeModifyAndPoll rt fuel c params).
Proof.
  unfold volumeModifyAndPoll, api_VolumeModify.
  apply tailShape_issue_bind; [reflexivity|].
  intros r. repeat first [apply footprint_PollJobStatus | footprint_step].
Qed.

Ltac tailShape_step :=
  match goal with
  | |- tailShape (ret _) => apply tailShape_ret
  | |- tailShape (volumeModifyAndPoll _ _ _ _) => apply tailShape_volumeModifyAndPoll
  | |- tailShape (bind (deref _) _) => apply tailShape_deref_bind; intros
  | |- tailShape (bind (issue _ _ _) _) =>
      apply tailShape_issue_bind;
      [reflexivity
      |intros; repeat first [apply footprint_PollJobStatus | footprint_step]]
  | |- tailShape (match ?x with _ => _ end) => destruct x
  | |- tailShape (let (_, _) := ?x in _) => destruct x
  end.

Lemma footprint_lookupOfMutating fuel c o :
  footprint isVolumeCollectionGet (lookupOfMutating fuel c o).
Proof.
  destruct o as [o| | | |]; cbn [lookupOfMutating];
    [apply footprint_lookupOf|..];
    unfold VolumeGetByName, FlexGroupGetByName, getVolumeByNameAndStyle;
    repeat first [apply footprint_getAllVolumesByPatternStyleAndState
                 | apply footprint_uniqueVolume | footprint_step].
Qed.

(** Each operation is its lookup followed by code that issues at most one
    mutating call and then only fetches jobs. *)
Lemma runMutating_split conv rt fuel c o :
  exists (k : option models.Volume * option error -> M (option error)),
    runMutating conv rt fuel c o = bind (lookupOfMutating fuel c o) k
    /\ forall a, tailShape (k a).
Proof.
  destruct o as [o| | | |]; [destruct o|..];
    cbn [runMutating runOp lookupOfMutating lookupOf];
    (eexists; split; [reflexivity|]); intros [volume err]; cbv beta iota;
    unfold api_VolumeDelete; repeat tailShape_step.
Qed.

(** What an operation does once its lookup has returned. *)
Lemma runMutating_decompose conv rt fuel c o w out w' :
  runMutating conv rt fuel c o w = (out, w') ->
  exists w1, extendsBy isVolumeCollectionGet w w1 /\ mutatesThenPolls w1 w'.
Proof.
  intros H.
  destruct (runMutating_split conv rt fuel c o) as (k & Heq & Hk).
  rewrite Heq in H. unfold bind in H.
  destruct (lookupOfMutating fuel c o w) as [[a | msg |] w1] eqn:El.
  - exists w1. split; [eapply footprint_lookupOfMutating; eauto|eapply Hk; eauto].
  - inversion H; subst. exists w'.
    split; [eapply footprint_lookupOfMutating; eauto|apply mutatesThenPolls_refl].
  - inversion H; subst. exists w'.
    split; [eapply footprint_lookupOfMutating; eauto|apply mutatesThenPolls_refl].
Qed.

Lemma volumeModifyAndPoll_eq rt fuel c params w :
  volumeModifyAndPoll rt fuel c params w
  = callThenPoll rt fuel c (Storage_VolumeModify (api c) (log w) params)
                 "unexpected response from volume modify"
                 (issued (api c) (VolumeModify params) w).
Proof.
  unfold volumeModifyAndPoll, api_VolumeModify.
  rewrite (bind_ret _ _ _ (issue_eq _ _ _ w)).
  destruct (Storage_VolumeModify _ _ _) as [[accepted|] [e|]]; reflexivity.
Qed.

Lemma volumeDeleteAndPoll_eq rt fuel c params nilResponse w :
  bind (api_VolumeDelete c params)
       (fun '(volumeDeleteAccepted, err) =>
          match err with
          | Some e => ret (Some e)
          | None =>
              match volumeDeleteAccepted with
              | None => ret (Some (Errorf nilResponse))
              | Some accepted => PollJobStatus rt fuel c (Payload accepted)
              end
          end) w
  = callThenPoll rt fuel c (Storage_VolumeDelete (api c) (log w) params) nilResponse
                 (issued (api c) (VolumeDelete params) w).
Proof.
  unfold api_VolumeDelete.
  rewrite (bind_ret _ _ _ (issue_eq _ _ _ w)).
  destruct (Storage_VolumeDelete _ _ _) as [[accepted|] [e|]]; reflexivity.
Qed.

(** Unfolds the operation a goal is about, down to its lookup. *)
Ltac unfold_operation :=
  cbn [runMutating runOp lookupOfMutating lookupOf] in *;
  unfold setVolumeSizeByNameAndStyle, mountVolumeByNameAndStyle,
    unmountVolumeByNameAndStyle, renameVolumeByNameAndStyle,
    destroyVolumeByNameAndStyle, modifyVolumeExportPolicyByNameAndStyle,
    modifyVolumeUnixPermissionsByNameAndStyle, setVolumeCommentByNameAndStyle,
    setVolumeQosPolicyGroupNameByNameAndStyle, startCloneSplitByNameAndStyle,
    restoreSnapshotByNameAndStyle, VolumeModifySnapshotDirectoryAccess,
    FlexGroupVolumeModifySnapshotDirectoryAccess, quotaModify, FlexGroupDestroy.

(** C5, as the code has it.  For each of the fifteen operations that
    modify or delete an existing volume by name (the eleven
    [...ByNameAndStyle] operations, [VolumeModifySnapshotDirectoryAccess],
    [FlexGroupVolumeModifySnapshotDirectoryAccess], [quotaModify] and
    [FlexGroupDestroy]):
    - a failed lookup is returned as it is, with no call after the lookup;
    - a lookup that finds no volume ends the operation with no call after
      it, with the error [whenMissing] gives, which is an error except for
      [unmountVolumeByNameAndStyle] and [FlexGroupDestroy], which return
      nil;
    - on a volume found with its UUID the operation carries out its plan:
      it returns at once, or it sends the one request [planOf] gives to the
      controller and polls the job of the controller's answer to that
      request;
    - the call of every plan is a mutating one;
    - however an operation ends, the calls it issued are lookups, then at
      most one mutating call, then job fetches. *)
Theorem byName_operations_shape (conv : string -> string * option error)
    (rt : Runtime) (fuel : nat) (c : RestClient) (o : MutatingOp) (w : World) :
  (forall r e w1,
     lookupOfMutating fuel c o w = (Ret (r, Some e), w1) ->
     runMutating conv rt fuel c o w = (Ret (Some e), w1))
  /\ (forall w1,
        lookupOfMutating fuel c o w = (Ret (None, None), w1) ->
        runMutating conv rt fuel c o w = (Ret (whenMissing o), w1)
        /\ if missingIsDone o then whenMissing o = None
           else exists e, whenMissing o = Some e)
  /\ (forall volume uuid w1,
        lookupOfMutating fuel c o w = (Ret (Some volume, None), w1) ->
        models.Volume_UUID volume = Some uuid ->
        runMutating conv rt fuel c o w
        = carryOut rt fuel c (planOf conv o volume uuid) w1)
  /\ (forall volume uuid call nilResponse,
        planOf conv o volume uuid = Mutate call nilResponse ->
        mutating call = true)
  /\ (forall out w',
        runMutating conv rt fuel c o w = (out, w') ->
        exists lookups mut polls,
          log w' = log w ++ lookups ++ mut ++ polls
          /\ forallb isVolumeCollectionGet lookups = true
          /\ forallb mutating mut = true
          /\ (List.length mut <= 1)%nat
          /\ forallb isJobGet polls = true).
Proof.
  split; [|split; [|split; [|split]]].
  - intros r e w1 H.
    destruct o as [o| | | |]; [destruct o|..]; unfold_operation;
      unfold VolumeGetByName, FlexGroupGetByName in *;
      rewrite (bind_ret _ _ _ H); reflexivity.
  - intros w1 H.
    destruct o as [o| | | |]; [destruct o|..]; unfold_operation;
      unfold VolumeGetByName, FlexGroupGetByName in *;
      rewrite (bind_ret _ _ _ H); cbn [whenMissing missingIsDone volumeNameOf];
      (split; [reflexivity|]); first [reflexivity | eexists; reflexivity].
  - intros volume uuid w1 H Hid.
    destruct o as [o| | | |]; [destruct o|..]; unfold_operation;
      unfold VolumeGetByName, FlexGroupGetByName in *;
      rewrite (bind_ret _ _ _ H), ?Hid; cbn [deref]; rewrite ?bind_ret_l;
      cbn [planOf]; unfold volumeModify.
    all: try (destruct (conv newSize) as [sizeBytesStr ?]; cbn [fst];
              destruct (strconv.ParseUint sizeBytesStr) as [sizeBytes ?]; cbn [fst]).
    all: try (destruct (nasPathIs volume _); [reflexivity|]).
    all: try (destruct (quotaIs volume _); [reflexivity|]).
    all: try (destruct (String.eqb unixPermissions ""); cbn [negb];
              [|destruct (strconv.ParseInt _) as [volumePermissions [parseErr|]];
                [reflexivity|]]).
    all: try (destruct (isInvalidKind _); cbn [negb]; [reflexivity|];
              destruct (String.eqb (Qos_Name qosPolicyGroup) ""); cbn [negb];
              [reflexivity|]).
    all: cbn [carryOut]; first [apply volumeModifyAndPoll_eq | apply volumeDeleteAndPoll_eq].
  - intros volume uuid call nilResponse H.
    destruct o as [o| | | |]; [destruct o|..]; cbn [planOf] in H; unfold volumeModify in H.
    all: repeat match type of H with
                | (if ?b then _ else _) = _ => destruct b
                | (match ?x with _ => _ end) = _ => destruct x
                end.
    all: first [discriminate H | inversion H; reflexivity].
  - intros out w' H. apply runMutating_decompose in H.
    destruct H as (w1 & (lookups & Hl & Fl) & (mut & polls & Hm & Fm & Lm & Fp)).
    exists lookups, mut, polls. rewrite Hm, Hl, <- app_assoc. auto.
Qed.

(** C5, as stated, fails: the claim has every operation return an error
    when the lookup finds no volume; [unmountVolumeByNameAndStyle] returns
    nil. *)
Lemma unmount_of_missing_volume_returns_nil :
  let c := staticClient (onePage None 0) None in
  exists w1,
    lookupOf 1 c (UnmountVolume "vol" "flexvol") world0 = (Ret (None, None), w1)
    /\ runOp plainBytes runtime0 1 c (UnmountVolume "vol" "flexvol") world0
       = (Ret None, w1).
Proof. cbv zeta. eexists. split; vm_compute; reflexivity. Qed.

(** C9 (the code departs from the claim).  The lookup returns a volume
    record whose UUID is nil.  [renameVolumeByNameAndStyle] and
    [setVolumeQosPolicyGroupNameByNameAndStyle] dereference it and panic,
    where [setVolumeSizeByNameAndStyle] and the other operations return the
    error. *)
Theorem rename_and_qos_dereference_nil_uuid :
  let c := staticClient (onePage (Some [Some (volumeNamed None "vol" None)]) 1) None in
  let qos := {| Qos_Name := "gold"; Qos_Kind := QosPolicyGroupKind |} in
  fst (getVolumeByNameAndStyle 1 c "vol" "flexvol" world0)
  = Ret (Some (volumeNamed None "vol" None), None)
  /\ fst (renameVolumeByNameAndStyle runtime0 1 c "vol" "vol2" "flexvol" world0)
     = Panic nilDeref
  /\ fst (setVolumeQosPolicyGroupNameByNameAndStyle runtime0 1 c "vol" qos "flexvol" world0)
     = Panic nilDeref
  /\ fst (setVolumeSizeByNameAndStyle plainBytes runtime0 1 c "vol" "1073741824" "flexvol"
                                      world0)
     = Ret (Some (Errorf "could not find volume uuid with name vol")).
Proof. cbv zeta. repeat split; vm_compute; reflexivity. Qed.

(** The same for every controller: a found volume without UUID makes the
    two operations panic right after the lookup. *)
Lemma rename_panics_without_uuid rt fuel c volumeName newVolumeName style w volume w1 :
  getVolumeByNameAndStyle fuel c volumeName style w = (Ret (Some volume, None), w1) ->
  models.Volume_UUID volume = None ->
  renameVolumeByNameAndStyle rt fuel c volumeName newVolumeName style w
  = (Panic nilDeref, w1).
Proof.
  intros H Hu. unfold renameVolumeByNameAndStyle.
  rewrite (bind_ret _ _ _ H), Hu. reflexivity.
Qed.

Lemma setVolumeQos_panics_without_uuid rt fuel c volumeName qos style w volume w1 :
  getVolumeByNameAndStyle fuel c volumeName style w = (Ret (Some volume, None), w1) ->
  models.Volume_UUID volume = None ->
  setVolumeQosPolicyGroupNameByNameAndStyle rt fuel c volumeName qos style w
  = (Panic nilDeref, w1).
Proof.
  intros H Hu. unfold setVolumeQosPolicyGroupNameByNameAndStyle.
  rewrite (bind_ret _ _ _ H), Hu. reflexivity.
Qed.

(* ------------------------------------------------------------------ *)
(** * Mounting and unmounting twice *)

(** C10, as stated, fails for mounting: a looked-up volume whose NAS path is
    already the requested junction path, but whose UUID is nil, gets an
    error, not nil. *)
Lemma mount_same_path_without_uuid_errors :
  let c := staticClient
             (onePage (Some [Some (volumeNamed None "vol" (Some "/vol"%string))]) 1) None in
  exists volume,
    fst (getVolumeByNameAndStyle 1 c "vol" "flexvol" world0) = Ret (Some volume, None)
    /\ nasPathIs volume "/vol" = true
    /\ fst (mountVolumeByNameAndStyle runtime0 1 c "vol" "/vol" "flexvol" world0)
       = Ret (Some (Errorf "could not find volume uuid with name vol")).
Proof. cbv zeta. eexists. repeat split; vm_compute; reflexivity. Qed.

(** C10, as the code has it.  When the looked-up volume has a UUID and its
    NAS path already is the requested junction path,
    [mountVolumeByNameAndStyle] returns nil in the world the lookup left: no
    volume-modify call, no job fetch.  When the looked-up volume's NAS path
    already is the empty string, [unmountVolumeByNameAndStyle] returns nil
    in the world the lookup left.  The lookup itself only queries the
    volume collection. *)
Theorem mount_unmount_idempotent (rt : Runtime) (fuel : nat) (c : RestClient)
    (volumeName style : string) (w : World) :
  (forall junctionPath volume uuid nas w1,
     getVolumeByNameAndStyle fuel c volumeName style w = (Ret (Some volume, None), w1) ->
     models.Volume_UUID volume = Some uuid ->
     models.Volume_Nas volume = Some nas ->
     models.Nas_Path nas = Some junctionPath ->
     mountVolumeByNameAndStyle rt fuel c volumeName junctionPath style w = (Ret None, w1)
     /\ extendsBy isVolumeCollectionGet w w1)
  /\ (forall volume nas w1,
        getVolumeInAnyStateByNameAndStyle fuel c volumeName style w
        = (Ret (Some volume, None), w1) ->
        models.Volume_Nas volume = Some nas ->
        models.Nas_Path nas = Some ""%string ->
        unmountVolumeByNameAndStyle rt fuel c volumeName style w = (Ret None, w1)
        /\ extendsBy isVolumeCollectionGet w w1).
Proof.
  split.
  - intros junctionPath volume uuid nas w1 H Hu Hn Hp. split.
    + unfold mountVolumeByNameAndStyle. rewrite (bind_ret _ _ _ H), Hu.
      unfold nasPathIs. rewrite Hn, Hp, String.eqb_refl. reflexivity.
    + apply (footprint_lookupOf fuel c (MountVolume volumeName junctionPath style) _ H).
  - intros volume nas w1 H Hn Hp. split.
    + unfold unmountVolumeByNameAndStyle. rewrite (bind_ret _ _ _ H).
      unfold nasPathIs. rewrite Hn, Hp.
      destruct (models.Volume_UUID volume); reflexivity.
    + apply (footprint_lookupOf fuel c (UnmountVolume volumeName style) _ H).
Qed.

(* ------------------------------------------------------------------ *)
(** * createVolumeByStyle *)

Lemma checkStatus_nil_inv (existsCheck : M (bool * option error)) (msg : string) w w' :
  bind existsCheck
       (fun x => let '(exists_, err) := x in
                 if negb exists_ then ret (Some (Errorf msg)) else ret err) w
  = (Ret None, w') ->
  existsCheck w = (Ret (true, None), w').
Proof.
  unfold bind. destruct (existsCheck w) as [[[[|] [e|]] | r |] w1]; try discriminate.
  intros H. now inversion H.
Qed.

(** When the loop returns nil, its last attempt returned nil, nothing
    happened after it, and before it the loop issued only the calls of its
    operation. *)
Lemma retryLoop_nil_last P rt operation :
  footprint P operation ->
  forall n b w w',
    backoff.retryLoop rt n operation b w = (Ret None, w') ->
    exists wLast, extendsBy P w wLast /\ operation wLast = (Ret None, w').
Proof.
  intros Hfp. induction n as [|n IH]; intros b w w' H.
  - discriminate.
  - destruct (operation w) as [[[e|] | r |] w1] eqn:Hop.
    + rewrite (@retryLoop_failed rt n operation b w e w1 Hop) in H. cbv zeta in H.
      destruct (negb _ && _); [discriminate|].
      destruct (_ =? backoff.Stop); [discriminate|].
      apply IH in H. destruct H as (wLast & Hext & Hlast).
      exists wLast. split; [|exact Hlast].
      eapply extendsBy_trans; [|exact Hext].
      destruct (Hfp _ _ _ Hop) as (l & Hl & Hall). exists l. cbn. auto.
    + rewrite (@retryLoop_succeeded rt n operation b w w1 Hop) in H.
      inversion H; subst. exists w. split; [apply extendsBy_refl|exact Hop].
    + rewrite (@retryLoop_panicked rt n operation b w r w1 Hop) in H. discriminate.
    + cbn [backoff.retryLoop] in H. rewrite (bind_outOfFuel _ _ _ Hop) in H.
      discriminate.
Qed.

(** A query that returned a payload returned what the controller answered:
    its first page, with the further pages merged into it. *)
Lemma getAllVolumesByPatternStyleAndState_answered fuel c pattern style state
    w payload w' :
  getAllVolumesByPatternStyleAndState fuel c pattern style state w
  = (Ret (Some {| Payload := Some payload |}, None), w') ->
  answered c (queryFor c pattern style state) w payload w'.
Proof.
  unfold getAllVolumesByPatternStyleAndState.
  destruct (negb (String.eqb style models.VolumeStyleFlexvol)
            && negb (String.eqb style models.VolumeStyleFlexgroup)); [discriminate|].
  destruct (negb (existsb (String.eqb state) validStates)); [discriminate|].
  fold (queryFor c pattern style state). set (params := queryFor c pattern style state).
  unfold api_VolumeCollectionGet. rewrite (bind_ret _ _ _ (issue_eq _ _ _ w)).
  destruct (Storage_VolumeCollectionGet (api c) (log w) params None)
    as [[[first]|] [e|]] eqn:Hanswer; try discriminate.
  cbn [Payload]. unfold getAllVolumePayloadRecords.
  destruct first as [first|].
  2:{ destruct (HasNextLink _); intros H; cbn in H; discriminate H. }
  fold (volumeHasNext first).
  intros H. exists first. split; [exact Hanswer|].
  destruct (volumeHasNext first).
  - cbn [deref] in H. rewrite !bind_assoc, bind_ret_l in H.
    destruct (models.Links_ first) as [links|] eqn:Hlinks; [|discriminate].
    cbn [deref] in H. rewrite bind_assoc, bind_ret_l in H.
    unfold bind in H. rewrite getAllVolumePayloadRecords_loop_eq in H.
    destruct (pagingLoop _ _ _ _ _ _) as [[res | msg |] w2] eqn:Hloop; try discriminate.
    destruct (pagingLoop_inv _ _ _ _ _ _ Hloop) as (pages & err & Hfol & _ & ->).
    destruct err as [e|]; cbn in H; [discriminate|].
    inversion H; subst. exists links, pages. auto.
  - rewrite bind_ret_l in H. inversion H; subst. auto.
Qed.

(** An existence check that reported true asked the controller and was
    told of the volume. *)
Lemma checkVolumeExistsByNameAndStyle_observed fuel c volumeName style w w' :
  checkVolumeExistsByNameAndStyle fuel c volumeName style w = (Ret (true, None), w') ->
  observedToExist c volumeName style w w'.
Proof.
  unfold checkVolumeExistsByNameAndStyle.
  destruct (String.eqb volumeName ""); [discriminate|].
  unfold getVolumeByNameAndStyle. rewrite bind_assoc. unfold bind at 1.
  destruct (getAllVolumesByPatternStyleAndState fuel c volumeName style _ w)
    as [[[result [e|]] | r |] w1] eqn:Hquery; try discriminate.
  unfold uniqueVolume.
  destruct result as [[[payload|]]|]; try discriminate.
  destruct (models.NumRecords payload) as [num|] eqn:Hnum; try discriminate.
  destruct (num =? 0) eqn:H0; try discriminate.
  destruct (Z.eqb_spec num 1) as [->|H1]; [|cbn [andb]; discriminate].
  destruct (models.InlineRecords payload) as [[|[volume|] rest]|] eqn:Hrec;
    cbn; try discriminate.
  intros H. inversion H; subst.
  exists payload, volume, rest. split; [|auto].
  now apply getAllVolumesByPatternStyleAndState_answered with (fuel := fuel).
Qed.

Lemma footprint_checkStatus P (existsCheck : M (bool * option error)) (msg : string) :
  footprint P existsCheck ->
  footprint P (bind existsCheck
                    (fun x => let '(exists_, err) := x in
                              if negb exists_ then ret (Some (Errorf msg)) else ret err)).
Proof.
  intros H. apply footprint_bind; [exact H|].
  intros [exists_ err]. destruct (negb exists_); apply footprint_ret.
Qed.

(** The existence check only sends the query for the online volumes of its
    name and style. *)
Lemma footprint_existenceQuery fuel c volumeName style :
  footprint (isQueryOf (queryFor c volumeName style models.VolumeStateOnline))
            (checkVolumeExistsByNameAndStyle fuel c volumeName style).
Proof.
  unfold checkVolumeExistsByNameAndStyle.
  destruct (String.eqb volumeName ""); [apply footprint_ret|].
  apply footprint_bind.
  - unfold getVolumeByNameAndStyle.
    apply footprint_bind; [apply footprint_one_query|].
    intros [result [e|]]; first [apply footprint_ret | apply footprint_uniqueVolume].
  - intros [volume [e|]]; [apply footprint_ret|].
    destruct volume; apply footprint_ret.
Qed.

(** A wait that returned nil saw the volume: its last existence check
    returned (true, nil), and the wait had only sent its query before. *)
Lemma waitForVolume_nil_inv rt fuel c volumeName w w' :
  waitForVolume rt fuel c volumeName w = (Ret None, w') ->
  exists wLast,
    extendsBy (isQueryOf (queryFor c volumeName models.VolumeStyleFlexvol
                                   models.VolumeStateOnline)) w wLast
    /\ VolumeExists fuel c volumeName wLast = (Ret (true, None), w').
Proof.
  rewrite waitForVolume_eq, RetryNotify_eq. intros H.
  apply retryLoop_nil_last
    with (P := isQueryOf (queryFor c volumeName models.VolumeStyleFlexvol
                                   models.VolumeStateOnline)) in H.
  - destruct H as (wLast & Hext & H). exists wLast. split; [exact Hext|].
    unfold checkVolumeStatus in H. now apply checkStatus_nil_inv in H.
  - unfold checkVolumeStatus. apply footprint_checkStatus.
    apply footprint_existenceQuery.
Qed.

Lemma waitForFlexgroup_nil_inv rt fuel c volumeName w w' :
  waitForFlexgroup rt fuel c volumeName w = (Ret None, w') ->
  exists wLast,
    extendsBy (isQueryOf (queryFor c volumeName models.VolumeStyleFlexgroup
                                   models.VolumeStateOnline)) w wLast
    /\ FlexGroupExists fuel c volumeName wLast = (Ret (true, None), w').
Proof.
  rewrite waitForFlexgroup_eq, RetryNotify_eq. intros H.
  apply retryLoop_nil_last
    with (P := isQueryOf (queryFor c volumeName models.VolumeStyleFlexgroup
                                   models.VolumeStateOnline)) in H.
  - destruct H as (wLast & Hext & H). exists wLast. split; [exact Hext|].
    unfold checkFlexgroupStatus in H. now apply checkStatus_nil_inv in H.
  - unfold checkFlexgroupStatus. apply footprint_checkStatus.
    apply footprint_existenceQuery.
Qed.

Section CreateVolume.

Variables (rt : Runtime) (fuel : nat) (c : RestClient).
Variables (name : string) (sizeInBytes : Z) (aggrs : list string).
Variables (spaceReserve snapshotPolicy unixPermissions exportPolicy securityStyle
           tieringPolicy comment : string).
Variables (qosPolicyGroup : QosPolicyGroup) (encrypt : option bool).
Variables (snapshotReserve : Z) (style : string) (dpVolume : bool).

Local Abbreviation create :=
  (createVolumeByStyle rt fuel c name sizeInBytes aggrs spaceReserve snapshotPolicy
                       unixPermissions exportPolicy securityStyle tieringPolicy comment
                       qosPolicyGroup encrypt snapshotReserve style dpVolume).

Local Abbreviation request :=
  (createVolumeInfo c name sizeInBytes aggrs spaceReserve snapshotPolicy
                    unixPermissions exportPolicy securityStyle tieringPolicy comment
                    qosPolicyGroup encrypt snapshotReserve style dpVolume).

(** [createVolumeByStyle] from the accepted create call on. *)
Lemma createVolumeByStyle_accepted volumeInfo accepted w :
  request = inl volumeInfo ->
  Storage_VolumeCreate (api c) (log w) {| VC_Info := Some volumeInfo |}
  = (Some accepted, None) ->
  create w
  = match PollJobStatus rt fuel c (Payload accepted)
            (issued (api c) (VolumeCreate {| VC_Info := Some volumeInfo |}) w) with
    | (Ret None, w2) => existenceWait rt fuel c style name w2
    | other => other
    end.
Proof.
  intros Hreq Hacc. unfold createVolumeByStyle. rewrite Hreq.
  unfold api_VolumeCreate. rewrite (bind_ret _ _ _ (issue_eq _ _ _ w)), Hacc.
  unfold bind. destruct (PollJobStatus _ _ _ _ _) as [[[e|] | r |] w2]; try reflexivity.
  unfold existenceWait. destruct (String.eqb style _); reflexivity.
Qed.

(** C6.  [createVolumeByStyle] returns nil only when the create call was
    accepted, the poll of the job it returned ended with the job fetched in
    state success, and after that the existence wait ended on a check in
    which the controller reported the volume: between the end of the poll
    and that check the client only sent the query for the online volumes of
    that name, of style flexgroup exactly when the requested style is
    flexgroup and of style flexvol otherwise; the controller's answer to the
    query sent by that check, further pages merged, had a record count of
    exactly 1 and a first record that is not nil; and nothing happened after
    it.  The wait and the check are the FlexGroup ones exactly when the
    style is flexgroup, otherwise the FlexVol ones.  An error of the poll is
    returned in the world the poll left, before any existence check. *)
Theorem createVolumeByStyle_spec (w : World) :
  (forall w',
     create w = (Ret None, w') ->
     exists volumeInfo accepted uuid wj job w2 wLast,
       request = inl volumeInfo
       /\ Storage_VolumeCreate (api c) (log w) {| VC_Info := Some volumeInfo |}
          = (Some accepted, None)
       /\ Payload accepted = jobLink uuid
       /\ PollJobStatus rt fuel c (jobLink uuid)
                        (issued (api c) (VolumeCreate {| VC_Info := Some volumeInfo |}) w)
          = (Ret None, w2)
       /\ Cluster_JobGet (api c) (log wj) (jobGetParams uuid)
          = (Some {| Payload := Some job |}, None)
       /\ models.Job_State job = Some models.JobStateSuccess
       /\ w2 = issued (api c) (client.JobGet (jobGetParams uuid)) wj
       /\ existenceWait rt fuel c style name w2 = (Ret None, w')
       /\ extendsBy (isQueryOf (queryFor c name (waitedStyle style)
                                         models.VolumeStateOnline)) w2 wLast
       /\ existenceCheck fuel c style name wLast = (Ret (true, None), w')
       /\ observedToExist c name (waitedStyle style) wLast w')
  /\ (forall volumeInfo accepted e w2,
        request = inl volumeInfo ->
        Storage_VolumeCreate (api c) (log w) {| VC_Info := Some volumeInfo |}
        = (Some accepted, None) ->
        PollJobStatus rt fuel c (Payload accepted)
                      (issued (api c) (VolumeCreate {| VC_Info := Some volumeInfo |}) w)
        = (Ret (Some e), w2) ->
        create w = (Ret (Some e), w2))
  /\ (forall volumeInfo accepted w2,
        request = inl volumeInfo ->
        Storage_VolumeCreate (api c) (log w) {| VC_Info := Some volumeInfo |}
        = (Some accepted, None) ->
        PollJobStatus rt fuel c (Payload accepted)
                      (issued (api c) (VolumeCreate {| VC_Info := Some volumeInfo |}) w)
        = (Ret None, w2) ->
        create w = (if String.eqb style models.VolumeStyleFlexgroup
                    then waitForFlexgroup rt fuel c name w2
                    else waitForVolume rt fuel c name w2)).
Proof.
  split; [|split].
  - intros w' H.
    destruct request as [volumeInfo|e] eqn:Hreq.
    2:{ unfold createVolumeByStyle in H. rewrite Hreq in H. discriminate. }
    destruct (Storage_VolumeCreate (api c) (log w) {| VC_Info := Some volumeInfo |})
      as [[accepted|] [e|]] eqn:Hacc;
      try (unfold createVolumeByStyle, api_VolumeCreate in H;
           rewrite Hreq, (bind_ret _ _ _ (issue_eq _ _ _ w)), Hacc in H; discriminate).
    rewrite (createVolumeByStyle_accepted _ Hreq Hacc) in H.
    destruct (PollJobStatus _ _ _ _ _) as [[[e|] | r |] w2] eqn:Hpoll; try discriminate.
    destruct (PollJobStatus_nil_payload _ _ _ _ _ Hpoll) as [uuid Hp].
    rewrite Hp in Hpoll.
    destruct (proj1 (PollJobStatus_nil_iff _ _ _ _ _ _) Hpoll)
      as (wj & job & _ & Hf & Hs & Hw2).
    assert (Hcheck : exists wLast,
               extendsBy (isQueryOf (queryFor c name (waitedStyle style)
                                              models.VolumeStateOnline)) w2 wLast
               /\ existenceCheck fuel c style name wLast = (Ret (true, None), w')
               /\ observedToExist c name (waitedStyle style) wLast w').
    { pose proof H as Hwait. unfold existenceWait in Hwait.
      unfold existenceCheck, waitedStyle.
      destruct (String.eqb style _);
        [apply waitForFlexgroup_nil_inv in Hwait|apply waitForVolume_nil_inv in Hwait];
        destruct Hwait as (wLast & Hext & Hlast); exists wLast;
        (split; [exact Hext|]); (split; [exact Hlast|]);
        now apply checkVolumeExistsByNameAndStyle_observed with (fuel := fuel). }
    destruct Hcheck as (wLast & Hext & Hcheck & Hseen).
    exists volumeInfo, accepted, uuid, wj, job, w2, wLast.
    repeat split; auto.
  - intros volumeInfo accepted e w2 Hreq Hacc Hpoll.
    now rewrite (createVolumeByStyle_accepted _ Hreq Hacc), Hpoll.
  - intros volumeInfo accepted w2 Hreq Hacc Hpoll.
    rewrite (createVolumeByStyle_accepted _ Hreq Hacc), Hpoll.
    unfold existenceWait. destruct (String.eqb style _); reflexivity.
Qed.

End CreateVolume.

(* ------------------------------------------------------------------ *)
(** * The theorems at work on sample controllers *)

Lemma IsJobFinished_spec_witness :
  exists done err w',
    IsJobFinished successClient (jobLink "job-1") world0 = (Ret (done, err), w')
    /\ done = true.
Proof.
  destruct (IsJobFinished_spec successClient world0) as (_ & _ & _ & H).
  destruct (H "job-1"%string) as [_ H2].
  destruct (H2 (jobInState (Some "success"%string)) eq_refl)
    as (done & err & Heq & Hiff & _).
  exists done, err, (issued (api successClient) (client.JobGet (jobGetParams "job-1")) world0).
  split; [exact Heq|]. apply Hiff. left. reflexivity.
Defined.

Lemma PollJobStatus_spec_witness :
  fst (PollJobStatus runtime0 134 successClient (jobLink "job-1") world0) = Ret None
  /\ fst (PollJobStatus runtime0 134 successClient (jobLink "job-1") world0) <> OutOfFuel.
Proof.
  destruct (PollJobStatus_spec runtime0 134 successClient world0) as (_ & _ & H).
  destruct (H "job-1"%string) as (_ & Hok & _ & Htotal).
  split.
  - assert (Hloop : pollLoop runtime0 134 successClient "job-1" world0
                    = (Ret None,
                       issued (api successClient) (client.JobGet (jobGetParams "job-1"))
                              world0))
      by (vm_compute; reflexivity).
    destruct (Hok _ Hloop) as (_ & _ & Hjob).
    destruct (Hjob (jobInState (Some "success"%string)) eq_refl) as (Hs & _).
    rewrite (Hs eq_refl). reflexivity.
  - apply Htotal. lia.
Defined.


Lemma pagination_merges_witness :
  let c := staticClient (onePage (Some [Some (volumeNamed (Some "uuid-b"%string) "b" None)]) 1)
                        None in
  exists result w',
    getAllVolumePayloadRecords 2 c (Some firstPage) (volumeQuery "*" "flexvol" None) world0
    = (Ret (Some result, None), w')
    /\ List.length (elems (models.InlineRecords result)) = 2%nat
    /\ models.NumRecords result = Some 2.
Proof.
  cbv zeta.
  set (c := staticClient (onePage (Some [Some (volumeNamed (Some "uuid-b"%string) "b" None)]) 1)
                         None).
  set (params := volumeQuery "*" "flexvol" None).
  set (page := volumePage None (Some 1)
                          (Some [Some (volumeNamed (Some "uuid-b"%string) "b" None)])).
  set (next := Some {| models.Href_Href := Some "/api/storage/volumes?start.uuid=b"%string |}).
  assert (Hfol : follow (api_VolumeCollectionGet c params) volumeHasNext world0 next
                        [page] None
                        (issued (api c) (VolumeCollectionGet params next) world0)).
  { apply follow_last with (n := 1); reflexivity. }
  destruct (pagination_merges 2 c) as (_ & H & _).
  assert (Hlen : (List.length [page] < 2)%nat) by (cbn; lia).
  destruct (H firstPage
              {| models.Links_Next := next; models.Links_Self := None |}
              params world0 [page] None _ eq_refl eq_refl Hfol Hlen)
    as (result & Heq & Hrec & Hnum).
  exists result, (issued (api c) (VolumeCollectionGet params next) world0).
  split; [exact Heq|]. split.
  - rewrite Hrec. reflexivity.
  - rewrite Hnum. reflexivity.
Defined.

Lemma byName_operations_shape_witness :
  fst (runMutating plainBytes runtime0 1 failingClient
                   (ByNameAndStyle (DestroyVolume "vol" "flexvol")) world0)
  = Ret (Some (ClientError 500 "internal error"))
  /\ runMutating plainBytes runtime0 2 successClient
                 (ByNameAndStyle (SetVolumeSize "vol" "1073741824" "flexvol")) world0
     = carryOut runtime0 2 successClient
                (volumeModify "uuid-1"
                              (models.set_Size (Some 1073741824) models.emptyVolume))
                (snd (getVolumeByNameAndStyle 2 successClient "vol" "flexvol" world0)).
Proof.
  split.
  - destruct (byName_operations_shape plainBytes runtime0 1 failingClient
                (ByNameAndStyle (DestroyVolume "vol" "flexvol")) world0) as (H & _).
    rewrite (H None (ClientError 500 "internal error") _ eq_refl). reflexivity.
  - destruct (byName_operations_shape plainBytes runtime0 2 successClient
                (ByNameAndStyle (SetVolumeSize "vol" "1073741824" "flexvol")) world0)
      as (_ & _ & H & _).
    apply (H (volumeNamed (Some "uuid-1"%string) "vol" (Some "/vol"%string))
             "uuid-1"%string
             (snd (getVolumeByNameAndStyle 2 successClient "vol" "flexvol" world0)));
      reflexivity.
Defined.

Lemma getVolumeByNameAndStyle_spec_witness :
  fst (getVolumeByNameAndStyle 1 successClient "vol" "flexvol" world0)
  = Ret (Some (volumeNamed (Some "uuid-1"%string) "vol" (Some "/vol"%string)), None).
Proof.
  destruct (getVolumeByNameAndStyle_spec 1 successClient "vol" "flexvol" world0)
    as (H & _).
  destruct (H _ _ eq_refl) as (_ & Hone & _).
  rewrite (Hone _ _ _ eq_refl eq_refl eq_refl). reflexivity.
Defined.

Lemma mount_unmount_idempotent_witness :
  fst (mountVolumeByNameAndStyle runtime0 1 successClient "vol" "/vol" "flexvol" world0)
  = Ret None.
Proof.
  destruct (mount_unmount_idempotent runtime0 1 successClient "vol" "flexvol" world0)
    as (H & _).
  destruct (H "/vol"%string _ "uuid-1"%string _ _ eq_refl eq_refl eq_refl eq_refl)
    as (Heq & _).
  rewrite Heq. reflexivity.
Defined.

Lemma createVolumeByStyle_spec_witness :
  exists w' wLast,
    createVolumeByStyle runtime0 2 successClient "vol" 1073741824 ["aggr1"%string]
                        "none" "none" "---rwxr-xr-x" "default" "unix" "" ""
                        {| Qos_Name := ""; Qos_Kind := InvalidQosPolicyGroupKind |}
                        None NumericalValueNotSet "flexvol" false world0
    = (Ret None, w')
    /\ VolumeExists 2 successClient "vol" wLast = (Ret (true, None), w')
    /\ observedToExist successClient "vol" "flexvol" wLast w'.
Proof.
  eexists.
  assert (Hrun :
    createVolumeByStyle runtime0 2 successClient "vol" 1073741824 ["aggr1"%string]
                        "none" "none" "---rwxr-xr-x" "default" "unix" "" ""
                        {| Qos_Name := ""; Qos_Kind := InvalidQosPolicyGroupKind |}
                        None NumericalValueNotSet "flexvol" false world0
    = (Ret None, _)) by (vm_compute; reflexivity).
  destruct (createVolumeByStyle_spec runtime0 2 successClient "vol" 1073741824
              ["aggr1"%string] "none" "none" "---rwxr-xr-x" "default" "unix" "" ""
              {| Qos_Name := ""; Qos_Kind := InvalidQosPolicyGroupKind |}
              None NumericalValueNotSet "flexvol" false world0) as (H & _).
  destruct (H _ Hrun) as (vi & acc & uuid & wj & job & w2 & wLast & _ & _ & _ & _ & _ & _
                          & _ & _ & _ & Hcheck & Hseen).
  exists wLast. split; [exact Hrun|]. split; [exact Hcheck|exact Hseen].
Defined.

(* ------------------------------------------------------------------ *)
(** * Further properties: the permission converter *)

(** X1.  A mode in the form of [ls -l], three dashes followed by the owner,
    group and other triples, is converted to its three octal digits, whatever
    the nine permission bits are, and the digits parse as the decimal number
    they spell. *)
Theorem convertUnixPermissions_symbolic (u g o : bool * bool * bool) :
  convertUnixPermissions ("---" ++ symbolic u ++ symbolic g ++ symbolic o)%string
  = octalMode u g o
  /\ strconv.ParseInt (octalMode u g o)
     = (100 * octalDigit u + 10 * octalDigit g + octalDigit o, None).
Proof.
  destruct u as [[[] []] []], g as [[[] []] []], o as [[[] []] []];
    split; vm_compute; reflexivity.
Qed.

(** X2.  Without the three leading dashes the nine characters are converted
    in the same way unless the owner triple is itself three dashes: the
    prefix trim then takes the owner triple away, the six characters left
    are returned as they are, and they do not parse as a number. *)
Theorem convertUnixPermissions_nine_characters (u g o : bool * bool * bool) :
  convertUnixPermissions (symbolic u ++ symbolic g ++ symbolic o)%string
  = (if noBits u then (symbolic g ++ symbolic o)%string else octalMode u g o)
  /\ exists e, snd (strconv.ParseInt (symbolic g ++ symbolic o)%string) = Some e.
Proof.
  destruct u as [[[] []] []], g as [[[] []] []], o as [[[] []] []];
    (split; [vm_compute; reflexivity|eexists; vm_compute; reflexivity]).
Qed.

Lemma isDigit_not_symbol ch :
  strconv.isDigit ch = true ->
  Ascii.eqb ch "r" = false /\ Ascii.eqb ch "-" = false.
Proof.
  destruct ch as [[] [] [] [] [] [] [] []]; intros H; vm_compute in H;
    try discriminate; split; reflexivity.
Qed.

Lemma TrimPrefix_digits s : allDigits s = true -> TrimPrefix s "---" = s.
Proof.
  unfold TrimPrefix. destruct s as [|ch rest]; [reflexivity|].
  cbn [allDigits]. intros H. apply andb_true_iff in H. destruct H as [Hd _].
  destruct (isDigit_not_symbol _ Hd) as [_ Hdash].
  cbn [String.prefix]. destruct (ascii_dec "-" ch) as [<-|_]; [discriminate|reflexivity].
Qed.

(** X3.  A mode written in digits is handed on unchanged, whatever its
    length: the converter only rewrites text made of the letters r, w, x and
    dashes. *)
Theorem convertUnixPermissions_numeric (s : string) :
  allDigits s = true -> convertUnixPermissions s = s.
Proof.
  intros H. unfold convertUnixPermissions. rewrite (TrimPrefix_digits _ H).
  cbv zeta. destruct (String.length s =? 9)%nat; [|reflexivity].
  cbn [negb]. destruct s as [|ch rest]; [reflexivity|].
  cbn [allDigits] in H. apply andb_true_iff in H. destruct H as [Hd _].
  destruct (isDigit_not_symbol _ Hd) as [Hr Hdash].
  unfold properTriple at 1. cbn [byteAt String.get]. rewrite Hr, Hdash. reflexivity.
Qed.

Lemma convertUnixPermissions_numeric_witness :
  convertUnixPermissions "0755" = "0755"%string.
Proof. apply (convertUnixPermissions_numeric "0755"). reflexivity. Defined.

(* ------------------------------------------------------------------ *)
(** * Further properties: the create request *)

Lemma append_nil_r {A} (s : option (list A)) : append s None = s.
Proof. destruct s; reflexivity. Qed.

Lemma ToSliceVolumeAggregatesItems_fold aggrs :
  forall acc,
    fold_left
      (fun result aggregateName =>
         append result (Some [Some {| models.Ref_Name := Some aggregateName |}]))
      aggrs acc
    = append acc match aggrs with
                 | [] => None
                 | _ => Some (map aggregateItem aggrs)
                 end.
Proof.
  induction aggrs as [|a rest IH]; intros acc; cbn [fold_left].
  - now rewrite append_nil_r.
  - rewrite IH. destruct rest as [|b rest].
    + now rewrite append_nil_r.
    + destruct acc as [l|]; cbn [append map]; [|reflexivity].
      now rewrite <- app_assoc.
Qed.

(** X4.  [ToSliceVolumeAggregatesItems] returns the nil slice for no names
    and otherwise one non-nil item per name, in the order of the names, each
    carrying its name. *)
Theorem ToSliceVolumeAggregatesItems_spec (aggrs : list string) :
  ToSliceVolumeAggregatesItems aggrs
  = match aggrs with
    | [] => None
    | _ => Some (map aggregateItem aggrs)
    end.
Proof.
  unfold ToSliceVolumeAggregatesItems. rewrite ToSliceVolumeAggregatesItems_fold.
  destruct aggrs; reflexivity.
Qed.

Section CreateRequest.

Variables (rt : Runtime) (fuel : nat) (c : RestClient).
Variables (name : string) (sizeInBytes : Z) (aggrs : list string).
Variables (spaceReserve snapshotPolicy unixPermissions exportPolicy securityStyle
           tieringPolicy comment : string).
Variables (qosPolicyGroup : QosPolicyGroup) (encrypt : option bool).
Variables (snapshotReserve : Z) (style : string).

(** X5.  For a volume that is not a DP volume, a permission string that is
    not empty and that, once converted, does not parse as a number makes
    [createVolumeByStyle] return its error before any REST call: the world,
    and so the call log, is as it was. *)
Theorem createVolumeByStyle_rejects_bad_permissions (w : World) :
  unixPermissions <> ""%string ->
  snd (strconv.ParseInt (convertUnixPermissions unixPermissions)) <> None ->
  createVolumeByStyle rt fuel c name sizeInBytes aggrs spaceReserve snapshotPolicy
                      unixPermissions exportPolicy securityStyle tieringPolicy comment
                      qosPolicyGroup encrypt snapshotReserve style false w
  = (Ret (Some (Errorf ("cannot process unix permissions value "
                        ++ convertUnixPermissions unixPermissions))), w).
Proof.
  intros Hne Hparse. unfold createVolumeByStyle, createVolumeInfo.
  apply String.eqb_neq in Hne. rewrite Hne. cbn [negb].
  destruct (strconv.ParseInt (convertUnixPermissions unixPermissions)) as [v [e|]];
    [|now elim Hparse].
  destruct (negb (String.eqb securityStyle "")); reflexivity.
Qed.

End CreateRequest.

Lemma createVolumeByStyle_rejects_bad_permissions_witness :
  createVolumeByStyle runtime0 1 successClient "vol" 1073741824 ["aggr1"%string]
                      "none" "none" "---rwxrwx" "default" "unix" "" ""
                      {| Qos_Name := ""; Qos_Kind := InvalidQosPolicyGroupKind |}
                      None NumericalValueNotSet "flexvol" false world0
  = (Ret (Some (Errorf "cannot process unix permissions value rwxrwx")), world0).
Proof.
  apply (createVolumeByStyle_rejects_bad_permissions runtime0 1 successClient "vol"
           1073741824 ["aggr1"%string] "none" "none" (unixPermissions := "---rwxrwx")
           "default" "unix" "" ""
           {| Qos_Name := ""; Qos_Kind := InvalidQosPolicyGroupKind |}
           None NumericalValueNotSet "flexvol" world0).
  - discriminate.
  - vm_compute. discriminate.
Defined.

Section CreateRequestFields.

Variables (c : RestClient).
Variables (name : string) (sizeInBytes : Z) (aggrs : list string).
Variables (spaceReserve snapshotPolicy unixPermissions exportPolicy securityStyle
           tieringPolicy comment : string).
Variables (qosPolicyGroup : QosPolicyGroup) (encrypt : option bool).
Variables (snapshotReserve : Z) (style : string) (dpVolume : bool).

Lemma createVolumeInfo_fields volumeInfo :
  createVolumeInfo c name sizeInBytes aggrs spaceReserve snapshotPolicy
                   unixPermissions exportPolicy securityStyle tieringPolicy comment
                   qosPolicyGroup encrypt snapshotReserve style dpVolume
  = inl volumeInfo ->
  models.Volume_UUID volumeInfo = None
  /\ models.Volume_Name volumeInfo = Some name
  /\ models.Volume_Size volumeInfo = Some sizeInBytes
  /\ models.Volume_Style volumeInfo = Some style
  /\ models.Volume_State volumeInfo = Some models.VolumeStateOnline
  /\ models.Volume_Svm volumeInfo = Some {| models.Svm_UUID := Some (svmUUID c) |}
  /\ models.Volume_Aggregates volumeInfo
     = match aggrs with
       | [] => None
       | _ => Some (map aggregateItem aggrs)
       end
  /\ models.Volume_Type volumeInfo = (if dpVolume then Some "DP"%string else None).
Proof.
  unfold createVolumeInfo. rewrite ToSliceVolumeAggregatesItems_spec.
  destruct aggrs as [|a rest]; cbn [elems List.length Nat.ltb Nat.leb];
    destruct (negb (snapshotReserve =? NumericalValueNotSet));
    destruct encrypt;
    destruct (negb (isInvalidKind (Qos_Kind qosPolicyGroup))
              && negb (String.eqb (Qos_Name qosPolicyGroup) ""));
    destruct (negb (String.eqb tieringPolicy ""));
    destruct (negb (String.eqb securityStyle ""));
    destruct dpVolume;
    destruct (negb (String.eqb unixPermissions ""));
    try destruct (strconv.ParseInt (convertUnixPermissions unixPermissions)) as [v [e|]];
    destruct (negb (String.eqb exportPolicy ""));
    intros H; inversion H; subst; cbn; repeat split; reflexivity.
Qed.

End CreateRequestFields.

Lemma footprint_weaken {A} (P Q : Call -> bool) (m : M A) :
  (forall call, P call = true -> Q call = true) -> footprint P m -> footprint Q m.
Proof.
  intros HPQ Hm w o w' H. destruct (Hm _ _ _ H) as (l & Hl & Hall).
  exists l. split; [exact Hl|]. rewrite forallb_forall in *. auto.
Qed.

Lemma isJobGet_readOnly call : isJobGet call = true -> readOnly call = true.
Proof. now destruct call. Qed.

Lemma isVolumeCollectionGet_readOnly call :
  isVolumeCollectionGet call = true -> readOnly call = true.
Proof. now destruct call. Qed.

Lemma footprint_getVolumeByNameAndStyle fuel c volumeName style :
  footprint isVolumeCollectionGet (getVolumeByNameAndStyle fuel c volumeName style).
Proof. exact (footprint_lookupOf fuel c (DestroyVolume volumeName style)). Qed.

Lemma footprint_checkVolumeExistsByNameAndStyle fuel c volumeName style :
  footprint isVolumeCollectionGet (checkVolumeExistsByNameAndStyle fuel c volumeName style).
Proof.
  unfold checkVolumeExistsByNameAndStyle.
  destruct (String.eqb volumeName ""); [apply footprint_ret|].
  repeat first [apply footprint_getVolumeByNameAndStyle | footprint_step].
Qed.

Lemma footprint_existenceWait rt fuel c style name :
  footprint isVolumeCollectionGet (existenceWait rt fuel c style name).
Proof.
  unfold existenceWait, waitForFlexgroup, waitForVolume.
  destruct (String.eqb style models.VolumeStyleFlexgroup);
    repeat first [apply footprint_NewExponentialBackOff | apply footprint_RetryNotify
                 | footprint_step];
    unfold checkFlexgroupStatus, checkVolumeStatus, FlexGroupExists, VolumeExists;
    repeat first [apply footprint_checkVolumeExistsByNameAndStyle | footprint_step].
Qed.

Section CreateCalls.

Variables (rt : Runtime) (fuel : nat) (c : RestClient).
Variables (name : string) (sizeInBytes : Z) (aggrs : list string).
Variables (spaceReserve snapshotPolicy unixPermissions exportPolicy securityStyle
           tieringPolicy comment : string).
Variables (qosPolicyGroup : QosPolicyGroup) (encrypt : option bool).
Variables (snapshotReserve : Z) (style : string) (dpVolume : bool).

(** X6.  However [createVolumeByStyle] ends, either it issued no call at
    all (the permission string was rejected), or the first call it issued is
    the one create call, every call after it is read-only (job fetches and
    volume queries), and the create request names the volume, the size, the
    style, the state online and the client's own SVM, carries no UUID, lists
    the aggregates in the order given (no list for none), and has type DP
    exactly for a DP volume. *)
Theorem createVolumeByStyle_calls (w : World) out w' :
  createVolumeByStyle rt fuel c name sizeInBytes aggrs spaceReserve snapshotPolicy
                      unixPermissions exportPolicy securityStyle tieringPolicy comment
                      qosPolicyGroup encrypt snapshotReserve style dpVolume w
  = (out, w') ->
  log w' = log w
  \/ exists volumeInfo rest,
       log w' = log w ++ VolumeCreate {| VC_Info := Some volumeInfo |} :: rest
       /\ forallb readOnly rest = true
       /\ models.Volume_UUID volumeInfo = None
       /\ models.Volume_Name volumeInfo = Some name
       /\ models.Volume_Size volumeInfo = Some sizeInBytes
       /\ models.Volume_Style volumeInfo = Some style
       /\ models.Volume_State volumeInfo = Some models.VolumeStateOnline
       /\ models.Volume_Svm volumeInfo = Some {| models.Svm_UUID := Some (svmUUID c) |}
       /\ models.Volume_Aggregates volumeInfo
          = match aggrs with
            | [] => None
            | _ => Some (map aggregateItem aggrs)
            end
       /\ models.Volume_Type volumeInfo = (if dpVolume then Some "DP"%string else None).
Proof.
  unfold createVolumeByStyle.
  destruct (createVolumeInfo _ _ _ _ _ _ _ _ _ _ _ _ _ _ _ _) as [volumeInfo|e] eqn:Hreq.
  - intros H. right. unfold api_VolumeCreate in H.
    rewrite (bind_ret _ _ _ (issue_eq _ _ _ w)) in H.
    assert (Hrest : extendsBy readOnly
                      (issued (api c) (VolumeCreate {| VC_Info := Some volumeInfo |}) w) w').
    { revert H. generalize (issued (api c) (VolumeCreate {| VC_Info := Some volumeInfo |}) w).
      intros w1 H.
      assert (Hfp : forall r,
        footprint readOnly
          (let '(volumeCreateAccepted, err) := r in
           match err with
           | Some e => ret (Some e)
           | None =>
               match volumeCreateAccepted with
               | None => ret (Some (Errorf "unexpected response from volume create"))
               | Some accepted =>
                   pollErr <- PollJobStatus rt fuel c (Payload accepted) ;;
                   match pollErr with
                   | Some e => ret (Some e)
                   | None =>
                       if String.eqb style models.VolumeStyleFlexgroup
                       then waitForFlexgroup rt fuel c name
                       else waitForVolume rt fuel c name
                   end
               end
           end)).
      { intros [[accepted|] [e|]]; try apply footprint_ret.
        apply footprint_bind.
        - eapply footprint_weaken; [exact isJobGet_readOnly|apply footprint_PollJobStatus].
        - intros [e|]; [apply footprint_ret|].
          eapply footprint_weaken; [exact isVolumeCollectionGet_readOnly|].
          pose proof (footprint_existenceWait rt fuel c style name) as Hw.
          unfold existenceWait in Hw.
          destruct (String.eqb style models.VolumeStyleFlexgroup); exact Hw. }
      exact (Hfp (Storage_VolumeCreate (api c) (log w) {| VC_Info := Some volumeInfo |})
                 w1 out w' H). }
    destruct Hrest as (rest & Hlog & Hall). exists volumeInfo, rest.
    split; [|split; [exact Hall|now apply createVolumeInfo_fields in Hreq]].
    rewrite Hlog. cbn [log issued]. now rewrite <- app_assoc.
  - intros H. left. now inversion H.
Qed.

End CreateCalls.

Lemma createVolumeByStyle_calls_witness :
  exists volumeInfo rest w',
    snd (createVolumeByStyle runtime0 2 successClient "vol" 1073741824 ["aggr1"%string]
                             "none" "none" "---rwxr-xr-x" "default" "unix" "" ""
                             {| Qos_Name := ""; Qos_Kind := InvalidQosPolicyGroupKind |}
                             None NumericalValueNotSet "flexvol" false world0) = w'
    /\ log w' = VolumeCreate {| VC_Info := Some volumeInfo |} :: rest
    /\ models.Volume_Size volumeInfo = Some 1073741824.
Proof.
  assert (Hrun :
    createVolumeByStyle runtime0 2 successClient "vol" 1073741824 ["aggr1"%string]
                        "none" "none" "---rwxr-xr-x" "default" "unix" "" ""
                        {| Qos_Name := ""; Qos_Kind := InvalidQosPolicyGroupKind |}
                        None NumericalValueNotSet "flexvol" false world0
    = (Ret None,
       snd (createVolumeByStyle runtime0 2 successClient "vol" 1073741824
              ["aggr1"%string] "none" "none" "---rwxr-xr-x" "default" "unix" "" ""
              {| Qos_Name := ""; Qos_Kind := InvalidQosPolicyGroupKind |}
              None NumericalValueNotSet "flexvol" false world0)))
    by (vm_compute; reflexivity).
  destruct (createVolumeByStyle_calls _ _ _ _ _ _ _ _ _ _ _ _ _ _ _ _ _ _ _ Hrun)
    as [Hnone | (volumeInfo & rest & Hlog & _ & _ & _ & Hsize & _)].
  - vm_compute in Hnone. discriminate.
  - exists volumeInfo, rest. eexists. split; [reflexivity|]. split; assumption.
Defined.

(* ------------------------------------------------------------------ *)
(** * Further properties: sizes that do not parse *)

Lemma parseDigits_syntax s :
  forall n maxVal v, strconv.parseDigits s n maxVal = (v, Some ErrSyntax) -> v = 0.
Proof.
  induction s as [|ch rest IH]; intros n maxVal v; cbn [strconv.parseDigits].
  - discriminate.
  - destruct (strconv.isDigit ch).
    + destruct (maxVal <? n * 10 + strconv.digitVal ch); [discriminate|apply IH].
    + intros H. now inversion H.
Qed.

Lemma ParseUint_syntax s v f num :
  strconv.ParseUint s = (v, Some (NumError f num ErrSyntax)) -> v = 0.
Proof.
  unfold strconv.ParseUint. destruct s as [|ch rest]; [intros H; now inversion H|].
  destruct (strconv.parseDigits _ _ _) as [n [k|]] eqn:E; intros H; inversion H; subst.
  eapply parseDigits_syntax; eauto.
Qed.

Lemma ParseInt_syntax s v f num :
  strconv.ParseInt s = (v, Some (NumError f num ErrSyntax)) -> v = 0.
Proof.
  unfold strconv.ParseInt. destruct s as [|ch rest]; [intros H; now inversion H|].
  cbv zeta.
  destruct (strconv.ParseUint _) as [un [[msg | st msg | f' num' [|] | p]|]];
    try (intros H; now inversion H);
    destruct (negb (Ascii.eqb ch "-") && (2 ^ 63 <=? un)); try discriminate;
    destruct (Ascii.eqb ch "-" && (2 ^ 63 <? un)); discriminate.
Qed.

(** X7.  [setVolumeSizeByNameAndStyle] drops the errors of the size
    conversion and of the parse: on a volume found with its UUID, a size
    that does not parse as a number does not end the operation with an
    error; the modify call is issued, asking for a size of 0 bytes. *)
Theorem setVolumeSizeByNameAndStyle_unparsable_size
    (conv : string -> string * option error) (rt : Runtime) (fuel : nat)
    (c : RestClient) (volumeName newSize style : string) (w w1 : World)
    (volume : models.Volume) (uuid f num : string) :
  getVolumeByNameAndStyle fuel c volumeName style w = (Ret (Some volume, None), w1) ->
  models.Volume_UUID volume = Some uuid ->
  snd (strconv.ParseUint (fst (conv newSize))) = Some (NumError f num ErrSyntax) ->
  setVolumeSizeByNameAndStyle conv rt fuel c volumeName newSize style w
  = volumeModifyAndPoll rt fuel c
      (modifyParams uuid (models.set_Size (Some 0) models.emptyVolume)) w1.
Proof.
  intros Hlookup Huuid Hparse. unfold setVolumeSizeByNameAndStyle.
  rewrite (bind_ret _ _ _ Hlookup), Huuid.
  destruct (conv newSize) as [sizeBytesStr convErr]. cbn [fst] in Hparse.
  destruct (strconv.ParseUint sizeBytesStr) as [sizeBytes parseErr] eqn:E.
  cbn [snd] in Hparse. subst parseErr. apply ParseUint_syntax in E. subst sizeBytes.
  reflexivity.
Qed.

Lemma setVolumeSizeByNameAndStyle_unparsable_size_witness :
  exists w',
    setVolumeSizeByNameAndStyle plainBytes runtime0 1 successClient "vol" "1g" "flexvol"
                                world0
    = (Ret None, w')
    /\ nth_error (log w') 1
       = Some (VolumeModify
                 (modifyParams "uuid-1" (models.set_Size (Some 0) models.emptyVolume))).
Proof.
  eexists.
  rewrite (@setVolumeSizeByNameAndStyle_unparsable_size plainBytes runtime0 1
             successClient "vol" "1g" "flexvol" world0
             (snd (getVolumeByNameAndStyle 1 successClient "vol" "flexvol" world0))
             (volumeNamed (Some "uuid-1"%string) "vol" (Some "/vol"%string))
             "uuid-1" "ParseUint" "1g");
    [|vm_compute; reflexivity|reflexivity|reflexivity].
  split; vm_compute; reflexivity.
Defined.

(** X8.  The exported [VolumeCreate] drops the same two errors: with a size
    that does not parse as a number it goes on to create a FlexVol of 0
    bytes on the one aggregate named. *)
Theorem VolumeCreate_unparsable_size
    (conv : string -> string * option error) (rt : Runtime) (fuel : nat)
    (c : RestClient)
    (name aggregateName size spaceReserve snapshotPolicy unixPermissions exportPolicy
     securityStyle tieringPolicy comment : string)
    (qosPolicyGroup : QosPolicyGroup) (encrypt : option bool) (snapshotReserve : Z)
    (dpVolume : bool) (f num : string) (w : World) :
  snd (strconv.ParseInt (fst (conv size))) = Some (NumError f num ErrSyntax) ->
  flexvol.VolumeCreate conv rt fuel c name aggregateName size spaceReserve
                       snapshotPolicy unixPermissions exportPolicy securityStyle
                       tieringPolicy comment qosPolicyGroup encrypt snapshotReserve
                       dpVolume w
  = createVolumeByStyle rt fuel c name 0 [aggregateName] spaceReserve snapshotPolicy
                        unixPermissions exportPolicy securityStyle tieringPolicy comment
                        qosPolicyGroup encrypt snapshotReserve
                        models.VolumeStyleFlexvol dpVolume w.
Proof.
  intros Hparse. unfold flexvol.VolumeCreate.
  destruct (conv size) as [sizeBytesStr convErr]. cbn [fst] in Hparse.
  destruct (strconv.ParseInt sizeBytesStr) as [sizeInBytes parseErr] eqn:E.
  cbn [snd] in Hparse. subst parseErr. apply ParseInt_syntax in E. now subst.
Qed.

Lemma VolumeCreate_unparsable_size_witness :
  exists volumeInfo rest,
    log (snd (flexvol.VolumeCreate plainBytes runtime0 2 successClient "vol" "aggr1"
                "ten gigabytes" "none" "none" "---rwxr-xr-x" "default" "unix" "" ""
                {| Qos_Name := ""; Qos_Kind := InvalidQosPolicyGroupKind |}
                None NumericalValueNotSet false world0))
    = VolumeCreate {| VC_Info := Some volumeInfo |} :: rest
    /\ models.Volume_Size volumeInfo = Some 0.
Proof.
  rewrite (@VolumeCreate_unparsable_size plainBytes runtime0 2 successClient "vol"
             "aggr1" "ten gigabytes" "none" "none" "---rwxr-xr-x" "default" "unix" "" ""
             {| Qos_Name := ""; Qos_Kind := InvalidQosPolicyGroupKind |}
             None NumericalValueNotSet false "ParseInt" "ten gigabytes" world0);
    [|vm_compute; reflexivity].
  eexists. eexists. split; vm_compute; reflexivity.
Defined.

(* ------------------------------------------------------------------ *)
(** * Further properties: lookups by name *)

(** X9.  [getVolumeSizeByNameAndStyle] only queries volumes, and it returns
    a size without an error exactly when the lookup found a volume that
    carries a size; the size returned is that [int64] read as a [uint64]. *)
Theorem getVolumeSizeByNameAndStyle_spec (fuel : nat) (c : RestClient)
    (volumeName style : string) :
  footprint isVolumeCollectionGet (getVolumeSizeByNameAndStyle fuel c volumeName style)
  /\ forall w n w',
       getVolumeSizeByNameAndStyle fuel c volumeName style w = (Ret (n, None), w')
       <-> exists volume size,
             getVolumeByNameAndStyle fuel c volumeName style w
             = (Ret (Some volume, None), w')
             /\ models.Volume_Size volume = Some size
             /\ n = size mod 2 ^ 64.
Proof.
  split.
  - unfold getVolumeSizeByNameAndStyle.
    repeat first [apply footprint_getVolumeByNameAndStyle | footprint_step].
  - intros w n w'. unfold getVolumeSizeByNameAndStyle, bind.
    destruct (getVolumeByNameAndStyle fuel c volumeName style w)
      as [[[[volume|] [e|]] | r |] w1]; cbn.
    + split; [discriminate|]. intros (v & s & H & _). discriminate.
    + destruct (models.Volume_Size volume) as [size|] eqn:Hs; cbn.
      * split.
        -- intros H. inversion H; subst. now exists volume, size.
        -- intros (v & s & H & Hs' & ->). inversion H; subst.
           rewrite Hs in Hs'. now inversion Hs'.
      * split; [discriminate|]. intros (v & s & H & Hs' & _). inversion H; subst.
        congruence.
    + split; [discriminate|]. intros (v & s & H & _). discriminate.
    + split; [discriminate|]. intros (v & s & H & _). discriminate.
    + split; [discriminate|]. intros (v & s & H & _). discriminate.
    + split; [discriminate|]. intros (v & s & H & _). discriminate.
Qed.

(** X10.  [FlexGroupDestroy] takes a FlexGroup that the lookup does not
    find, or finds without a UUID, as deleted already: it returns nil in the
    world the lookup left, so without a delete call. *)
Theorem FlexGroupDestroy_missing_is_nil (rt : Runtime) (fuel : nat) (c : RestClient)
    (name : string) (w w1 : World) (volume : option models.Volume) :
  FlexGroupGetByName fuel c name w = (Ret (volume, None), w1) ->
  uuidOf volume = None ->
  FlexGroupDestroy rt fuel c name w = (Ret None, w1).
Proof.
  intros Hlookup Huuid. unfold FlexGroupDestroy. rewrite (bind_ret _ _ _ Hlookup).
  destruct volume as [v|]; [|reflexivity]. cbn [uuidOf] in Huuid. now rewrite Huuid.
Qed.

Lemma FlexGroupDestroy_missing_is_nil_witness :
  FlexGroupDestroy runtime0 1 runningClient "fg" world0
  = (Ret None, snd (FlexGroupGetByName 1 runningClient "fg" world0))
  /\ fst (VolumeDestroy runtime0 1 runningClient "fg" world0)
     = Ret (Some (Errorf "could not find volume: fg")).
Proof.
  split.
  - apply (@FlexGroupDestroy_missing_is_nil runtime0 1 runningClient "fg" world0 _ None);
      [vm_compute; reflexivity|reflexivity].
  - vm_compute. reflexivity.
Defined.

(** X11.  However [FlexGroupDestroy] ends, the calls it issued are volume
    queries, then at most one mutating call, then job fetches. *)
Theorem FlexGroupDestroy_shape (rt : Runtime) (fuel : nat) (c : RestClient)
    (name : string) (w : World) out w' :
  FlexGroupDestroy rt fuel c name w = (out, w') ->
  exists w1, extendsBy isVolumeCollectionGet w w1 /\ mutatesThenPolls w1 w'.
Proof.
  unfold FlexGroupDestroy, FlexGroupGetByName, bind at 1.
  pose proof (@footprint_getVolumeByNameAndStyle fuel c name models.VolumeStyleFlexgroup w)
    as Hfp.
  destruct (getVolumeByNameAndStyle fuel c name models.VolumeStyleFlexgroup w)
    as [[[volume err] | r |] w1].
  - intros H. exists w1. split; [eapply Hfp; reflexivity|].
    revert H. generalize w1 out w'.
    change (tailShape
      match err with
      | Some e => ret (Some e)
      | None =>
          match volume with
          | None => ret None
          | Some volume =>
              match models.Volume_UUID volume with
              | None => ret None
              | Some uuid =>
                  '(volumeDeleteAccepted, err) <- api_VolumeDelete c {| VD_UUID := uuid |} ;;
                  match err with
                  | Some e => ret (Some e)
                  | None =>
                      match volumeDeleteAccepted with
                      | None =>
                          ret (Some (Errorf "unexpected response from volume delete"))
                      | Some accepted => PollJobStatus rt fuel c (Payload accepted)
                      end
                  end
              end
          end
      end).
    unfold api_VolumeDelete. repeat tailShape_step.
  - intros H. inversion H; subst. exists w'.
    split; [eapply Hfp; reflexivity|apply mutatesThenPolls_refl].
  - intros H. inversion H; subst. exists w'.
    split; [eapply Hfp; reflexivity|apply mutatesThenPolls_refl].
Qed.

Lemma FlexGroupDestroy_shape_witness :
  exists w1,
    extendsBy isVolumeCollectionGet world0 w1
    /\ mutatesThenPolls w1 (snd (FlexGroupDestroy runtime0 1 successClient "fg" world0)).
Proof.
  apply (@FlexGroupDestroy_shape runtime0 1 successClient "fg" world0
           (fst (FlexGroupDestroy runtime0 1 successClient "fg" world0))).
  vm_compute. reflexivity.
Defined.

Lemma getAllVolumesByPatternStyleAndState_unknown_style fuel c pattern style state w :
  style <> models.VolumeStyleFlexvol ->
  style <> models.VolumeStyleFlexgroup ->
  getAllVolumesByPatternStyleAndState fuel c pattern style state w
  = (Ret (None, Some (Errorf ("unknown volume style " ++ style))), w).
Proof.
  intros H1 H2. unfold getAllVolumesByPatternStyleAndState.
  apply String.eqb_neq in H1, H2. now rewrite H1, H2.
Qed.

(** X12.  A style other than flexvol and flexgroup is rejected by the query
    every by-name operation starts with: each of the eleven operations
    returns the error that names the style, and issues no REST call. *)
Theorem byName_operations_reject_unknown_style
    (conv : string -> string * option error) (rt : Runtime) (fuel : nat)
    (c : RestClient) (o : VolumeOp) (w : World) :
  styleOf o <> models.VolumeStyleFlexvol ->
  styleOf o <> models.VolumeStyleFlexgroup ->
  runOp conv rt fuel c o w
  = (Ret (Some (Errorf ("unknown volume style " ++ styleOf o))), w).
Proof.
  intros H1 H2.
  destruct o; cbn [styleOf] in H1, H2; cbn [runOp styleOf];
    unfold setVolumeSizeByNameAndStyle, mountVolumeByNameAndStyle,
      unmountVolumeByNameAndStyle, renameVolumeByNameAndStyle,
      destroyVolumeByNameAndStyle, modifyVolumeExportPolicyByNameAndStyle,
      modifyVolumeUnixPermissionsByNameAndStyle, setVolumeCommentByNameAndStyle,
      setVolumeQosPolicyGroupNameByNameAndStyle, startCloneSplitByNameAndStyle,
      restoreSnapshotByNameAndStyle, getVolumeByNameAndStyle,
      getVolumeInAnyStateByNameAndStyle;
    rewrite bind_assoc;
    rewrite (bind_ret _ _ _
               (@getAllVolumesByPatternStyleAndState_unknown_style fuel c _ _ _ w H1 H2));
    reflexivity.
Qed.

Lemma byName_operations_reject_unknown_style_witness :
  runOp plainBytes runtime0 1 successClient (RenameVolume "vol" "vol2" "qtree") world0
  = (Ret (Some (Errorf "unknown volume style qtree")), world0).
Proof.
  apply (@byName_operations_reject_unknown_style plainBytes runtime0 1 successClient
           (RenameVolume "vol" "vol2" "qtree") world0); discriminate.
Defined.

(** X13.  [checkVolumeExistsByNameAndStyle] reports true only without an
    error, for a name that is not empty, and when the query for online
    volumes of that name and style returned a payload with a record count of
    exactly 1 whose first record is not nil. *)
Theorem checkVolumeExistsByNameAndStyle_true (fuel : nat) (c : RestClient)
    (volumeName style : string) (w : World) (err : option error) (w' : World) :
  checkVolumeExistsByNameAndStyle fuel c volumeName style w = (Ret (true, err), w') ->
  err = None
  /\ volumeName <> ""%string
  /\ exists payload volume rest,
       getAllVolumesByPatternStyleAndState fuel c volumeName style
                                           models.VolumeStateOnline w
       = (Ret (Some {| Payload := Some payload |}, None), w')
       /\ models.NumRecords payload = Some 1
       /\ models.InlineRecords payload = Some (Some volume :: rest).
Proof.
  unfold checkVolumeExistsByNameAndStyle.
  destruct (String.eqb_spec volumeName "") as [->|Hne]; [discriminate|].
  unfold getVolumeByNameAndStyle. rewrite bind_assoc. unfold bind at 1.
  destruct (getAllVolumesByPatternStyleAndState fuel c volumeName style _ w)
    as [[[result [e|]] | r |] w1]; try discriminate.
  unfold uniqueVolume.
  destruct result as [[[payload|]]|]; try discriminate.
  destruct (models.NumRecords payload) as [num|] eqn:Hnum; try discriminate.
  destruct (num =? 0) eqn:H0; try discriminate.
  destruct (Z.eqb_spec num 1) as [->|H1];
    [|cbn [andb]; discriminate].
  destruct (models.InlineRecords payload) as [[|[volume|] rest]|] eqn:Hrec;
    cbn; try discriminate.
  intros H. inversion H; subst. split; [reflexivity|]. split; [exact Hne|].
  exists payload, volume, rest. auto.
Qed.

Lemma checkVolumeExistsByNameAndStyle_true_witness :
  exists payload,
    fst (getAllVolumesByPatternStyleAndState 1 successClient "vol" "flexvol"
                                             models.VolumeStateOnline world0)
    = Ret (Some {| Payload := Some payload |}, None)
    /\ models.NumRecords payload = Some 1.
Proof.
  destruct (@checkVolumeExistsByNameAndStyle_true 1 successClient "vol" "flexvol" world0
              None
              (snd (checkVolumeExistsByNameAndStyle 1 successClient "vol" "flexvol" world0)))
    as (_ & _ & payload & volume & rest & Hq & Hnum & _);
    [vm_compute; reflexivity|].
  exists payload. rewrite Hq. split; [reflexivity|exact Hnum].
Defined.

Lemma getVolumeSizeByNameAndStyle_spec_witness :
  fst (getVolumeSizeByNameAndStyle 1 runningClient "vol" "flexvol" world0)
  = Ret (0, Some (Errorf "could not find volume with name vol"))
  /\ extendsBy isVolumeCollectionGet world0
               (snd (getVolumeSizeByNameAndStyle 1 runningClient "vol" "flexvol" world0)).
Proof.
  split; [vm_compute; reflexivity|].
  destruct (getVolumeSizeByNameAndStyle_spec 1 runningClient "vol" "flexvol") as [Hfp _].
  apply (Hfp world0 (fst (getVolumeSizeByNameAndStyle 1 runningClient "vol" "flexvol"
                            world0))).
  vm_compute. reflexivity.
Defined.

(** X14.  Every call [getAllVolumesByPatternStyleAndState] issues, the
    first one and the one for each further page, is a volume query with the
    same parameters: the client's own SVM, the name pattern, the style, the
    state (left out when empty) and all fields.  So the lookup a by-name
    operation starts with only asks for volumes of its name and style in the
    client's SVM, online ones, except for unmount, whose query has no state
    filter. *)
Theorem getAllVolumesByPatternStyleAndState_one_query (fuel : nat) (c : RestClient) :
  (forall pattern style state,
     footprint (isQueryOf (queryFor c pattern style state))
               (getAllVolumesByPatternStyleAndState fuel c pattern style state))
  /\ (forall o,
        footprint (isQueryOf (queryFor c (nameOf o) (styleOf o)
                                       (if isUnmount o then ""%string
                                        else models.VolumeStateOnline)))
                  (lookupOf fuel c o)).
Proof.
  split; [intros; apply footprint_one_query|].
  intros o.
  destruct o; cbn [lookupOf nameOf styleOf isUnmount];
    unfold getVolumeByNameAndStyle, getVolumeInAnyStateByNameAndStyle;
    (apply footprint_bind; [apply footprint_one_query|]);
    intros [result [e|]]; first [apply footprint_ret | apply footprint_uniqueVolume].
Qed.

Lemma getAllVolumesByPatternStyleAndState_one_query_witness :
  extendsBy (isQueryOf (queryFor successClient "vol*" "flexvol" "online")) world0
            (snd (getAllVolumesByPatternStyleAndState 1 successClient "vol*" "flexvol"
                                                      "online" world0)).
Proof.
  apply (proj1 (getAllVolumesByPatternStyleAndState_one_query 1 successClient)
           "vol*"%string "flexvol"%string "online"%string world0
           (fst (getAllVolumesByPatternStyleAndState 1 successClient "vol*" "flexvol"
                                                     "online" world0))).
  vm_compute. reflexivity.
Defined.

(* ------------------------------------------------------------------ *)
(** * Further properties: qtree lookups *)

Lemma uniqueQtree_found {Qtree} notFound moreThanOne
    (answer : option (Response (models.CollectionResponse Qtree)) * option error)
    w q err w' :
  uniqueQtree notFound moreThanOne answer w = (Ret (Some q, err), w')
  <-> err = None /\ w' = w
      /\ exists payload,
           answer = (Some {| Payload := Some payload |}, None)
           /\ elems (models.InlineRecords payload) = [Some q].
Proof.
  unfold uniqueQtree. destruct answer as [result [e|]].
  - split; [discriminate|]. intros (_ & _ & p & H & _). discriminate.
  - destruct result as [[[payload|]]|]; cbn [Payload].
    + unfold index0.
      destruct (elems (models.InlineRecords payload)) as [|a [|b rest]] eqn:Hrec; cbn.
      * split.
        -- destruct (HasNextLink _); discriminate.
        -- intros (_ & _ & p & H & Hp). inversion H; subst. congruence.
      * split.
        -- intros H. inversion H; subst. split; [reflexivity|]. split; [reflexivity|].
           exists payload. auto.
        -- intros (-> & -> & p & H & Hp). inversion H; subst.
           rewrite Hrec in Hp. now inversion Hp.
      * split; [discriminate|].
        intros (_ & _ & p & H & Hp). inversion H; subst. congruence.
    + split; [discriminate|]. intros (_ & _ & p & H & _). discriminate.
    + split; [discriminate|]. intros (_ & _ & p & H & _). discriminate.
Qed.

(** X15.  [QtreeGetByName] and [QtreeGetByPath] return a qtree exactly when
    the one query they issue comes back without an error and with a payload
    of exactly one record that is not nil, which is then the qtree returned;
    the error is nil then, and the world is the one the query left, so a
    next link is never followed. *)
Theorem QtreeGet_found (c : RestClient) (Qtree : Type)
    (call : QtreeCollectionGetParams ->
            M (option (Response (models.CollectionResponse Qtree)) * option error))
    (name volumeName path : string) (w : World) (q : Qtree)
    (err : option error) (w' : World) :
  (QtreeGetByName c call name volumeName w = (Ret (Some q, err), w')
   <-> err = None
       /\ exists payload,
            call (qtreeByName c name volumeName) w
            = (Ret (Some {| Payload := Some payload |}, None), w')
            /\ elems (models.InlineRecords payload) = [Some q])
  /\ (QtreeGetByPath c call path w = (Ret (Some q, err), w')
      <-> err = None
          /\ exists payload,
               call (qtreeByPath c path) w
               = (Ret (Some {| Payload := Some payload |}, None), w')
               /\ elems (models.InlineRecords payload) = [Some q]).
Proof.
  split.
  - unfold QtreeGetByName. fold (qtreeByName c name volumeName). unfold bind.
    destruct (call (qtreeByName c name volumeName) w) as [[answer | r |] w1].
    + rewrite uniqueQtree_found. split.
      * intros (-> & -> & p & -> & Hp). split; [reflexivity|]. now exists p.
      * intros (-> & p & H & Hp). inversion H; subst.
        split; [reflexivity|]. split; [reflexivity|]. now exists p.
    + split; [discriminate|]. intros (_ & p & H & _). discriminate.
    + split; [discriminate|]. intros (_ & p & H & _). discriminate.
  - unfold QtreeGetByPath. fold (qtreeByPath c path). unfold bind.
    destruct (call (qtreeByPath c path) w) as [[answer | r |] w1].
    + rewrite uniqueQtree_found. split.
      * intros (-> & -> & p & -> & Hp). split; [reflexivity|]. now exists p.
      * intros (-> & p & H & Hp). inversion H; subst.
        split; [reflexivity|]. split; [reflexivity|]. now exists p.
    + split; [discriminate|]. intros (_ & p & H & _). discriminate.
    + split; [discriminate|]. intros (_ & p & H & _). discriminate.
Qed.

(** X16.  [waitForQtree] returns nil only after a check whose query came
    back without an error and with exactly one record, that record not
    being nil; the world it returns in is the one that query left. *)
Theorem waitForQtree_nil_saw_the_qtree (rt : Runtime) (fuel : nat) (c : RestClient)
    (Qtree : Type)
    (call : QtreeCollectionGetParams ->
            M (option (Response (models.CollectionResponse Qtree)) * option error))
    (volumeName qtreeName : string) (w w' : World) :
  waitForQtree rt fuel (QtreeGetByName c call) volumeName qtreeName w = (Ret None, w') ->
  exists wLast payload qtree,
    call (qtreeByName c qtreeName volumeName) wLast
    = (Ret (Some {| Payload := Some payload |}, None), w')
    /\ elems (models.InlineRecords payload) = [Some qtree].
Proof.
  rewrite waitForQtree_eq, RetryNotify_eq. intros H.
  apply retryLoop_nil_inv in H. destruct H as [wLast H].
  exists wLast. unfold checkQtreeStatus, QtreeGetByName in H.
  fold (qtreeByName c qtreeName volumeName) in H.
  rewrite bind_assoc in H. unfold bind at 1 in H.
  destruct (call (qtreeByName c qtreeName volumeName) wLast) as [[answer | r |] w1];
    try discriminate.
  unfold bind in H.
  destruct (uniqueQtree _ _ answer w1) as [[[[qtree|] err] | r |] w2] eqn:Hu;
    try discriminate.
  inversion H; subst.
  apply uniqueQtree_found in Hu. destruct Hu as (_ & -> & payload & -> & Hp).
  now exists payload, qtree.
Qed.

Lemma waitForQtree_nil_saw_the_qtree_witness :
  exists wLast payload,
    oneQtree (qtreeByName successClient "q1" "vol") wLast
    = (Ret (Some {| Payload := Some payload |}, None),
       snd (waitForQtree runtime0 1 (QtreeGetByName successClient oneQtree) "vol" "q1"
                         world0))
    /\ elems (models.InlineRecords payload) = [Some "q1"%string].
Proof.
  destruct (@waitForQtree_nil_saw_the_qtree runtime0 1 successClient string oneQtree
              "vol" "q1" world0
              (snd (waitForQtree runtime0 1 (QtreeGetByName successClient oneQtree)
                                 "vol" "q1" world0)))
    as (wLast & payload & qtree & Hcall & Hrec); [vm_compute; reflexivity|].
  exists wLast, payload. split; [exact Hcall|].
  unfold oneQtree, ret in Hcall. inversion Hcall; subst. reflexivity.
Defined.

(* ------------------------------------------------------------------ *)
(** * Further properties: the reflection helpers *)

(** X17.  For every input, [ValidatePayloadExists] returns nil exactly when
    the input, or the struct it points to, has a field [Payload] that holds
    neither a nil interface nor a nil pointer; every other input, the ones
    on which the body panics included, gives an error.  On a generated
    response object that is: the response is not nil and its payload is not
    nil. *)
Theorem ValidatePayloadExists_nil_iff :
  (forall i : reflect.iface,
     ValidatePayloadExists i = None
     <-> exists f, structField i "Payload" = Some f /\ presentPayload f)
  /\ (forall P ty payloadTy (payloadValue : P -> reflect.Value) (r : option (Response P)),
        ValidatePayloadExists (Response_Value ty payloadTy payloadValue r) = None
        <-> exists response payload, r = Some response /\ Payload response = Some payload).
Proof.
  split.
  - intros i. unfold ValidatePayloadExists, ValidatePayloadExists_body, presentPayload.
    destruct i as [[s | ty | ty [[s | ty' | ty' e | ty' fs | ty' d]|] | ty fs | ty d]|];
      cbn; try (split; [discriminate|intros (f & H & _); discriminate]).
    + destruct (reflect.lookupField "Payload" fs) as [f|] eqn:Hf; cbn.
      * destruct f as [s | fty | fty [x|] | fty ffs | fty [[s | dty | dty [x|] | dty dfs | dty dd]|]];
          cbn; (split; [intros H; first [discriminate H | eexists; split; [reflexivity|exact I]]
                       |intros (f & Heq & Hp); inversion Heq; subst; cbn in Hp;
                        try contradiction; reflexivity]).
      * split; [discriminate|intros (f & H & _); discriminate].
    + destruct (reflect.lookupField "Payload" fs) as [f|] eqn:Hf; cbn.
      * destruct f as [s | fty | fty [x|] | fty ffs | fty [[s | dty | dty [x|] | dty dfs | dty dd]|]];
          cbn; (split; [intros H; first [discriminate H | eexists; split; [reflexivity|exact I]]
                       |intros (f & Heq & Hp); inversion Heq; subst; cbn in Hp;
                        try contradiction; reflexivity]).
      * split; [discriminate|intros (f & H & _); discriminate].
  - intros P ty payloadTy payloadValue r.
    destruct r as [[[p|]]|]; cbn.
    + split; [intros _; eexists; eexists; split; reflexivity|reflexivity].
    + split; [discriminate|intros (response & p & H & Hp)].
      inversion H; subst. discriminate.
    + split; [discriminate|intros (response & p & H & _); discriminate].
Qed.

Ltac extract_case :=
  cbn;
  repeat match goal with
         | |- context [String.eqb ?ty ErrorResponsePtr] =>
             destruct (String.eqb_spec ty ErrorResponsePtr); [subst|]; cbn
         end;
  (split;
   [intros H; first [discriminate H
                    | inversion H; subst; eexists; eexists;
                      split; [reflexivity|split; reflexivity]]
   |intros (f & x & Hf & Hx & Hxx);
    first [discriminate Hf
          | inversion Hf; subst; cbn in Hx;
            first [discriminate Hx
                  | inversion Hx; subst; cbn in Hxx;
                    first [discriminate Hxx
                          | inversion Hxx; subst;
                            first [reflexivity | congruence]]]]]).

(** X18.  For every input, [ExtractErrorResponse] returns without an error
    exactly when the input, or the struct it points to, has a field
    [Payload] holding a value whose dynamic type is the pointer type of the
    error response, and it returns that pointer, nil or not.  On a generated
    error object whose payload pointer is nil it so returns a nil response
    together with a nil error. *)
Theorem ExtractErrorResponse_nil_error_iff :
  (forall (i : reflect.iface) (r : option reflect.Value),
     ExtractErrorResponse i = (r, None)
     <-> exists f x,
           structField i "Payload" = Some f
           /\ held f = Some x
           /\ held x = Some (reflect.VPtr ErrorResponsePtr r))
  /\ (forall P ty (payloadValue : P -> reflect.Value) (e : Response P),
        ExtractErrorResponse
          (Response_Value ty "models.ErrorResponse" payloadValue (Some e))
        = (option_map payloadValue (Payload e), None)).
Proof.
  split.
  - intros i r. unfold ExtractErrorResponse, ExtractErrorResponse_body.
    destruct i as [[s | ty | ty [[s | ty' | ty' e | ty' fs | ty' d]|] | ty fs | ty d]|];
      try (cbn; split; [discriminate|intros (f & x & H & _); discriminate]).
    + cbn. destruct (reflect.lookupField "Payload" fs) as [f|];
        [|cbn; split; [discriminate|intros (f & x & H & _); discriminate]].
      destruct f as [s | fty | fty fx | fty ffs
                    | fty [[s | dty | dty dx | dty dfs
                           | dty [[s | ety | ety ex | ety efs | ety ed]|]]|]];
        extract_case.
    + cbn. destruct (reflect.lookupField "Payload" fs) as [f|];
        [|cbn; split; [discriminate|intros (f & x & H & _); discriminate]].
      destruct f as [s | fty | fty fx | fty ffs
                    | fty [[s | dty | dty dx | dty dfs
                           | dty [[s | ety | ety ex | ety efs | ety ed]|]]|]];
        extract_case.
  - intros P ty payloadValue [p]. reflexivity.
Qed.

(* ------------------------------------------------------------------ *)
(** * Further properties: the volumes backed by a snapshot *)

(** X19.  The record loop of [listAllVolumeNamesBackedBySnapshot] panics
    exactly when some record with a name and the parent snapshot asked for
    has a parent volume without a name (the name is dereferenced without a
    nil check); otherwise it returns the names collected so far (none, when
    the loop starts) followed, in the order of the records, by the names of
    the records that are clones with that parent snapshot and a parent
    volume of the name asked for, skipping nil and nameless records. *)
Theorem listAllVolumeNamesBackedBySnapshot_loop_spec
    (volumeName snapshotName : string) (records : list (option models.Volume)) :
  forall volumeNames,
    listAllVolumeNamesBackedBySnapshot_loop records volumeName snapshotName volumeNames
    = if existsb (namelessParent snapshotName) records then Panic nilDeref
      else Ret (volumeNames ++ flat_map (backedBy volumeName snapshotName) records).
Proof.
  induction records as [|vol rest IH]; intros volumeNames.
  - cbn. now rewrite app_nil_r.
  - cbn [listAllVolumeNamesBackedBySnapshot_loop existsb flat_map].
    unfold namelessParent at 1, backedBy at 1, cloneOf.
    destruct vol as [v|]; [|now rewrite IH].
    destruct (models.Volume_Name v) as [name|]; [|now rewrite IH].
    destruct (models.Volume_Clone v) as [clone|]; [|now rewrite IH].
    destruct (models.Clone_ParentSnapshot clone) as [[[s|]]|]; try now rewrite IH.
    destruct (String.eqb s snapshotName); [|now rewrite IH].
    destruct (models.Clone_ParentVolume clone) as [[[parent|]]|]; cbn [models.Ref_Name].
    + destruct (String.eqb parent volumeName); rewrite IH; cbn [orb app];
        [now rewrite <- app_assoc|reflexivity].
    + reflexivity.
    + now rewrite IH.
Qed.

(* ------------------------------------------------------------------ *)
(** * Further properties: validation in the by-name operations *)

Lemma symbolic_permissions_parse (u g o : bool * bool * bool) :
  String.eqb ("---" ++ symbolic u ++ symbolic g ++ symbolic o) "" = false
  /\ strconv.ParseInt
       (convertUnixPermissions ("---" ++ symbolic u ++ symbolic g ++ symbolic o)%string)
     = (100 * octalDigit u + 10 * octalDigit g + octalDigit o, None).
Proof.
  destruct u as [[[] []] []], g as [[[] []] []], o as [[[] []] []];
    split; vm_compute; reflexivity.
Qed.

(** X20.  On a volume found with its UUID,
    [modifyVolumeUnixPermissionsByNameAndStyle] with a mode in the form of
    [ls -l] asks the controller for the number that the three octal digits
    spell in decimal (755 for rwxr-xr-x), in one modify call that sets
    nothing else. *)
Theorem modifyVolumeUnixPermissions_sends_octal_digits (rt : Runtime) (fuel : nat)
    (c : RestClient) (volumeName style : string) (u g o : bool * bool * bool)
    (w w1 : World) (volume : models.Volume) (uuid : string) :
  getVolumeByNameAndStyle fuel c volumeName style w = (Ret (Some volume, None), w1) ->
  models.Volume_UUID volume = Some uuid ->
  modifyVolumeUnixPermissionsByNameAndStyle
    rt fuel c volumeName ("---" ++ symbolic u ++ symbolic g ++ symbolic o) style w
  = volumeModifyAndPoll rt fuel c
      (modifyParams uuid
         (models.set_Nas
            (Some (models.set_Nas_UnixPermissions
                     (Some (100 * octalDigit u + 10 * octalDigit g + octalDigit o))
                     models.emptyNas))
            models.emptyVolume)) w1.
Proof.
  intros Hlookup Huuid. unfold modifyVolumeUnixPermissionsByNameAndStyle.
  rewrite (bind_ret _ _ _ Hlookup), Huuid.
  destruct (symbolic_permissions_parse u g o) as [Hne Hparse].
  rewrite Hne. cbn [negb]. cbv zeta. now rewrite Hparse.
Qed.

Lemma modifyVolumeUnixPermissions_sends_octal_digits_witness :
  modifyVolumeUnixPermissionsByNameAndStyle
    runtime0 1 successClient "vol" "---rwxr-xr-x" "flexvol" world0
  = volumeModifyAndPoll runtime0 1 successClient
      (modifyParams "uuid-1"
         (models.set_Nas
            (Some (models.set_Nas_UnixPermissions (Some 755) models.emptyNas))
            models.emptyVolume))
      (snd (getVolumeByNameAndStyle 1 successClient "vol" "flexvol" world0)).
Proof.
  apply (@modifyVolumeUnixPermissions_sends_octal_digits runtime0 1 successClient
           "vol" "flexvol" (true, true, true) (true, false, true) (true, false, true)
           world0
           (snd (getVolumeByNameAndStyle 1 successClient "vol" "flexvol" world0))
           (volumeNamed (Some "uuid-1"%string) "vol" (Some "/vol"%string)) "uuid-1");
    [vm_compute; reflexivity|reflexivity].
Defined.

(** X21.  On a volume found with its UUID, the two operations that check
    their argument return the validation error in the world the lookup
    left, so without a mutating call: a permission string that is not empty
    and does not parse once converted, a QoS policy group of invalid kind,
    and a QoS policy group without a name. *)
Theorem validation_errors_before_mutation (rt : Runtime) (fuel : nat)
    (c : RestClient) (volumeName style : string) (w w1 : World)
    (volume : models.Volume) (uuid : string) :
  getVolumeByNameAndStyle fuel c volumeName style w = (Ret (Some volume, None), w1) ->
  models.Volume_UUID volume = Some uuid ->
  (forall unixPermissions,
     unixPermissions <> ""%string ->
     snd (strconv.ParseInt (convertUnixPermissions unixPermissions)) <> None ->
     modifyVolumeUnixPermissionsByNameAndStyle rt fuel c volumeName unixPermissions
                                               style w
     = (Ret (Some (Errorf ("cannot process unix permissions value "
                           ++ convertUnixPermissions unixPermissions))), w1))
  /\ (forall qosPolicyGroup,
        isInvalidKind (Qos_Kind qosPolicyGroup) = true ->
        setVolumeQosPolicyGroupNameByNameAndStyle rt fuel c volumeName qosPolicyGroup
                                                  style w
        = (Ret (Some (Errorf "invalid QoS policy group")), w1))
  /\ (forall qosPolicyGroup,
        isInvalidKind (Qos_Kind qosPolicyGroup) = false ->
        Qos_Name qosPolicyGroup = ""%string ->
        setVolumeQosPolicyGroupNameByNameAndStyle rt fuel c volumeName qosPolicyGroup
                                                  style w
        = (Ret (Some (Errorf "missing QoS policy group name")), w1)).
Proof.
  intros Hlookup Huuid. split; [|split].
  - intros unixPermissions Hne Hparse.
    unfold modifyVolumeUnixPermissionsByNameAndStyle.
    rewrite (bind_ret _ _ _ Hlookup), Huuid.
    apply String.eqb_neq in Hne. rewrite Hne. cbn [negb]. cbv zeta.
    destruct (strconv.ParseInt (convertUnixPermissions unixPermissions)) as [v [e|]];
      [reflexivity|now elim Hparse].
  - intros q Hkind. unfold setVolumeQosPolicyGroupNameByNameAndStyle.
    rewrite (bind_ret _ _ _ Hlookup), Huuid. cbn [deref]. rewrite bind_ret_l.
    now rewrite Hkind.
  - intros q Hkind Hname. unfold setVolumeQosPolicyGroupNameByNameAndStyle.
    rewrite (bind_ret _ _ _ Hlookup), Huuid. cbn [deref]. rewrite bind_ret_l.
    now rewrite Hkind, Hname.
Qed.

Lemma validation_errors_before_mutation_witness :
  setVolumeQosPolicyGroupNameByNameAndStyle
    runtime0 1 successClient "vol"
    {| Qos_Name := "gold"; Qos_Kind := InvalidQosPolicyGroupKind |} "flexvol" world0
  = (Ret (Some (Errorf "invalid QoS policy group")),
     snd (getVolumeByNameAndStyle 1 successClient "vol" "flexvol" world0)).
Proof.
  destruct (@validation_errors_before_mutation runtime0 1 successClient "vol" "flexvol"
              world0
              (snd (getVolumeByNameAndStyle 1 successClient "vol" "flexvol" world0))
              (volumeNamed (Some "uuid-1"%string) "vol" (Some "/vol"%string)) "uuid-1")
    as (_ & Hqos & _); [vm_compute; reflexivity|reflexivity|].
  apply Hqos. reflexivity.
Defined.

(* ------------------------------------------------------------------ *)
(** * Further properties: the job poll *)

Lemma isFetchOf_refl uuid :
  isFetchOf uuid (client.JobGet {| JG_UUID := uuid; JG_Fields := ["**"%string] |}) = true.
Proof.
  cbn. rewrite String.eqb_refl. reflexivity.
Qed.

Lemma footprint_JobGet_of c uuid : footprint (isFetchOf uuid) (JobGet c uuid).
Proof. unfold JobGet, api_JobGet. apply footprint_issue, isFetchOf_refl. Qed.

(** X22.  Whatever the controller answers and however long the poll runs,
    every call [PollJobStatus] issues is a fetch of the one job its payload
    names, with all fields. *)
Theorem PollJobStatus_fetches_its_job (rt : Runtime) (fuel : nat) (c : RestClient)
    (uuid : string) :
  footprint (isFetchOf uuid) (PollJobStatus rt fuel c (jobLink uuid)).
Proof.
  assert (Hcheck : footprint (isFetchOf uuid) (checkJobStatus c (jobLink uuid) uuid)).
  { unfold checkJobStatus, IsJobFinished, jobLink.
    cbn [models.Job_ models.JobLink_UUID].
    repeat first [apply footprint_JobGet_of | footprint_step]. }
  intros w o w' H. rewrite PollJobStatus_eq in H.
  destruct (pollLoop rt fuel c uuid w) as [out w1] eqn:Hloop.
  assert (Hext : extendsBy (isFetchOf uuid) w w1).
  { unfold pollLoop in Hloop.
    eapply footprint_RetryNotify; [exact Hcheck|exact Hloop]. }
  destruct out as [[e|] | r |]; try (inversion H; subst; exact Hext).
  inversion H; subst. eapply extendsBy_trans; [exact Hext|].
  exists [client.JobGet (jobGetParams uuid)]. cbn [log issued]. split; [reflexivity|].
  cbn [forallb]. unfold jobGetParams. now rewrite isFetchOf_refl.
Qed.

Lemma PollJobStatus_fetches_its_job_witness :
  extendsBy (isFetchOf "job-1") world0
            (snd (PollJobStatus runtime0 134 runningClient (jobLink "job-1") world0)).
Proof.
  apply (@PollJobStatus_fetches_its_job runtime0 134 runningClient "job-1" world0
           (fst (PollJobStatus runtime0 134 runningClient (jobLink "job-1") world0))).
  vm_compute. reflexivity.
Defined.

(* ------------------------------------------------------------------ *)
(** * Runs of the embedding *)

Example convertUnixPermissions_rwx :
  convertUnixPermissions "---rwxr-xr-x" = "755"%string
  /\ convertUnixPermissions "rw-r--r--" = "644"%string
  /\ convertUnixPermissions "0755" = "0755"%string
  /\ convertUnixPermissions "rwxrwxrwz" = "rwxrwxrwz"%string.
Proof. repeat split; reflexivity. Qed.

Example ParseInt_runs :
  strconv.ParseInt "755" = (755, None)
  /\ strconv.ParseInt "-12" = (-12, None)
  /\ strconv.ParseInt "rwxrwxrwz" = (0, Some (NumError "ParseInt" "rwxrwxrwz" ErrSyntax))
  /\ strconv.ParseInt "9223372036854775808"
     = (9223372036854775807, Some (NumError "ParseInt" "9223372036854775808" ErrRange))
  /\ strconv.ParseUint "18446744073709551616"
     = (18446744073709551615, Some (NumError "ParseUint" "18446744073709551616" ErrRange)).
Proof. repeat split; vm_compute; reflexivity. Qed.

(** Against a job that stays in state running, with every draw at the low
    end and exact timers, [PollJobStatus] fetches the job eight times (after
    0, 0.9, 2.7, 6.3, 13.5, 27.9, 56.7 and 110.7 seconds) and then returns
    the loop's error. *)
Example PollJobStatus_running :
  let '(out, w') := PollJobStatus runtime0 134 runningClient (jobLink "job-1") world0 in
  out = Ret (Some (Errorf "job job-1 not yet done"))
  /\ List.length (log w') = 8%nat
  /\ forallb isJobGet (log w') = true.
Proof. vm_compute. repeat split; reflexivity. Qed.

(** A page whose next link has no href is fetched again and again: the
    helper runs out of any number of iterations, here ten. *)
Example getAllVolumePayloadRecords_follows_empty_link :
  let page := volumePage (nextLinkTo None) (Some 1)
                         (Some [Some (volumeNamed (Some "uuid-a"%string) "a" None)]) in
  let c := staticClient (Some {| Payload := Some page |}, None) None in
  fst (getAllVolumePayloadRecords 10 c (Some page) (volumeQuery "*" "flexvol" None) world0)
  = OutOfFuel.
Proof. vm_compute. reflexivity. Qed.

(* ------------------------------------------------------------------ *)
(** * Further properties: NVMeSubsystemList *)

(** X23.  [NVMeSubsystemList] guards its paging loop against a nil
    response only.  When the first page has a next link and the next fetch
    returns a response without a payload, or with a payload without a record
    count, the function panics on the nil dereference, where
    [AggregateList] stops and returns what it has. *)
Theorem NVMeSubsystemList_uncounted_page_panics (fuel : nat) (c : RestClient)
    (NvmeSubsystem : Type)
    (call : NvmeSubsystemCollectionGetParams -> option models.Href ->
            M (option (Response (models.CollectionResponse NvmeSubsystem)) * option error))
    (pattern : string) (w : World) (first : models.CollectionResponse NvmeSubsystem)
    (links : models.Links) (w1 : World)
    (r : Response (models.CollectionResponse NvmeSubsystem)) (w2 : World) :
  call (nvmeSubsystemParams c pattern) None w
  = (Ret (Some {| Payload := Some first |}, None), w1) ->
  HasNextLink (NvmeSubsystemResponse_iface (Some first)) = true ->
  models.Links_ first = Some links ->
  call (nvmeSubsystemParams c pattern) (models.Links_Next links) w1
  = (Ret (Some r, None), w2) ->
  uncounted r ->
  (1 <= fuel)%nat ->
  NVMeSubsystemList fuel c call pattern w = (Panic nilDeref, w2).
Proof.
  intros Hfirst Hh Hl Hnext Hu Hfuel.
  unfold NVMeSubsystemList. fold (nvmeSubsystemParams c pattern). cbv zeta.
  rewrite (bind_ret _ _ _ Hfirst). cbn [Payload]. rewrite Hh.
  cbn [deref]. rewrite bind_ret_l, Hl. cbn [deref]. rewrite bind_ret_l.
  destruct fuel as [|n]; [lia|]. cbn [NVMeSubsystemList_loop].
  rewrite (bind_ret _ _ _ Hnext).
  destruct (models.NumRecords first) as [num|]; [|reflexivity].
  cbn [deref]. rewrite bind_ret_l.
  destruct r as [[p|]]; [|reflexivity].
  cbn [Payload deref]. rewrite bind_ret_l.
  unfold uncounted in Hu. cbn [Payload] in Hu. rewrite Hu. reflexivity.
Qed.

Lemma NVMeSubsystemList_uncounted_page_panics_witness :
  NVMeSubsystemList 1 successClient subsystemPages "" world0 = (Panic nilDeref, world0).
Proof.
  apply (@NVMeSubsystemList_uncounted_page_panics 1 successClient unit subsystemPages ""
           world0 firstSubsystems
           {| models.Links_Next :=
                Some {| models.Href_Href := Some "/api/protocols/nvme/subsystems?start=b"%string |};
              models.Links_Self := None |}
           world0 {| Payload := None |} world0);
    first [reflexivity | exact I | lia].
Defined.
